(** * bipartite: activity classification and board reconciliation

    A shallow embedding of the decision logic of the check-in, board and
    digest commands:

    - [fc_cli/checkin/activity.py]: reference extraction, the
      ball-in-my-court predicate, the two filters built on it and the
      per-repository aggregation loop;
    - [flowc/checkin/board_check.py]: draft and orphan detection;
    - [flowc/board/sync.py] and [flowc/board/api.py]: the P0 sync and its
      repair path;
    - [fc_cli/digest/cli.py] and [fc_cli/shared/github.py]: contributors,
      the most recent comments of an item, durations;
    - [flowc/shared/config.py]: repository names.

    Conventions.  A Python [str] is a [string], its characters read as the
    code points 0..255.  A JSON object read with subscripts is a record with
    that field; a key read with [.get] or tested with [in] is an [option]
    field.  A fetched value has the JSON type the GitHub API documents for
    it.  A Python exception is the [Raise] branch of [result]. *)

From Stdlib Require Import ZArith Ascii String List Sorting.Sorted Permutation
  DecimalString.
From stdpp Require Import base option list gmap strings sets fin_maps.
From Stdlib Require DecimalPos.

Open Scope string_scope.
Open Scope list_scope.
Open Scope Z_scope.

(** ** Exceptions *)

Inductive pyexn : Type :=
| ValueError
| IndexError.

Inductive result (A : Type) : Type :=
| Ok (a : A)
| Raise (e : pyexn).

Arguments Ok {A} a.
Arguments Raise {A} e.

#[global] Instance result_ret : MRet result := fun _ a => Ok a.
#[global] Instance result_bind : MBind result :=
  fun _ _ f m => match m with Ok a => f a | Raise e => Raise e end.

(** A list comprehension whose condition may raise: the first exception
    ends the comprehension. *)
Fixpoint filterM {A : Type} (p : A -> result bool) (l : list A)
  : result (list A) :=
  match l with
  | [] => Ok []
  | x :: l' =>
      b ← p x;
      r ← filterM p l';
      Ok (if b : bool then x :: r else r)
  end.

(** ** Strings *)

Definition code (c : ascii) : nat := nat_of_ascii c.

Definition between (lo hi n : nat) : bool :=
  (Nat.leb lo n && Nat.leb n hi)%bool.

(** [str.isspace] on one character, as [\s] and [int] use it. *)
Definition is_space (c : ascii) : bool :=
  (between 9 13 (code c) || between 28 32 (code c)
   || Nat.eqb (code c) 133 || Nat.eqb (code c) 160)%bool.

(** [\d]: the decimal digits. *)
Definition is_digit (c : ascii) : bool := between 48 57 (code c).

Definition digit_value (c : ascii) : Z := Z.of_nat (code c - 48).

(** [str.lower] on one character: A-Z and the upper-case letters of
    0xC0..0xDE (0xD7, the multiplication sign, is not a letter). *)
Definition lower_char (c : ascii) : ascii :=
  if (between 65 90 (code c)
      || (between 192 222 (code c) && negb (Nat.eqb (code c) 215)))%bool
  then ascii_of_nat (code c + 32)
  else c.

Fixpoint lower (s : string) : string :=
  match s with
  | EmptyString => EmptyString
  | String c s' => String (lower_char c) (lower s')
  end.

(** [s.split(sep)] for a one-character separator: never empty. *)
Fixpoint split_on (sep : ascii) (s : string) : list string :=
  match s with
  | EmptyString => [EmptyString]
  | String c s' =>
      let r := split_on sep s' in
      if Ascii.eqb c sep then EmptyString :: r
      else match r with
           | [] => [String c EmptyString]
           | w :: ws => String c w :: ws
           end
  end.

(** [l[-1]] on a list of strings that is known to be non-empty. *)
Definition last_str (l : list string) : string := List.last l EmptyString.

Fixpoint lstrip (s : string) : string :=
  match s with
  | String c s' => if is_space c then lstrip s' else s
  | EmptyString => EmptyString
  end.

Fixpoint rev_str (acc s : string) : string :=
  match s with
  | EmptyString => acc
  | String c s' => rev_str (String c acc) s'
  end.

Definition strip (s : string) : string :=
  rev_str EmptyString (lstrip (rev_str EmptyString (lstrip s))).

(** The digits of a decimal literal: single underscores may separate
    digits, and the literal starts and ends with a digit. *)
Fixpoint parse_digits (acc : Z) (after_digit : bool) (s : string)
  : option Z :=
  match s with
  | EmptyString => if after_digit then Some acc else None
  | String c s' =>
      if is_digit c then parse_digits (10 * acc + digit_value c) true s'
      else if Ascii.eqb c "_" then
        (if after_digit then parse_digits acc false s' else None)
      else None
  end.

(** [int(s)] in base ten: surrounding whitespace, an optional sign, the
    digits.  Anything else is a [ValueError]. *)
Definition py_int (s : string) : result Z :=
  let body := strip s in
  let signed :=
    match body with
    | String "-" s' => (-1, s')
    | String "+" s' => (1, s')
    | _ => (1, body)
    end in
  match parse_digits 0 false (snd signed) with
  | Some n => Ok (fst signed * n)
  | None => Raise ValueError
  end.

(** [str(n)] of an integer, as an f-string formats it. *)
Definition str_of_Z (n : Z) : string := NilZero.string_of_int (Z.to_int n).

(** Truth value of a [str]. *)
Definition nonempty (s : string) : bool :=
  match s with EmptyString => false | _ => true end.

(** ** Stable sort

    [list.sort(key=...)] and [sorted(..., key=...)] compare keys with [<]
    only and are stable.  For keys under a strict weak order every stable
    sort returns the same list; it is computed here by insertion from the
    right, an element going in front of the first one that is not smaller. *)

Section StableSort.
Context {A : Type} (key : A -> string).

Fixpoint insert_sorted (x : A) (l : list A) : list A :=
  match l with
  | [] => [x]
  | y :: l' =>
      if String.ltb (key y) (key x) then y :: insert_sorted x l'
      else x :: y :: l'
  end.

Fixpoint py_sorted (l : list A) : list A :=
  match l with
  | [] => []
  | x :: l' => insert_sorted x (py_sorted l')
  end.

(** The order of the keys, and the element a stable ascending sort puts
    last: nothing before it in the input has a greater key, and everything
    after it has a strictly smaller one. *)
Definition key_le (x y : A) : Prop := String.leb (key x) (key y) = true.
Definition key_lt (x y : A) : Prop := String.ltb (key x) (key y) = true.

Definition sorts_last (l : list A) (c : A) : Prop :=
  exists pre post,
    l = pre ++ c :: post
    /\ Forall (fun x => key_le x c) pre
    /\ Forall (fun x => key_lt x c) post.

End StableSort.

(** ** Regular expressions

    The patterns of the source are built from literals, greedy repetitions
    of a character class, concatenation and capturing groups.  The matcher
    backtracks as [re] does: a greedy repetition takes the longest run first
    and gives characters back while the rest of the pattern fails. *)

Inductive regex : Type :=
| Lit (s : string)
| Many (p : ascii -> bool)
| Many1 (p : ascii -> bool)
| Cat (r1 r2 : regex)
| Group (r : regex).

Fixpoint strip_prefix (p s : string) : option string :=
  match p, s with
  | EmptyString, _ => Some s
  | String a p', String b s' =>
      if Ascii.eqb a b then strip_prefix p' s' else None
  | String _ _, EmptyString => None
  end.

Section Matcher.
Context {R : Type}.

(** [k] receives the characters taken and the rest of the input. *)
Fixpoint greedy (p : ascii -> bool) (s : string)
  (k : string -> string -> option R) : option R :=
  match s with
  | String c s' =>
      if p c then
        match greedy p s' (fun m rest => k (String c m) rest) with
        | Some r => Some r
        | None => k EmptyString s
        end
      else k EmptyString s
  | EmptyString => k EmptyString s
  end.

(** [k] receives the matched text, the groups closed inside it (in order
    of their opening parenthesis) and the rest of the input. *)
Fixpoint re_match (r : regex) (s : string)
  (k : string -> list string -> string -> option R) : option R :=
  match r with
  | Lit l =>
      match strip_prefix l s with
      | Some rest => k l [] rest
      | None => None
      end
  | Many p => greedy p s (fun m rest => k m [] rest)
  | Many1 p =>
      match s with
      | String c s' =>
          if p c then greedy p s' (fun m rest => k (String c m) [] rest)
          else None
      | EmptyString => None
      end
  | Cat r1 r2 =>
      re_match r1 s (fun m1 g1 rest1 =>
        re_match r2 rest1 (fun m2 g2 rest2 =>
          k (String.append m1 m2) (g1 ++ g2) rest2))
  | Group r' => re_match r' s (fun m g rest => k m (m :: g) rest)
  end.

End Matcher.

(** A match anchored at the start of [s]: matched text and groups. *)
Definition re_match_at (r : regex) (s : string)
  : option (string * list string) :=
  re_match r s (fun m g _ => Some (m, g)).

(** [pattern.search(s)]: the groups of the leftmost match. *)
Fixpoint re_search (r : regex) (s : string) : option (list string) :=
  match re_match_at r s with
  | Some (_, g) => Some g
  | None =>
      match s with
      | EmptyString => None
      | String _ s' => re_search r s'
      end
  end.

(** [pattern.findall(s)]: the groups of the successive matches, a scan
    resuming where the previous match ended.  [skip] counts the characters
    of the current match still to pass.  None of the patterns below matches
    the empty string. *)
Fixpoint re_findall_from (r : regex) (skip : nat) (s : string)
  : list (list string) :=
  match s with
  | EmptyString => []
  | String _ s' =>
      match skip with
      | S n => re_findall_from r n s'
      | O =>
          match re_match_at r s with
          | Some (m, g) => g :: re_findall_from r (String.length m - 1) s'
          | None => re_findall_from r 0 s'
          end
      end
  end.

Definition re_findall (r : regex) (s : string) : list (list string) :=
  re_findall_from r 0 s.

Definition not_hash_space (c : ascii) : bool :=
  (negb (Ascii.eqb c "#") && negb (is_space c))%bool.

Definition not_space (c : ascii) : bool := negb (is_space c).

(** [GitHub:\s*([^#\s]+#\d+)] *)
Definition GITHUB_REF_PATTERN : regex :=
  Cat (Lit "GitHub:")
    (Cat (Many is_space)
       (Group (Cat (Many1 not_hash_space) (Cat (Lit "#") (Many1 is_digit))))).

(** [GitHub:\s*([^#\s]+)#(\d+)] *)
Definition GITHUB_REF_PARTS_PATTERN : regex :=
  Cat (Lit "GitHub:")
    (Cat (Many is_space)
       (Cat (Group (Many1 not_hash_space))
          (Cat (Lit "#") (Group (Many1 is_digit))))).

(** [Board:\s*([^#\s]+)#(\S+)] *)
Definition BOARD_MARKER_PATTERN : regex :=
  Cat (Lit "Board:")
    (Cat (Many is_space)
       (Cat (Group (Many1 not_hash_space))
          (Cat (Lit "#") (Group (Many1 not_space))))).

(** ** Records fetched from GitHub (check-in) *)

Record User : Type := { login : option string }.

(** The [pull_request] member of an issue record.  GitHub always fills it
    with the URLs of the pull request, so a present object is a true value. *)
Record PullRequest : Type := { merged_at : option string }.

(** An issue or pull request as [ball_in_my_court] reads it: [number] and
    [user.login] are subscripted, [pull_request] is read with [.get]. *)
Record Item : Type := {
  number : Z;
  user_login : string;
  pull_request : option PullRequest
}.

(** A comment: every member is read with [in] or [.get]. *)
Record Comment : Type := {
  issue_url : option string;
  pull_request_url : option string;
  comment_user : option User;
  updated_at : option string;
  created_at : option string
}.

#[global] Instance User_eq_dec : EqDecision User.
Proof. solve_decision. Defined.
#[global] Instance PullRequest_eq_dec : EqDecision PullRequest.
Proof. solve_decision. Defined.
#[global] Instance Item_eq_dec : EqDecision Item.
Proof. solve_decision. Defined.
#[global] Instance Comment_eq_dec : EqDecision Comment.
Proof. solve_decision. Defined.

(** What a Python function annotated [-> bool] may hand back when it ends
    in [a and b]: the boolean, or the false string [a] itself. *)
Inductive pyval : Type :=
| PyBool (b : bool)
| PyStr (s : string).

Definition truthy (v : pyval) : bool :=
  match v with
  | PyBool b => b
  | PyStr s => nonempty s
  end.

(** ** fc_cli/checkin/activity.py *)

(** [GITHUB_REF_PATTERN.findall(desc)]: one group, so a list of strings. *)
Definition extract_github_refs_from_description (desc : string)
  : list string :=
  flat_map (fun g => g) (re_findall GITHUB_REF_PATTERN desc).

(** A bead of the local tracker.  Every member is read with [.get]. *)
Record Bead : Type := {
  bead_id : option string;
  bead_title : option string;
  description : option string;
  priority : option Z
}.

#[global] Instance Bead_eq_dec : EqDecision Bead.
Proof. solve_decision. Defined.

Definition get_description (b : Bead) : string :=
  default EmptyString (description b).

Definition collect_all_github_refs (beads : list Bead) : gset string :=
  fold_left
    (fun refs bead =>
       refs ∪ list_to_set
                (extract_github_refs_from_description (get_description bead)))
    beads ∅.

Definition parse_board_marker (desc : string) : option (string * string) :=
  match re_search BOARD_MARKER_PATTERN desc with
  | Some [board_key; item_id] => Some (board_key, item_id)
  | _ => None
  end.

Definition get_comment_item_number (comment : Comment) : result (option Z) :=
  match issue_url comment with
  | Some url => n ← py_int (last_str (split_on "/" url)); Ok (Some n)
  | None =>
      match pull_request_url comment with
      | Some url => n ← py_int (last_str (split_on "/" url)); Ok (Some n)
      | None => Ok None
      end
  end.

(** [c.get("updated_at", c.get("created_at", ""))] *)
Definition sort_key (c : Comment) : string :=
  match updated_at c with
  | Some t => t
  | None => default EmptyString (created_at c)
  end.

(** [c.get("user", {}).get("login", "")] *)
Definition commenter (c : Comment) : string :=
  match comment_user c with
  | Some u => default EmptyString (login u)
  | None => EmptyString
  end.

(** [[c for c in comments if get_comment_item_number(c) == item_number]] *)
Definition item_comments_of (item_number : Z) (comments : list Comment)
  : result (list Comment) :=
  filterM
    (fun c =>
       r ← get_comment_item_number c;
       Ok (bool_decide (r = Some item_number)))
    comments.

(** A comment resolves when the lookup of its parent returns, with a
    number or with [None]; the comments associated with an item are those
    that resolve to its number. *)
Definition resolves (c : Comment) : Prop :=
  exists r, get_comment_item_number c = Ok r.

Definition resolves_to (n : Z) (c : Comment) : bool :=
  match get_comment_item_number c with
  | Ok (Some m) => Z.eqb m n
  | _ => false
  end.

Definition associated (n : Z) (comments : list Comment) : list Comment :=
  List.filter (resolves_to n) comments.

Definition ball_in_my_court (item : Item) (comments : list Comment)
  (github_user : string) : result pyval :=
  let author := user_login item in
  let is_my_item := bool_decide (author = github_user) in
  let item_number := number item in
  item_comments ← item_comments_of item_number comments;
  match item_comments with
  | [] => Ok (PyBool (negb is_my_item))
  | _ :: _ =>
      let item_comments := py_sorted sort_key item_comments in
      match last item_comments with
      | None => Raise IndexError
      | Some c =>
          let last_commenter := commenter c in
          Ok (if nonempty last_commenter
              then PyBool (negb (bool_decide (last_commenter = github_user)))
              else PyStr last_commenter)
      end
  end.

Definition filter_by_ball_in_court (items : list Item)
  (comments : list Comment) (github_user : string) : result (list Item) :=
  filterM
    (fun item => v ← ball_in_my_court item comments github_user;
                 Ok (truthy v))
    items.

Definition filter_comments_by_items (comments : list Comment)
  (items : list Item) : result (list Comment) :=
  let item_numbers : gset Z := list_to_set (map number items) in
  filterM
    (fun c =>
       r ← get_comment_item_number c;
       Ok (match r with
           | Some n => bool_decide (n ∈ item_numbers)
           | None => false
           end))
    comments.

(** The three feeds of [fc_cli/shared/github.py], each a function of the
    repository and the cutoff.  They print and return an empty list when
    the call fails; they do not raise. *)
Record GitHubFeeds : Type := {
  fetch_issues : string -> Z -> list Item;
  fetch_comments : string -> Z -> list Comment;
  fetch_pr_comments : string -> Z -> list Comment
}.

(** The value stored under a repository: the dictionary with the keys
    ["issues"], ["prs"] and ["comments"]. *)
Record Snapshot : Type := {
  issues : list Item;
  prs : list Item;
  comments : list Comment
}.

Record Totals : Type := {
  total_issues : nat;
  total_prs : nat;
  total_comments : nat
}.

Definition is_pull_request (i : Item) : bool :=
  match pull_request i with Some _ => true | None => false end.

Definition list_nonempty {A : Type} (l : list A) : bool :=
  match l with [] => false | _ :: _ => true end.

(** What one repository shows once the optional filter has run: lines
    200-214 of the loop body. *)
Definition repo_view (gh : GitHubFeeds) (since : Z)
  (github_user : option string) (repo : string) : result Snapshot :=
  let all_items := fetch_issues gh repo since in
  let issue_comments := fetch_comments gh repo since in
  let pr_comments := fetch_pr_comments gh repo since in
  let new_issues := List.filter (fun i => negb (is_pull_request i)) all_items in
  let new_prs := List.filter is_pull_request all_items in
  let all_comments := issue_comments ++ pr_comments in
  match github_user with
  | Some u =>
      if nonempty u then
        new_issues ← filter_by_ball_in_court new_issues all_comments u;
        new_prs ← filter_by_ball_in_court new_prs all_comments u;
        let all_items_shown := new_issues ++ new_prs in
        all_comments ← filter_comments_by_items all_comments all_items_shown;
        Ok {| issues := new_issues; prs := new_prs; comments := all_comments |}
      else
        Ok {| issues := new_issues; prs := new_prs; comments := all_comments |}
  | None =>
      Ok {| issues := new_issues; prs := new_prs; comments := all_comments |}
  end.

(** The rest of the loop body (lines 216-229): store, skip or count.
    Printing is not modelled. *)
Definition record_repo (repo : string) (v : Snapshot)
  (st : gmap string Snapshot * Totals) : gmap string Snapshot * Totals :=
  let '(activity, totals) := st in
  let activity :=
    if (list_nonempty (issues v) || list_nonempty (prs v))%bool
    then <[repo := v]> activity
    else activity in
  if (negb (list_nonempty (issues v)) && negb (list_nonempty (prs v))
      && negb (list_nonempty (comments v)))%bool
  then (activity, totals)
  else (activity,
        {| total_issues := (total_issues totals + length (issues v))%nat;
           total_prs := (total_prs totals + length (prs v))%nat;
           total_comments :=
             (total_comments totals + length (comments v))%nat |}).

Fixpoint fetch_all_activity_loop (gh : GitHubFeeds) (since : Z)
  (github_user : option string) (repos : list string)
  (st : gmap string Snapshot * Totals)
  : result (gmap string Snapshot * Totals) :=
  match repos with
  | [] => Ok st
  | repo :: repos' =>
      v ← repo_view gh since github_user repo;
      fetch_all_activity_loop gh since github_user repos'
        (record_repo repo v st)
  end.

Definition fetch_all_activity (gh : GitHubFeeds) (repos : list string)
  (since : Z) (github_user : option string)
  : result (gmap string Snapshot * Totals) :=
  fetch_all_activity_loop gh since github_user repos
    (∅, {| total_issues := 0%nat; total_prs := 0%nat;
          total_comments := 0%nat |}).

(** ** The same three functions on the Python heap

    Lists and dictionaries are objects; a [list[dict]] holds references.
    The functions below are [ball_in_my_court], [filter_by_ball_in_court]
    and [filter_comments_by_items] again, with every list they read, build
    or sort in place made explicit.  A location is an index into the heap;
    an allocation extends the heap at its end.  A reference to an object
    of the wrong kind is a [TypeError]. *)

Abbreviation loc := nat (only parsing).

Inductive object : Type :=
| ItemObj (i : Item)
| CommentObj (c : Comment)
| ListObj (l : list loc).

Abbreviation heap := (list object) (only parsing).

Inductive outcome (A : Type) : Type :=
| Returned (a : A)
| Raised (e : pyexn)
| TypeError.

Arguments Returned {A} a.
Arguments Raised {A} e.
Arguments TypeError {A}.

Definition mem (A : Type) : Type := heap -> outcome A * heap.

Definition mem_ret {A : Type} (a : A) : mem A := fun h => (Returned a, h).

Definition mem_bind {A B : Type} (m : mem A) (f : A -> mem B) : mem B :=
  fun h =>
    match m h with
    | (Returned a, h') => f a h'
    | (Raised e, h') => (Raised e, h')
    | (TypeError, h') => (TypeError, h')
    end.

Notation "'let!' x ':=' m 'in' k" := (mem_bind m (fun x => k))
  (at level 10, x name, m at level 100, k at level 200).

Definition lift {A : Type} (r : result A) : mem A :=
  fun h => match r with Ok a => (Returned a, h) | Raise e => (Raised e, h) end.

Definition read_item (l : loc) : mem Item :=
  fun h => match h !! l with
           | Some (ItemObj i) => (Returned i, h)
           | _ => (TypeError, h)
           end.

Definition read_comment (l : loc) : mem Comment :=
  fun h => match h !! l with
           | Some (CommentObj c) => (Returned c, h)
           | _ => (TypeError, h)
           end.

Definition read_list (l : loc) : mem (list loc) :=
  fun h => match h !! l with
           | Some (ListObj refs) => (Returned refs, h)
           | _ => (TypeError, h)
           end.

(** A new list object. *)
Definition alloc_list (refs : list loc) : mem loc :=
  fun h => (Returned (length h), h ++ [ListObj refs]).

(** [x.sort(key=...)]: the list object at [l] is overwritten with its
    sorted contents.  The key of a reference is read through the heap. *)
Definition key_at (h : heap) (r : loc) : string :=
  match h !! r with
  | Some (CommentObj c) => sort_key c
  | _ => EmptyString
  end.

Definition sort_in_place (l : loc) : mem unit :=
  fun h => match h !! l with
           | Some (ListObj refs) =>
               (Returned tt, <[l := ListObj (py_sorted (key_at h) refs)]> h)
           | _ => (TypeError, h)
           end.

(** [[r for r in refs if p(r)]], the condition running on the heap. *)
Fixpoint filter_refs (p : loc -> mem bool) (refs : list loc)
  : mem (list loc) :=
  match refs with
  | [] => mem_ret []
  | r :: refs' =>
      let! b := p r in
      let! kept := filter_refs p refs' in
      mem_ret (if b : bool then r :: kept else kept)
  end.

Definition ball_in_my_court_mem (item comments : loc) (github_user : string)
  : mem pyval :=
  let! i := read_item item in
  let author := user_login i in
  let is_my_item := bool_decide (author = github_user) in
  let item_number := number i in
  let! refs := read_list comments in
  let! kept :=
    filter_refs
      (fun r =>
         let! c := read_comment r in
         let! n := lift (get_comment_item_number c) in
         mem_ret (bool_decide (n = Some item_number)))
      refs in
  let! item_comments := alloc_list kept in
  match kept with
  | [] => mem_ret (PyBool (negb is_my_item))
  | _ :: _ =>
      let! _ := sort_in_place item_comments in
      let! sorted := read_list item_comments in
      match last sorted with
      | None => lift (Raise IndexError)
      | Some r =>
          let! c := read_comment r in
          let last_commenter := commenter c in
          mem_ret
            (if nonempty last_commenter
             then PyBool (negb (bool_decide (last_commenter = github_user)))
             else PyStr last_commenter)
      end
  end.

Definition filter_by_ball_in_court_mem (items comments : loc)
  (github_user : string) : mem loc :=
  let! refs := read_list items in
  let! kept :=
    filter_refs
      (fun r =>
         let! v := ball_in_my_court_mem r comments github_user in
         mem_ret (truthy v))
      refs in
  alloc_list kept.

(** [{item["number"] for item in items}] *)
Fixpoint numbers_of (refs : list loc) : mem (gset Z) :=
  match refs with
  | [] => mem_ret ∅
  | r :: refs' =>
      let! i := read_item r in
      let! s := numbers_of refs' in
      mem_ret ({[number i]} ∪ s)
  end.

Definition filter_comments_by_items_mem (comments items : loc) : mem loc :=
  let! item_refs := read_list items in
  let! item_numbers := numbers_of item_refs in
  let! refs := read_list comments in
  let! kept :=
    filter_refs
      (fun r =>
         let! c := read_comment r in
         let! n := lift (get_comment_item_number c) in
         mem_ret (match n with
                  | Some n => bool_decide (n ∈ item_numbers)
                  | None => false
                  end))
      refs in
  alloc_list kept.

(** A computation frames the heap when it only allocates: the heap it
    leaves starts with the heap it found. *)
Definition frames {A : Type} (m : mem A) : Prop :=
  forall h : heap, h `prefix_of` (m h).2.

(** The heap functions against the functions on values: the outcome that
    corresponds to a result, and a list of references that holds given
    comments. *)
Definition outcome_of {A : Type} (r : result A) : outcome A :=
  match r with
  | Ok a => Returned a
  | Raise e => Raised e
  end.

Definition holds_comment (h : list object) (r : nat) (c : Comment) : Prop :=
  h !! r = Some (CommentObj c).

Definition holds_item (h : list object) (r : nat) (i : Item) : Prop :=
  h !! r = Some (ItemObj i).

Definition holds_comments (h : list object) (refs : list nat)
  (cs : list Comment) : Prop :=
  Forall2 (holds_comment h) refs cs.

(** ** Dictionaries that keep insertion order

    A Python [dict] iterates in the order its keys were first inserted;
    assigning to a key that is present replaces the value where it is. *)

Section OrderedDict.
Context {V : Type}.

Definition odict : Type := list (string * V).

Fixpoint od_get (k : string) (d : odict) : option V :=
  match d with
  | [] => None
  | (k', v) :: d' => if bool_decide (k' = k) then Some v else od_get k d'
  end.

Fixpoint od_set (k : string) (v : V) (d : odict) : odict :=
  match d with
  | [] => [(k, v)]
  | (k', v') :: d' =>
      if bool_decide (k' = k) then (k, v) :: d' else (k', v') :: od_set k v d'
  end.

Definition od_mem (k : string) (d : odict) : bool :=
  match od_get k d with Some _ => true | None => false end.

End OrderedDict.

Arguments odict V : clear implicits.

(** ** Board items (gh project item-list) *)

Record Content : Type := {
  content_type : option string;
  repository : option string;
  content_number : option Z;
  url : option string
}.

(** [id] is subscripted by [check_boards]; the other members are read
    with [.get]. *)
Record BoardItem : Type := {
  id : string;
  content : option Content;
  status : option string;
  title : option string
}.

#[global] Instance Content_eq_dec : EqDecision Content.
Proof. solve_decision. Defined.
#[global] Instance BoardItem_eq_dec : EqDecision BoardItem.
Proof. solve_decision. Defined.

(** [item.get("content", {})] followed by a [.get] on it. *)
Definition content_get {A : Type} (f : Content -> option A) (item : BoardItem)
  : option A :=
  match content item with
  | Some c => f c
  | None => None
  end.

(** Truth value of an [int] read with [.get]: absent and zero are false. *)
Definition number_true (n : option Z) : bool :=
  match n with
  | Some n => negb (Z.eqb n 0)
  | None => false
  end.

(** ** flowc/checkin/board_check.py *)

Record BoardChanges : Type := {
  parent_bead : string;
  new_drafts : list BoardItem;
  removed_drafts : list Bead;
  orphan_issues : list BoardItem
}.

(** Lines 52-60: the beads carrying a board marker, by board and by item. *)
Definition index_beads_by_board (beads : list Bead)
  : odict (odict Bead) :=
  fold_left
    (fun bead_by_board bead =>
       let desc := get_description bead in
       match parse_board_marker desc with
       | Some (board_key, item_id) =>
           let bead_by_board :=
             if od_mem board_key bead_by_board then bead_by_board
             else od_set board_key [] bead_by_board in
           od_set board_key
             (od_set item_id bead (default [] (od_get board_key bead_by_board)))
             bead_by_board
       | None => bead_by_board
       end)
    beads [].

(** Lines 100-110: the body of the loop over the Issue-type items. *)
Definition record_orphan (github_refs : gset string)
  (orphan_issues : list BoardItem) (item : BoardItem) : list BoardItem :=
  let status := default EmptyString (status item) in
  if bool_decide (lower status = "done") then orphan_issues
  else
    let repo := default EmptyString (content_get repository item) in
    let number := content_get content_number item in
    if (nonempty repo && number_true number)%bool then
      let ref :=
        String.append repo
          (String.append "#" (str_of_Z (default 0 number))) in
      if bool_decide (ref ∉ github_refs)
      then orphan_issues ++ [item]
      else orphan_issues
    else orphan_issues.

(** Lines 98-110. *)
Definition find_orphan_issues (github_refs : gset string)
  (issue_items : list BoardItem) : list BoardItem :=
  fold_left (record_orphan github_refs) issue_items [].

(** The body of the loop over boards, for a key that splits in two. *)
Definition check_board (bead_by_board : odict (odict Bead))
  (github_refs : gset string) (board_key parent_bead_id : string)
  (board_items : list BoardItem) : option BoardChanges :=
  let item_type item := default EmptyString (content_get content_type item) in
  let draft_items :=
    List.filter (fun item => bool_decide (item_type item = "DraftIssue"))
      board_items in
  let issue_items :=
    List.filter (fun item => bool_decide (item_type item = "Issue"))
      board_items in
  let beads_for_board := default [] (od_get board_key bead_by_board) in
  let draft_item_ids :=
    fold_left (fun d item => od_set (id item) item d) draft_items [] in
  let new_drafts :=
    map snd
      (List.filter (fun kv => negb (od_mem (fst kv) beads_for_board))
         draft_item_ids) in
  let removed_drafts :=
    map snd
      (List.filter (fun kv => negb (od_mem (fst kv) draft_item_ids))
         beads_for_board) in
  let orphan_issues := find_orphan_issues github_refs issue_items in
  if (list_nonempty new_drafts || list_nonempty removed_drafts
      || list_nonempty orphan_issues)%bool
  then Some {| parent_bead := parent_bead_id;
               new_drafts := new_drafts;
               removed_drafts := removed_drafts;
               orphan_issues := orphan_issues |}
  else None.

(** Lines 65-118: one turn of the loop over the boards.  A key that does
    not split in two is passed over.  [fetch_board_items owner project_num]
    is the [gh project item-list] call; it returns an empty list when the
    call or the parse fails. *)
Definition record_board
  (fetch_board_items : string -> string -> list BoardItem)
  (bead_by_board : odict (odict Bead)) (github_refs : gset string)
  (results : odict BoardChanges) (entry : string * string)
  : odict BoardChanges :=
  let '(board_key, parent_bead_id) := entry in
  match split_on "/" board_key with
  | [owner; project_num] =>
      let board_items := fetch_board_items owner project_num in
      match check_board bead_by_board github_refs board_key
              parent_bead_id board_items with
      | Some changes => od_set board_key changes results
      | None => results
      end
  | _ => results
  end.

(** [boards] is the dictionary's items in order. *)
Definition check_boards
  (fetch_board_items : string -> string -> list BoardItem)
  (boards : list (string * string)) (beads : list Bead)
  : odict BoardChanges :=
  let bead_by_board := index_beads_by_board beads in
  let github_refs := collect_all_github_refs beads in
  fold_left (record_board fetch_board_items bead_by_board github_refs)
    boards [].

(** ** flowc/board/sync.py

    The sync reads the tracker file and the board and, when asked to fix,
    calls the board API.  These calls are the events of a program tree; a
    handler answers them.  [AddIssueToBoard] and [RemoveIssueFromBoard]
    are the two board mutations of [flowc/board/api.py] that the module
    could call.  Each returns a success flag and a message, or raises:
    [ensure_board_metadata] raises [ValueError] when the project is not
    found, and [add_issue_to_board] reaches it through
    [add_issue_via_graphql] (when [gh project item-add] fails) and through
    [set_item_status]; nothing on the way catches it. *)

Inductive boardE : Type -> Type :=
| LoadBeads : boardE (list Bead)
| GhProjectItemList (project_num owner : string) : boardE (list BoardItem)
| AddIssueToBoard (board_key : string) (issue_number : Z) (repo : string)
    (status : option string) : boardE (result (bool * string))
| RemoveIssueFromBoard (board_key : string) (issue_number : Z)
    (repo : string) : boardE (result (bool * string)).

Inductive prog (R : Type) : Type :=
| Ret (r : R)
| Vis {X : Type} (e : boardE X) (k : X -> prog R).

Arguments Ret {R} r.
Arguments Vis {R X} e k.

Fixpoint prog_bind {A B : Type} (p : prog A) (f : A -> prog B) : prog B :=
  match p with
  | Ret a => f a
  | Vis e k => Vis e (fun x => prog_bind (k x) f)
  end.

Definition trigger {X : Type} (e : boardE X) : prog X := Vis e Ret.

Notation "'call!' x ':=' p 'in' k" := (prog_bind p (fun x => k))
  (at level 10, x name, p at level 100, k at level 200).

(** A call with its answer, as a run records it. *)
Inductive call : Type :=
| Called {X : Type} (e : boardE X) (answer : X).

(** A handler answers an event in a world [W] and moves the world on. *)
Definition handler (W : Type) : Type := forall X, boardE X -> W -> X * W.

Fixpoint run {W R : Type} (h : handler W) (p : prog R) (w : W)
  : R * W * list call :=
  match p with
  | Ret r => (r, w, [])
  | Vis e k =>
      let '(x, w') := h _ e w in
      let '(r, w'', calls) := run h (k x) w' in
      (r, w'', Called e x :: calls)
  end.

Record P0Bead : Type := {
  p0_bead_id : string;
  p0_title : string;
  p0_repo : string;
  p0_issue_number : Z
}.

Record BoardIssue : Type := {
  bi_item_id : string;
  bi_title : string;
  bi_repo : string;
  bi_issue_number : Z;
  bi_status : string
}.

(** The body of the loop of [get_p0_beads_with_github_refs] for one bead.
    The second group of the pattern is a run of digits, so [int] of it
    does not raise. *)
Definition p0_bead_of (bead : Bead) : result (option P0Bead) :=
  if bool_decide (priority bead ≠ Some 0) then Ok None
  else
    let desc := get_description bead in
    match re_search GITHUB_REF_PARTS_PATTERN desc with
    | Some [repo; digits] =>
        n ← py_int digits;
        Ok (Some {| p0_bead_id := default EmptyString (bead_id bead);
                    p0_title := default EmptyString (bead_title bead);
                    p0_repo := repo;
                    p0_issue_number := n |})
    | _ => Ok None
    end.

Fixpoint collect_p0_beads (beads : list Bead) : result (list P0Bead) :=
  match beads with
  | [] => Ok []
  | bead :: beads' =>
      b ← p0_bead_of bead;
      rest ← collect_p0_beads beads';
      Ok (match b with Some b => b :: rest | None => rest end)
  end.

Definition get_p0_beads_with_github_refs : prog (result (list P0Bead)) :=
  call! beads := trigger LoadBeads in
  Ret (collect_p0_beads beads).

(** [parse_board_key] of [flowc/board/api.py]. *)
Definition parse_board_key (board_key : string) : result (string * string) :=
  match split_on "/" board_key with
  | [owner; project_num] => Ok (owner, project_num)
  | _ => Raise ValueError
  end.

Definition list_board_items (board_key : string)
  : prog (result (list BoardItem)) :=
  match parse_board_key board_key with
  | Ok (owner, project_num) =>
      call! items := trigger (GhProjectItemList project_num owner) in
      Ret (Ok items)
  | Raise e => Ret (Raise e)
  end.

Definition board_issue_of (item : BoardItem) : option BoardIssue :=
  if bool_decide (content_get content_type item ≠ Some "Issue") then None
  else
    let repo := default EmptyString (content_get repository item) in
    let number := content_get content_number item in
    if (negb (nonempty repo) || negb (number_true number))%bool then None
    else Some {| bi_item_id := id item;
                 bi_title := default EmptyString (title item);
                 bi_repo := repo;
                 bi_issue_number := default 0 number;
                 bi_status := default EmptyString (status item) |}.

Definition get_board_issues (board_key : string)
  : prog (result (list BoardIssue)) :=
  call! items := list_board_items board_key in
  Ret (match items with
       | Ok items => Ok (omap board_issue_of items)
       | Raise e => Raise e
       end).

Record SyncResult : Type := {
  missing_from_board : list P0Bead;
  not_in_beads : list BoardIssue;
  fixes_applied : list string
}.

Definition p0_ref (b : P0Bead) : string * Z := (p0_repo b, p0_issue_number b).
Definition board_ref (i : BoardIssue) : string * Z :=
  (bi_repo i, bi_issue_number i).

(** Lines 110-120: one attempt per bead, in order; the answer of each
    call decides the note that is appended.  The loop has no [try]: an
    exception of [add_issue_to_board] leaves it, and the function. *)
Fixpoint apply_fixes (board_key : string) (missing : list P0Bead)
  (fixes_applied : list string) : prog (result (list string)) :=
  match missing with
  | [] => Ret (Ok fixes_applied)
  | bead :: missing' =>
      call! answer :=
        trigger (AddIssueToBoard board_key (p0_issue_number bead)
                   (p0_repo bead) (Some "next")) in
      match answer with
      | Raise e => Ret (Raise e)
      | Ok (success, msg) =>
          let num := str_of_Z (p0_issue_number bead) in
          apply_fixes board_key missing'
            (fixes_applied ++
               [if success : bool
                then String.append "Added #" (String.append num " to board")
                else String.append "Failed to add #"
                       (String.append num (String.append ": " msg))])
      end
  end.

Definition sync_board_with_beads (board_key : string) (fix_ : bool)
  : prog (result SyncResult) :=
  call! p0_beads := get_p0_beads_with_github_refs in
  match p0_beads with
  | Raise e => Ret (Raise e)
  | Ok p0_beads =>
      call! board_issues := get_board_issues board_key in
      match board_issues with
      | Raise e => Ret (Raise e)
      | Ok board_issues =>
          let p0_refs : gset (string * Z) := list_to_set (map p0_ref p0_beads) in
          let board_refs : gset (string * Z) :=
            list_to_set (map board_ref board_issues) in
          let missing_from_board :=
            List.filter (fun bead => bool_decide (p0_ref bead ∉ board_refs))
              p0_beads in
          let not_in_beads :=
            List.filter (fun issue => bool_decide (board_ref issue ∉ p0_refs))
              board_issues in
          call! fixes_applied :=
            (if fix_ then apply_fixes board_key missing_from_board []
             else Ret (Ok [])) in
          Ret (match fixes_applied with
               | Ok fixes_applied =>
                   Ok {| missing_from_board := missing_from_board;
                         not_in_beads := not_in_beads;
                         fixes_applied := fixes_applied |}
               | Raise e => Raise e
               end)
      end
  end.

(** ** fc_cli/shared/github.py and fc_cli/digest/cli.py *)

(** What [gh_api] hands back: a JSON array or some other JSON value. *)
Inductive api_response (A : Type) : Type :=
| ApiList (l : list A)
| ApiOther.

Arguments ApiList {A} l.
Arguments ApiOther {A}.

(** A review or an issue comment, as the two fetchers below read it:
    [user] with [.get], absent or [null] being [None]. *)
Record Authored : Type := { authored_user : option User }.

(** The loop shared by [fetch_pr_reviewers] and [fetch_item_commenters]:
    the logins that are present and non-empty, as a set. *)
Definition logins_of (records : list Authored) : gset string :=
  fold_left
    (fun acc r =>
       match authored_user r with
       | Some u =>
           match login u with
           | Some l => if nonempty l then acc ∪ {[l]} else acc
           | None => acc
           end
       | None => acc
       end)
    records ∅.

(** [list(s)] of a set.  Python leaves the order of a set open; [elements]
    is one enumeration without repetition, and nothing below depends on
    which one. *)
Definition list_of_set (s : gset string) : list string := elements s.

Definition fetch_pr_reviewers
  (gh_api_reviews : string -> Z -> api_response Authored)
  (repo : string) (number : Z) : list string :=
  match gh_api_reviews repo number with
  | ApiList reviews => list_of_set (logins_of reviews)
  | ApiOther => []
  end.









(** The condition under which the loop stores a snapshot (line 216). *)
Definition stored (v : Snapshot) : bool :=
  (list_nonempty (issues v) || list_nonempty (prs v))%bool.

(** Sum of a count over the snapshots of a run. *)
Fixpoint count_over (f : Snapshot -> nat) (views : list Snapshot) : nat :=
  match views with
  | [] => 0%nat
  | v :: views' => (f v + count_over f views')%nat
  end.

(** The fields [check_boards] reads from an Issue-type item, and the
    reference it forms from them (lines 100-108). *)
Definition item_status (item : BoardItem) : string :=
  default EmptyString (status item).

Definition item_repo (item : BoardItem) : string :=
  default EmptyString (content_get repository item).

Definition item_number (item : BoardItem) : option Z :=
  content_get content_number item.

Definition item_type (item : BoardItem) : string :=
  default EmptyString (content_get content_type item).

Definition board_item_ref (item : BoardItem) : string :=
  String.append (item_repo item)
    (String.append "#" (str_of_Z (default 0 (item_number item)))).

(** The condition under which the loop of lines 99-110 appends an item. *)
Definition orphan_condition (github_refs : gset string) (item : BoardItem)
  : Prop :=
  lower (item_status item) <> "done"
  /\ nonempty (item_repo item) = true
  /\ number_true (item_number item) = true
  /\ board_item_ref item ∉ github_refs.

(** The note appended for one attempt (lines 117-120): the success note,
    or the failure note with the reason the board API gave. *)
Definition fix_note (bead : P0Bead) (answer : bool * string) : string :=
  let num := str_of_Z (p0_issue_number bead) in
  if fst answer
  then String.append "Added #" (String.append num " to board")
  else String.append "Failed to add #"
         (String.append num (String.append ": " (snd answer))).

(** The call one attempt makes, when it returns and when it raises. *)
Definition fix_call (board_key : string) (bead : P0Bead)
  (answer : bool * string) : call :=
  Called (AddIssueToBoard board_key (p0_issue_number bead) (p0_repo bead)
            (Some "next")) (Ok answer).

Definition raised_call (board_key : string) (bead : P0Bead) (e : pyexn)
  : call :=
  Called (AddIssueToBoard board_key (p0_issue_number bead) (p0_repo bead)
            (Some "next")) (Raise e).

(** The P0 beads that are not on the board (lines 92-97). *)
Definition missing_of (p0_beads : list P0Bead) (items : list BoardItem)
  : list P0Bead :=
  List.filter
    (fun bead =>
       bool_decide
         (p0_ref bead
          ∉ (list_to_set (map board_ref (omap board_issue_of items))
             : gset (string * Z))))
    p0_beads.

Definition is_removal (c : call) : bool :=
  match c with
  | Called (RemoveIssueFromBoard _ _ _) _ => true
  | Called _ _ => false
  end.

(** ** Fixtures of tests_fc/test_activity.py *)

Definition make_item (number : Z) (author : string) : Item :=
  {| number := number; user_login := author; pull_request := None |}.

Definition make_comment (item_number : Z) (author updated_at : string)
  : Comment :=
  {| issue_url :=
       Some (String.append "https://api.github.com/repos/org/repo/issues/"
               (str_of_Z item_number));
     pull_request_url := None;
     comment_user := Some {| login := Some author |};
     updated_at := Some updated_at;
     created_at := None |}.

(** A comment that names no parent. *)
Definition orphan_comment (author : string) : Comment :=
  {| issue_url := None;
     pull_request_url := None;
     comment_user := Some {| login := Some author |};
     updated_at := Some "2024-01-15T12:00:00Z";
     created_at := None |}.

(** Feeds for a run without an acting user: one repository, one issue
    and a comment on another item. *)
Definition firehose_feeds : GitHubFeeds :=
  {| fetch_issues := fun _ _ => [make_item 1 "colleague"];
     fetch_comments :=
       fun _ _ => [make_comment 2 "colleague" "2024-01-15T10:00:00Z"];
     fetch_pr_comments := fun _ _ => [] |}.

(** Feeds with comments and no item: the issue feed came back empty. *)
Definition comments_only_feeds : GitHubFeeds :=
  {| fetch_issues := fun _ _ => [];
     fetch_comments :=
       fun _ _ => [make_comment 2 "colleague" "2024-01-15T10:00:00Z"];
     fetch_pr_comments := fun _ _ => [] |}.

(** Feeds of the filter test: three items, one comment. *)
Definition test_feeds : GitHubFeeds :=
  {| fetch_issues :=
       fun _ _ => [make_item 1 "other_user"; make_item 2 "matsen";
                   make_item 3 "matsen"];
     fetch_comments :=
       fun _ _ => [make_comment 3 "other_user" "2024-01-15T10:00:00Z";
                   make_comment 2 "matsen" "2024-01-15T11:00:00Z"];
     fetch_pr_comments := fun _ _ => [] |}.

(** What [test_feeds] shows to "matsen". *)
Definition test_snapshot : Snapshot :=
  {| issues := [make_item 1 "other_user"; make_item 3 "matsen"];
     prs := [];
     comments := [make_comment 3 "other_user" "2024-01-15T10:00:00Z"] |}.

(** ** Fixtures for the board commands *)

Definition board_issue (item_id repo : string) (n : Z) (status : string)
  : BoardItem :=
  {| id := item_id;
     content := Some {| content_type := Some "Issue";
                        repository := Some repo;
                        content_number := Some n;
                        url := None |};
     status := Some status;
     title := Some "An issue" |}.

Definition board_draft (item_id : string) : BoardItem :=
  {| id := item_id;
     content := Some {| content_type := Some "DraftIssue";
                        repository := None;
                        content_number := None;
                        url := None |};
     status := Some "Next";
     title := Some "A draft" |}.

Definition bead (ident desc : string) (prio : Z) : Bead :=
  {| bead_id := Some ident;
     bead_title := Some "A bead";
     description := Some desc;
     priority := Some prio |}.

Definition sample_board_items : list BoardItem :=
  [board_issue "PVTI_1" "org/repo" 12 "Done";
   board_issue "PVTI_2" "org/repo" 13 "Next";
   board_issue "PVTI_3" "org/repo" 14 "Active";
   board_draft "ITEM_1"].

Definition sample_beads : list Bead :=
  [bead "3.1" "Tracked. GitHub: org/repo#13" 0;
   bead "3.2" "Must do. GitHub: org/repo#21" 0;
   bead "3.3" "Also. GitHub:org/repo#22 and more" 0;
   bead "3.4" "Later. GitHub: org/repo#30" 2;
   bead "3.5" "Draft. Board: org/5#ITEM_9" 1].

Definition sample_fetch (owner project_num : string) : list BoardItem :=
  if (bool_decide (owner = "org") && bool_decide (project_num = "5"))%bool
  then sample_board_items else [].

(** A board API that refuses issue 22 and accepts the others. *)
Definition sample_handler : handler unit :=
  fun X e =>
    match e in boardE X return unit -> X * unit with
    | LoadBeads => fun w => (sample_beads, w)
    | GhProjectItemList project_num owner =>
        fun w => (sample_fetch owner project_num, w)
    | AddIssueToBoard _ n _ _ =>
        fun w => (if Z.eqb n 22
                  then Ok (false, "Added to board but failed to set status")
                  else Ok (true, "Added"), w)
    | RemoveIssueFromBoard _ _ _ => fun w => (Ok (false, "not found"), w)
    end.

(** A project that cannot be found: the listing fails and returns no
    item, and every mutation raises. *)
Definition unknown_project_handler : handler unit :=
  fun X e =>
    match e in boardE X return unit -> X * unit with
    | LoadBeads => fun w => (sample_beads, w)
    | GhProjectItemList _ _ => fun w => ([], w)
    | AddIssueToBoard _ _ _ _ => fun w => (Raise ValueError, w)
    | RemoveIssueFromBoard _ _ _ => fun w => (Raise ValueError, w)
    end.

(** A heap holding an item, two comments on it out of order, and the
    caller's two lists. *)
Definition sample_heap : list object :=
  [ItemObj (make_item 50 "contributor");
   CommentObj (make_comment 50 "contributor" "2024-01-15T14:00:00Z");
   CommentObj (make_comment 50 "matsen" "2024-01-15T10:00:00Z");
   ListObj [1%nat; 2%nat];
   ListObj [0%nat]].

(** ** Fixtures for the digest *)





(** ** What the patterns match

    [matches r m g]: the text [m] is a match of [r] whose groups are [g]. *)

Fixpoint all_chars (p : ascii -> bool) (s : string) : bool :=
  match s with
  | EmptyString => true
  | String c s' => (p c && all_chars p s')%bool
  end.

Fixpoint matches (r : regex) (m : string) (g : list string) : Prop :=
  match r with
  | Lit l => m = l /\ g = []
  | Many p => all_chars p m = true /\ g = []
  | Many1 p => m <> EmptyString /\ all_chars p m = true /\ g = []
  | Cat r1 r2 =>
      exists m1 m2 g1 g2,
        m = String.append m1 m2 /\ g = g1 ++ g2
        /\ matches r1 m1 g1 /\ matches r2 m2 g2
  | Group r' => exists g', g = m :: g' /\ matches r' m g'
  end.

(** The text does not go on with a character of the class. *)
Definition stops (p : ascii -> bool) (rest : string) : Prop :=
  match rest with
  | EmptyString => True
  | String c _ => p c = false
  end.

(** A reference as the markers carry it: a repository without [#] or
    white space, and a run of digits. *)
Definition repo_token (repo : string) : Prop :=
  repo <> EmptyString /\ all_chars not_hash_space repo = true.

Definition digit_run (digits : string) : Prop :=
  digits <> EmptyString /\ all_chars is_digit digits = true.

(** The value [parse_digits] accumulates over the digits of [d]. *)
Fixpoint digits_value (d : Decimal.uint) (acc : Z) : Z :=
  match d with
  | Decimal.Nil => acc
  | Decimal.D0 d => digits_value d (10 * acc)
  | Decimal.D1 d => digits_value d (10 * acc + 1)
  | Decimal.D2 d => digits_value d (10 * acc + 2)
  | Decimal.D3 d => digits_value d (10 * acc + 3)
  | Decimal.D4 d => digits_value d (10 * acc + 4)
  | Decimal.D5 d => digits_value d (10 * acc + 5)
  | Decimal.D6 d => digits_value d (10 * acc + 6)
  | Decimal.D7 d => digits_value d (10 * acc + 7)
  | Decimal.D8 d => digits_value d (10 * acc + 8)
  | Decimal.D9 d => digits_value d (10 * acc + 9)
  end.

(** The text holds no occurrence of the character. *)
Definition no_char (x : ascii) (s : string) : Prop :=
  all_chars (fun c => negb (Ascii.eqb c x)) s = true.

(** The group of [GITHUB_REF_PATTERN], from the two groups of
    [GITHUB_REF_PARTS_PATTERN]. *)
Definition join_ref_parts (g : list string) : list string :=
  match g with
  | [repo; digits] => [String.append repo (String.append "#" digits)]
  | _ => g
  end.

(** ** The lists of the board check *)

(** The dictionary and the two lists of lines 84-96 of [check_boards], as
    functions of the index of the beads and of the items of the board. *)
Definition draft_item_ids_of (board_items : list BoardItem)
  : odict BoardItem :=
  fold_left (fun d item => od_set (id item) item d)
    (List.filter (fun item => bool_decide (item_type item = "DraftIssue"))
       board_items) [].

Definition new_drafts_of (bead_by_board : odict (odict Bead))
  (board_key : string) (board_items : list BoardItem) : list BoardItem :=
  map snd
    (List.filter
       (fun kv =>
          negb (od_mem (fst kv) (default [] (od_get board_key bead_by_board))))
       (draft_item_ids_of board_items)).

Definition removed_drafts_of (bead_by_board : odict (odict Bead))
  (board_key : string) (board_items : list BoardItem) : list Bead :=
  map snd
    (List.filter
       (fun kv => negb (od_mem (fst kv) (draft_item_ids_of board_items)))
       (default [] (od_get board_key bead_by_board))).

(** ** Further functions of the cited modules *)

(** [[a-zA-Z0-9_-]] *)
Definition is_name_char (c : ascii) : bool :=
  (between 97 122 (code c) || between 65 90 (code c)
   || between 48 57 (code c) || Ascii.eqb c "_" || Ascii.eqb c "-")%bool.

(** [re.sub] of the complement of a character class by one character:
    every character outside the class is replaced. *)
Fixpoint replace_outside (keep : ascii -> bool) (by_char : ascii)
  (s : string) : string :=
  match s with
  | EmptyString => EmptyString
  | String c s' =>
      String (if keep c then c else by_char) (replace_outside keep by_char s')
  end.

(** [sanitize_repo_name] of [fc_cli/checkin/activity.py]. *)
Definition sanitize_repo_name (repo : string) : string :=
  let repo_name := last_str (split_on "/" repo) in
  replace_outside is_name_char "-" repo_name.

(** [extract_repo_name] of [flowc/shared/config.py]. *)
Definition extract_repo_name (org_repo : string) : string :=
  last_str (split_on "/" org_repo).

(** A comment of an issue as [fetch_item_comments] reads it, every member
    with [.get]; [user] is an object when it is present. *)
Record ApiComment : Type := {
  ac_user : option User;
  ac_body : option string;
  ac_created_at : option string
}.

Record CommentSummary : Type := {
  cs_author : string;
  cs_body : string;
  cs_created_at : string
}.

(** [l[start:]]: a negative start counts from the end, and a start
    outside the list is brought back to its nearer end. *)
Definition slice_from {A : Type} (start : Z) (l : list A) : list A :=
  let len := Z.of_nat (length l) in
  let start :=
    if start <? 0 then Z.max (start + len) 0 else Z.min start len in
  drop (Z.to_nat start) l.

Definition comment_summary (c : ApiComment) : CommentSummary :=
  {| cs_author := match ac_user c with
                  | Some u => default "unknown" (login u)
                  | None => "unknown"
                  end;
     cs_body := default EmptyString (ac_body c);
     cs_created_at := default EmptyString (ac_created_at c) |}.

(** [fetch_item_comments] of [fc_cli/shared/github.py];
    [gh_api_item_comments repo number limit] is the call of [gh_api] on
    the comments endpoint with [per_page=limit]. *)
Definition fetch_item_comments
  (gh_api_item_comments : string -> Z -> Z -> api_response ApiComment)
  (repo : string) (number limit : Z) : list CommentSummary :=
  match gh_api_item_comments repo number limit with
  | ApiList raw_comments =>
      map comment_summary (slice_from (- limit) raw_comments)
  | ApiOther => []
  end.

(** [parse_duration] of [fc_cli/digest/cli.py].  A [timedelta] is its
    length in seconds; its constructor raises [OverflowError] when the
    number of days leaves the range of the type. *)
Inductive duration_result : Type :=
| Duration (seconds : Z)
| DurationValueError
| DurationOverflowError.

Definition timedelta (seconds : Z) : duration_result :=
  let days := seconds / 86400 in
  if ((-999999999 <=? days) && (days <=? 999999999))%bool
  then Duration seconds
  else DurationOverflowError.

(** [(s[:-1], s[-1])] of a string that is not empty. *)
Fixpoint split_last (s : string) : option (string * ascii) :=
  match s with
  | EmptyString => None
  | String c s' =>
      match split_last s' with
      | None => Some (EmptyString, c)
      | Some (body, l) => Some (String c body, l)
      end
  end.

Definition parse_duration (s : string) : duration_result :=
  if (String.length s <? 2)%nat then DurationValueError
  else
    match split_last s with
    | None => DurationValueError
    | Some (body, unit) =>
        match py_int body with
        | Raise _ => DurationValueError
        | Ok val =>
            if Ascii.eqb unit "d" then timedelta (val * 86400)
            else if Ascii.eqb unit "h" then timedelta (val * 3600)
            else if Ascii.eqb unit "w" then timedelta (val * 604800)
            else DurationValueError
        end
    end.

(** The units of a duration and their lengths in seconds. *)
Definition duration_units : list (ascii * Z) :=
  [("d"%char, 86400); ("h"%char, 3600); ("w"%char, 604800)].

(** ** Fixtures for the further properties *)

(** What [check_boards] reports for the sample board. *)
Definition sample_changes : BoardChanges :=
  {| parent_bead := "3";
     new_drafts := [board_draft "ITEM_1"];
     removed_drafts := [bead "3.5" "Draft. Board: org/5#ITEM_9" 1];
     orphan_issues := [board_issue "PVTI_3" "org/repo" 14 "Active"] |}.

(** Feeds that deliver a comment whose parent reference does not end in
    a number. *)
Definition stray_comment : Comment :=
  {| issue_url := Some "https://github.com/org/repo/issues/7#issuecomment-1";
     pull_request_url := None;
     comment_user := Some {| login := Some "colleague" |};
     updated_at := Some "2024-01-15T10:00:00Z";
     created_at := None |}.

Definition stray_feeds : GitHubFeeds :=
  {| fetch_issues := fun _ _ => [];
     fetch_comments := fun _ _ => [stray_comment];
     fetch_pr_comments := fun _ _ => [] |}.

(** Feeds of comments for [fetch_item_comments]: three comments, the
    oldest first. *)
Definition api_comment (author body : string) : ApiComment :=
  {| ac_user := Some {| login := Some author |};
     ac_body := Some body;
     ac_created_at := Some "2024-01-15T10:00:00Z" |}.

Definition sample_item_comments (repo : string) (number limit : Z)
  : api_response ApiComment :=
  ApiList [api_comment "ann" "first"; api_comment "bob" "second";
           api_comment "cy" "third"].

(** * Properties *)

(** ** The order on strings *)

Lemma ascii_compare_lt_trans (a b c : ascii) :
  Ascii.compare a b = Lt -> Ascii.compare b c = Lt -> Ascii.compare a c = Lt.
Proof.
  unfold Ascii.compare. rewrite !N.compare_lt_iff. apply N.lt_trans.
Qed.

Lemma ascii_compare_refl (a : ascii) : Ascii.compare a a = Eq.
Proof. unfold Ascii.compare. apply N.compare_refl. Qed.

Lemma str_compare_refl (s : string) : String.compare s s = Eq.
Proof.
  induction s as [|a s IH]; simpl; [reflexivity|].
  now rewrite ascii_compare_refl.
Qed.

Lemma str_compare_lt_trans (s1 s2 s3 : string) :
  String.compare s1 s2 = Lt -> String.compare s2 s3 = Lt ->
  String.compare s1 s3 = Lt.
Proof.
  revert s2 s3.
  induction s1 as [|a s1 IH]; intros [|b s2] [|c s3]; simpl; try congruence.
  destruct (Ascii.compare a b) eqn:Hab; try discriminate.
  - apply Ascii.compare_eq_iff in Hab as ->.
    destruct (Ascii.compare b c); try discriminate; eauto.
  - intros _.
    destruct (Ascii.compare b c) eqn:Hbc; try discriminate.
    + apply Ascii.compare_eq_iff in Hbc as <-. now rewrite Hab.
    + intros _. now rewrite (ascii_compare_lt_trans a b c).
Qed.

Lemma str_ltb_irrefl (s : string) : String.ltb s s = false.
Proof. unfold String.ltb. now rewrite str_compare_refl. Qed.

Lemma str_ltb_trans (s1 s2 s3 : string) :
  String.ltb s1 s2 = true -> String.ltb s2 s3 = true ->
  String.ltb s1 s3 = true.
Proof.
  unfold String.ltb. intros H1 H2.
  rewrite (str_compare_lt_trans s1 s2 s3); [reflexivity| |].
  - destruct (String.compare s1 s2); congruence.
  - destruct (String.compare s2 s3); congruence.
Qed.

Lemma str_leb_ltb (s1 s2 : string) :
  String.leb s1 s2 = negb (String.ltb s2 s1).
Proof.
  unfold String.leb, String.ltb. rewrite (String.compare_antisym s2 s1).
  now destruct (String.compare s1 s2).
Qed.

Lemma str_ltb_leb (s1 s2 : string) :
  String.ltb s1 s2 = true -> String.leb s1 s2 = true.
Proof.
  unfold String.leb, String.ltb. now destruct (String.compare s1 s2).
Qed.

Lemma str_leb_refl (s : string) : String.leb s s = true.
Proof. now rewrite str_leb_ltb, str_ltb_irrefl. Qed.

Lemma str_leb_cases (s1 s2 : string) :
  String.leb s1 s2 = true -> String.ltb s1 s2 = true \/ s1 = s2.
Proof.
  unfold String.leb, String.ltb.
  destruct (String.compare s1 s2) eqn:H; intros; try discriminate.
  - right. now apply String.compare_eq_iff.
  - now left.
Qed.

Lemma str_leb_trans (s1 s2 s3 : string) :
  String.leb s1 s2 = true -> String.leb s2 s3 = true ->
  String.leb s1 s3 = true.
Proof.
  intros H1 H2.
  destruct (str_leb_cases _ _ H1) as [L1| ->]; [|assumption].
  destruct (str_leb_cases _ _ H2) as [L2| <-]; [|assumption].
  apply str_ltb_leb. eapply str_ltb_trans; eassumption.
Qed.

Lemma str_leb_ltb_trans (s1 s2 s3 : string) :
  String.leb s1 s2 = true -> String.ltb s2 s3 = true ->
  String.ltb s1 s3 = true.
Proof.
  intros H1 H2.
  destruct (str_leb_cases _ _ H1) as [L1| ->]; [|assumption].
  eapply str_ltb_trans; eassumption.
Qed.

Create HintDb strorder.
#[global] Hint Resolve str_leb_refl str_ltb_leb : strorder.

(** ** The stable sort *)

Section StableSortFacts.
Context {A : Type} (key : A -> string).

Lemma insert_sorted_perm (x : A) (l : list A) :
  Permutation (x :: l) (insert_sorted key x l).
Proof.
  induction l as [|y l IH]; simpl; [reflexivity|].
  destruct (String.ltb (key y) (key x)); [|reflexivity].
  rewrite perm_swap. now apply perm_skip.
Qed.

Lemma py_sorted_perm (l : list A) : Permutation l (py_sorted key l).
Proof.
  induction l as [|x l IH]; simpl; [reflexivity|].
  rewrite <- insert_sorted_perm. now apply perm_skip.
Qed.

Lemma py_sorted_elem_of (x : A) (l : list A) : x ∈ py_sorted key l ↔ x ∈ l.
Proof. now rewrite <- (py_sorted_perm l). Qed.

Lemma insert_sorted_strongly (x : A) (l : list A) :
  StronglySorted (key_le key) l -> StronglySorted (key_le key) (insert_sorted key x l).
Proof.
  induction 1 as [|y l Hs IH Hall]; simpl.
  - repeat constructor.
  - destruct (String.ltb (key y) (key x)) eqn:Hlt.
    + constructor; [assumption|].
      rewrite <- insert_sorted_perm. constructor; [|assumption].
      now apply str_ltb_leb.
    + assert (Hxy : (key_le key) x y).
      { unfold key_le. now rewrite str_leb_ltb, Hlt. }
      constructor; [now constructor|].
      constructor; [assumption|].
      eapply Forall_impl; [exact Hall|].
      intros z Hz. unfold key_le in *. eapply str_leb_trans; eassumption.
Qed.

Lemma py_sorted_strongly (l : list A) : StronglySorted (key_le key) (py_sorted key l).
Proof.
  induction l as [|x l IH]; simpl; [constructor|].
  now apply insert_sorted_strongly.
Qed.

(** Stability: elements with the same key keep their relative order. *)
Lemma insert_sorted_filter (x : A) (l : list A) (k : string) :
  StronglySorted (key_le key) l ->
  List.filter (fun y => bool_decide (key y = k)) (insert_sorted key x l)
  = List.filter (fun y => bool_decide (key y = k)) (x :: l).
Proof.
  induction 1 as [|y l Hs IH Hall]; [reflexivity|].
  cbn [insert_sorted].
  destruct (String.ltb (key y) (key x)) eqn:Hlt; [|reflexivity].
  cbn [List.filter] in *. rewrite IH.
  destruct (bool_decide (key x = k)) eqn:Hx, (bool_decide (key y = k)) eqn:Hy;
    try reflexivity.
  apply bool_decide_eq_true in Hx, Hy. rewrite Hx, Hy in Hlt.
  now rewrite str_ltb_irrefl in Hlt.
Qed.

Lemma py_sorted_stable (l : list A) (k : string) :
  List.filter (fun y => bool_decide (key y = k)) (py_sorted key l)
  = List.filter (fun y => bool_decide (key y = k)) l.
Proof.
  induction l as [|x l IH]; [reflexivity|].
  cbn [py_sorted]. rewrite insert_sorted_filter by apply py_sorted_strongly.
  cbn [List.filter]. now rewrite IH.
Qed.

Lemma insert_sorted_last_keep (x c : A) (l : list A) :
  last l = Some c -> (key_le key) x c -> last (insert_sorted key x l) = Some c.
Proof.
  revert c. induction l as [|y l IH]; intros c Hlast Hle; [discriminate|].
  cbn [insert_sorted].
  destruct (String.ltb (key y) (key x)) eqn:Hlt.
  - destruct l as [|z l].
    + simplify_eq/=. unfold key_le in Hle.
      rewrite str_leb_ltb, Hlt in Hle. done.
    + rewrite last_cons in Hlast |- *.
      rewrite (IH c); [reflexivity| |assumption].
      destruct (last (z :: l)) eqn:E; [assumption|].
      now apply last_None in E.
  - now rewrite last_cons, Hlast.
Qed.

Lemma insert_sorted_last_new (x : A) (l : list A) :
  Forall (fun y => (key_lt key) y x) l -> last (insert_sorted key x l) = Some x.
Proof.
  induction 1 as [|y l Hy Hall IH]; [reflexivity|].
  cbn [insert_sorted]. unfold key_lt in Hy. rewrite Hy.
  rewrite last_cons, IH. reflexivity.
Qed.

Lemma py_sorted_last (l : list A) (c : A) :
  sorts_last key l c -> last (py_sorted key l) = Some c.
Proof.
  intros (pre & post & -> & Hpre & Hpost).
  induction Hpre as [|x pre Hx Hpre IH]; cbn [app py_sorted].
  - apply insert_sorted_last_new.
    rewrite Forall_forall in Hpost |- *.
    intros y Hy. apply Hpost. now apply py_sorted_elem_of.
  - now apply insert_sorted_last_keep.
Qed.

Lemma sorts_last_exists (l : list A) : l <> [] -> exists c, sorts_last key l c.
Proof.
  induction l as [|x l IH]; [congruence|intros _].
  destruct l as [|y l].
  - exists x, [], []. repeat split; constructor.
  - destruct IH as (c & pre & post & E & Hpre & Hpost); [congruence|].
    destruct (String.ltb (key c) (key x)) eqn:Hlt.
    + exists x, [], (y :: l). rewrite E. split; [reflexivity|].
      split; [constructor|].
      apply Forall_app. split; [|constructor; [exact Hlt|]].
      * eapply Forall_impl; [exact Hpre|]. intros z Hz.
        unfold key_lt, key_le in *. eapply str_leb_ltb_trans; eassumption.
      * eapply Forall_impl; [exact Hpost|]. intros z Hz.
        unfold key_lt in *. eapply str_ltb_trans; eassumption.
    + exists c, (x :: pre), post. rewrite E. split; [reflexivity|].
      split; [|assumption]. constructor; [|assumption].
      unfold key_le. now rewrite str_leb_ltb, Hlt.
Qed.

End StableSortFacts.

(** ** The ball-in-my-court predicate *)

Lemma filterM_app {A : Type} (p : A -> result bool) (l1 l2 : list A) :
  filterM p (l1 ++ l2)
  = (r1 ← filterM p l1; r2 ← filterM p l2; Ok (r1 ++ r2)).
Proof.
  induction l1 as [|x l1 IH]; cbn [app filterM].
  - cbn. now destruct (filterM p l2).
  - destruct (p x) as [b|e]; cbn; [|reflexivity].
    rewrite IH. destruct (filterM p l1) as [r1|e]; cbn; [|reflexivity].
    destruct (filterM p l2) as [r2|e]; cbn; [|reflexivity].
    now destruct b.
Qed.

Lemma filterM_pure {A : Type} (p : A -> result bool) (q : A -> bool)
  (l : list A) :
  Forall (fun x => p x = Ok (q x)) l -> filterM p l = Ok (List.filter q l).
Proof.
  induction 1 as [|x l Hx Hl IH]; [reflexivity|].
  cbn [filterM List.filter]. rewrite Hx, IH. cbn. now destruct (q x).
Qed.

Lemma same_number_decide (r : option Z) (n : Z) :
  bool_decide (r = Some n)
  = match r with Some m => Z.eqb m n | None => false end.
Proof.
  destruct r as [m|]; [|reflexivity].
  destruct (Z.eqb_spec m n) as [->|Hne].
  - now apply bool_decide_eq_true.
  - apply bool_decide_eq_false. congruence.
Qed.

Lemma item_comments_of_resolved (n : Z) (comments : list Comment) :
  Forall resolves comments ->
  item_comments_of n comments = Ok (associated n comments).
Proof.
  intros Hall. apply filterM_pure.
  eapply Forall_impl; [exact Hall|].
  intros c [r Hr]. unfold resolves_to. rewrite Hr. cbn.
  now rewrite same_number_decide.
Qed.

Lemma no_parent_unresolved (c : Comment) :
  get_comment_item_number c = Ok None
  <-> issue_url c = None /\ pull_request_url c = None.
Proof.
  unfold get_comment_item_number.
  destruct (issue_url c) as [u|].
  - destruct (py_int _); cbn; split; intros H; try discriminate;
      destruct H; discriminate.
  - destruct (pull_request_url c) as [u|].
    + destruct (py_int _); cbn; split; intros H; try discriminate;
        destruct H; discriminate.
    + tauto.
Qed.

Lemma nonempty_true (s : string) : nonempty s = true <-> s <> EmptyString.
Proof. destruct s; cbn; split; congruence. Qed.

(** The verdict once the last commenter is known. *)
Lemma verdict_true (last_commenter github_user : string) :
  let v := if nonempty last_commenter
           then PyBool (negb (bool_decide (last_commenter = github_user)))
           else PyStr last_commenter in
  (v = PyBool true
   <-> last_commenter <> EmptyString /\ last_commenter <> github_user)
  /\ (truthy v = true
      <-> last_commenter <> EmptyString /\ last_commenter <> github_user).
Proof.
  destruct last_commenter as [|a s]; cbn.
  - split; split; intros H; try discriminate; now destruct H.
  - destruct (decide (String a s = github_user)) as [E|E].
    + rewrite (bool_decide_eq_true_2 _ E). cbn.
      split; split; intros H; try discriminate; now destruct H.
    + rewrite (bool_decide_eq_false_2 _ E). cbn.
      split; split; intros _; try reflexivity; split; congruence.
Qed.

(** C3, as amended.  In a corpus every comment of which can be read (a
    parent reference that is present ends in a number), for an item none
    of whose comments is associated with it: [ball_in_my_court] returns a
    boolean, and it is [True] exactly when the author of the item is not
    the acting user. *)
Theorem ball_in_my_court_no_comments
  (item : Item) (comments : list Comment) (github_user : string) :
  Forall resolves comments ->
  associated (number item) comments = [] ->
  exists b : bool,
    ball_in_my_court item comments github_user = Ok (PyBool b)
    /\ (b = true <-> user_login item <> github_user).
Proof.
  intros Hres Hnone. unfold ball_in_my_court.
  rewrite item_comments_of_resolved by assumption. rewrite Hnone. cbn.
  eexists. split; [reflexivity|].
  rewrite negb_true_iff, bool_decide_eq_false. tauto.
Qed.

(** ** The order in which the comments are supplied *)

Lemma filter_perm {A : Type} (f : A -> bool) (l l' : list A) :
  Permutation l l' -> Permutation (List.filter f l) (List.filter f l').
Proof.
  induction 1 as [|x l l' _ IH|x y l|l l' l'' _ IH1 _ IH2]; cbn.
  - reflexivity.
  - destruct (f x); [now apply perm_skip|exact IH].
  - destruct (f x), (f y); try reflexivity. apply perm_swap.
  - now rewrite IH1.
Qed.

(** When no two elements share a key, the element sorted last is the same
    for every arrangement of the list. *)
Lemma sorts_last_perm {A : Type} (key : A -> string) (l l' : list A) (c : A) :
  NoDup (key <$> l) -> Permutation l l' ->
  sorts_last key l c -> sorts_last key l' c.
Proof.
  intros Hnd Hperm (pre & post & -> & Hpre & Hpost).
  assert (Hle : forall x, x ∈ pre ++ c :: post -> key_le key x c).
  { intros x Hx. apply elem_of_app in Hx as [Hx|Hx].
    - rewrite Forall_forall in Hpre. now apply Hpre.
    - apply elem_of_cons in Hx as [->|Hx]; [apply str_leb_refl|].
      rewrite Forall_forall in Hpost. now apply str_ltb_leb, Hpost. }
  assert (Hc : c ∈ l') by (rewrite <- Hperm; set_solver).
  apply list_elem_of_split in Hc as (pre' & post' & ->).
  rewrite Hperm in Hnd. rewrite fmap_app, fmap_cons in Hnd.
  apply NoDup_app in Hnd as (_ & Hpre' & Hnd).
  apply NoDup_cons in Hnd as [Hpost' _].
  assert (Hlt : forall x, x ∈ pre' ++ c :: post' -> key x <> key c ->
                          key_lt key x c).
  { intros x Hx Hne. rewrite <- Hperm in Hx.
    destruct (str_leb_cases _ _ (Hle x Hx)); [assumption|contradiction]. }
  exists pre', post'. split; [reflexivity|]. split.
  - apply Forall_forall. intros x Hx.
    apply str_ltb_leb, Hlt; [set_solver|].
    intros Heq. apply (Hpre' (key x)); [now apply list_elem_of_fmap_2|].
    rewrite Heq. left.
  - apply Forall_forall. intros x Hx.
    apply Hlt; [set_solver|].
    intros Heq. apply Hpost'. rewrite <- Heq. now apply list_elem_of_fmap_2.
Qed.

(** The outcome, given the comment that sorts last. *)
Lemma ball_in_my_court_of_last (item : Item) (comments : list Comment)
  (github_user : string) (c : Comment) :
  Forall resolves comments ->
  sorts_last sort_key (associated (number item) comments) c ->
  ball_in_my_court item comments github_user
  = Ok (if nonempty (commenter c)
        then PyBool (negb (bool_decide (commenter c = github_user)))
        else PyStr (commenter c)).
Proof.
  intros Hres Hc. unfold ball_in_my_court.
  rewrite item_comments_of_resolved by assumption. cbn.
  rewrite (py_sorted_last sort_key _ c Hc).
  destruct (associated (number item) comments) as [|c0 cs] eqn:E;
    [|reflexivity].
  destruct Hc as (pre & post & Hc & _). now destruct pre.
Qed.

(** With pairwise distinct timestamps on the comments of the item, every
    arrangement of the corpus gives the same outcome. *)
Lemma ball_in_my_court_perm (item : Item) (comments comments' : list Comment)
  (github_user : string) :
  Forall resolves comments ->
  NoDup (sort_key <$> associated (number item) comments) ->
  Permutation comments comments' ->
  ball_in_my_court item comments' github_user
  = ball_in_my_court item comments github_user.
Proof.
  intros Hres Hnd Hperm.
  assert (Hres' : Forall resolves comments') by now rewrite <- Hperm.
  pose proof (filter_perm (resolves_to (number item)) _ _ Hperm) as Hassoc.
  fold (associated (number item) comments) in Hassoc.
  fold (associated (number item) comments') in Hassoc.
  destruct (associated (number item) comments) as [|c0 cs] eqn:E.
  - apply Permutation_nil in Hassoc. unfold ball_in_my_court.
    rewrite !item_comments_of_resolved by assumption. now rewrite E, Hassoc.
  - destruct (sorts_last_exists sort_key (c0 :: cs)) as [c Hc]; [congruence|].
    pose proof (sorts_last_perm sort_key _ _ c Hnd Hassoc Hc) as Hc'.
    rewrite <- E in Hc.
    rewrite (ball_in_my_court_of_last item comments github_user c Hres Hc).
    now rewrite (ball_in_my_court_of_last item comments' github_user c
                   Hres' Hc').
Qed.

(** Two comments with the same timestamp: the later in the corpus wins. *)
Example tie_follows_corpus_order :
  ball_in_my_court (make_item 1 "matsen")
    [make_comment 1 "matsen" "2024-01-15T10:00:00Z";
     make_comment 1 "other_user" "2024-01-15T10:00:00Z"] "matsen"
  = Ok (PyBool true)
  /\ ball_in_my_court (make_item 1 "matsen")
       [make_comment 1 "other_user" "2024-01-15T10:00:00Z";
        make_comment 1 "matsen" "2024-01-15T10:00:00Z"] "matsen"
     = Ok (PyBool false).
Proof. split; vm_compute; reflexivity. Qed.

(** A parent reference that is present and does not end in a number: the
    lookup raises, and so does the predicate. *)
Example malformed_reference_raises :
  let c := {| issue_url := Some "https://api.github.com/repos/org/repo/issues/";
              pull_request_url := None;
              comment_user := None;
              updated_at := None;
              created_at := None |} in
  get_comment_item_number c = Raise ValueError
  /\ ball_in_my_court (make_item 1 "matsen") [c] "matsen" = Raise ValueError.
Proof. split; vm_compute; reflexivity. Qed.

(** ** No argument is mutated *)

Lemma frames_ret {A : Type} (a : A) : frames (mem_ret a).
Proof. intros h. reflexivity. Qed.

Lemma frames_lift {A : Type} (r : result A) : frames (lift r).
Proof. intros h. unfold lift. now destruct r. Qed.

Lemma frames_read_item (l : loc) : frames (read_item l).
Proof. intros h. unfold read_item. now destruct (h !! l) as [[]|]. Qed.

Lemma frames_read_comment (l : loc) : frames (read_comment l).
Proof. intros h. unfold read_comment. now destruct (h !! l) as [[]|]. Qed.

Lemma frames_read_list (l : loc) : frames (read_list l).
Proof. intros h. unfold read_list. now destruct (h !! l) as [[]|]. Qed.

Lemma frames_alloc_list (refs : list loc) : frames (alloc_list refs).
Proof. intros h. cbn. now apply prefix_app_r. Qed.

Lemma frames_bind {A B : Type} (m : mem A) (f : A -> mem B) :
  frames m -> (forall a, frames (f a)) -> frames (mem_bind m f).
Proof.
  intros Hm Hf h. unfold mem_bind. specialize (Hm h).
  destruct (m h) as [[a|e|] h']; cbn in *; try assumption.
  etransitivity; [exact Hm|apply Hf].
Qed.

Lemma frames_filter_refs (p : loc -> mem bool) (refs : list loc) :
  (forall r, frames (p r)) -> frames (filter_refs p refs).
Proof.
  intros Hp. induction refs as [|r refs IH]; cbn [filter_refs].
  - apply frames_ret.
  - apply frames_bind; [apply Hp|]. intros b.
    apply frames_bind; [exact IH|]. intros kept. apply frames_ret.
Qed.

Lemma frames_numbers_of (refs : list loc) : frames (numbers_of refs).
Proof.
  induction refs as [|r refs IH]; cbn [numbers_of].
  - apply frames_ret.
  - apply frames_bind; [apply frames_read_item|]. intros i.
    apply frames_bind; [exact IH|]. intros s. apply frames_ret.
Qed.

Create HintDb frames.
#[global] Hint Resolve frames_ret frames_lift frames_read_item
  frames_read_comment frames_read_list frames_alloc_list frames_numbers_of
  : frames.

Ltac frames_step :=
  first [ apply frames_bind; [|intros ?]
        | apply frames_filter_refs; intros ?
        | solve [auto with frames] ].

(** The sort of [ball_in_my_court] writes to the list the comprehension
    has just allocated, and to nothing else. *)
Lemma sort_fresh_list (h : heap) (kept : list loc) :
  (sort_in_place (length h) (h ++ [ListObj kept])).2
  = h ++ [ListObj (py_sorted (key_at (h ++ [ListObj kept])) kept)].
Proof.
  unfold sort_in_place.
  rewrite lookup_app_r, Nat.sub_diag by lia. cbn.
  rewrite insert_app_r_alt, Nat.sub_diag by lia. reflexivity.
Qed.

Lemma frames_alloc_then (A : Type) (kept : list loc)
  (k : loc -> mem A) :
  (forall h, h `prefix_of` (k (length h) (h ++ [ListObj kept])).2) ->
  frames (mem_bind (alloc_list kept) k).
Proof. intros Hk h. unfold mem_bind. cbn. apply Hk. Qed.

Lemma frames_ball_in_my_court_mem (item comments : loc) (github_user : string) :
  frames (ball_in_my_court_mem item comments github_user).
Proof.
  unfold ball_in_my_court_mem.
  frames_step; [frames_step|]. frames_step; [frames_step|].
  frames_step.
  { frames_step. repeat frames_step. }
  apply frames_alloc_then. intros h.
  destruct a1 as [|r kept]; [now apply prefix_app_r|].
  unfold mem_bind at 1.
  pose proof (sort_fresh_list h (r :: kept)) as Hs.
  unfold sort_in_place in Hs |- *.
  rewrite lookup_app_r, Nat.sub_diag in Hs |- * by lia. cbn in Hs |- *.
  rewrite Hs. clear Hs.
  set (h' := h ++ [ListObj _]).
  assert (Hh : h `prefix_of` h') by now apply prefix_app_r.
  etransitivity; [exact Hh|].
  apply (frames_bind (read_list (length h))); [frames_step|].
  intros sorted. destruct (last sorted); [|frames_step].
  repeat frames_step.
Qed.

Lemma frames_filter_by_ball_in_court_mem (items comments : loc)
  (github_user : string) :
  frames (filter_by_ball_in_court_mem items comments github_user).
Proof.
  unfold filter_by_ball_in_court_mem.
  frames_step; [frames_step|]. frames_step; [|frames_step].
  frames_step. frames_step; [|frames_step].
  apply frames_ball_in_my_court_mem.
Qed.

Lemma frames_filter_comments_by_items_mem (comments items : loc) :
  frames (filter_comments_by_items_mem comments items).
Proof.
  unfold filter_comments_by_items_mem.
  repeat frames_step.
Qed.

(** C10.  Whatever heap the three functions are called on, and whatever
    they return or raise, every object of that heap, the caller's two
    lists and each record they refer to, is afterwards where it was and
    as it was.  The sort of [ball_in_my_court] happens in a list that did
    not exist before the call. *)
Theorem arguments_not_mutated (h : heap) (l : loc) (o : object) :
  h !! l = Some o ->
  (forall (item comments : loc) (github_user : string),
     (ball_in_my_court_mem item comments github_user h).2 !! l = Some o)
  /\ (forall (items comments : loc) (github_user : string),
        (filter_by_ball_in_court_mem items comments github_user h).2 !! l
        = Some o)
  /\ (forall (comments items : loc),
        (filter_comments_by_items_mem comments items h).2 !! l = Some o).
Proof.
  intros Hl. repeat split; intros.
  - eapply prefix_lookup_Some; [exact Hl|].
    apply frames_ball_in_my_court_mem.
  - eapply prefix_lookup_Some; [exact Hl|].
    apply frames_filter_by_ball_in_court_mem.
  - eapply prefix_lookup_Some; [exact Hl|].
    apply frames_filter_comments_by_items_mem.
Qed.

(** ** The heap functions compute what the functions on values compute *)

Lemma mem_bind_returned {A B : Type} (m : mem A) (f : A -> mem B)
  (h h' : heap) (a : A) :
  m h = (Returned a, h') -> mem_bind m f h = f a h'.
Proof. intros H. unfold mem_bind. now rewrite H. Qed.

Lemma mem_bind_raised {A B : Type} (m : mem A) (f : A -> mem B)
  (h h' : heap) (e : pyexn) :
  m h = (Raised e, h') -> mem_bind m f h = (Raised e, h').
Proof. intros H. unfold mem_bind. now rewrite H. Qed.

Lemma holds_comment_prefix (h h' : heap) (r : loc) (c : Comment) :
  h `prefix_of` h' -> holds_comment h r c -> holds_comment h' r c.
Proof. intros Hp H. eapply prefix_lookup_Some; eassumption. Qed.

Lemma key_at_holds (h : heap) (r : loc) (c : Comment) :
  holds_comment h r c -> key_at h r = sort_key c.
Proof. intros H. unfold key_at. now rewrite H. Qed.

Lemma filter_refs_pure (h : heap) (p : loc -> mem bool)
  (q : Comment -> result bool) (refs : list loc) (cs : list Comment) :
  (forall r c, holds_comment h r c -> p r h = (outcome_of (q c), h)) ->
  holds_comments h refs cs ->
  match filterM q cs with
  | Ok kept_cs =>
      exists kept,
        filter_refs p refs h = (Returned kept, h)
        /\ holds_comments h kept kept_cs
  | Raise e => filter_refs p refs h = (Raised e, h)
  end.
Proof.
  intros Hp. induction 1 as [|r c refs cs Hrc Hrest IH]; cbn [filterM filter_refs].
  - exists []. split; [reflexivity|constructor].
  - specialize (Hp r c Hrc).
    destruct (q c) as [b|e]; cbn in Hp |- *.
    + rewrite (mem_bind_returned _ _ _ _ _ Hp).
      destruct (filterM q cs) as [kept_cs|e]; cbn.
      * destruct IH as (kept & Hrun & Hkept).
        rewrite (mem_bind_returned _ _ _ _ _ Hrun).
        destruct b; eexists; (split; [reflexivity|]);
          [now constructor|assumption].
      * now rewrite (mem_bind_raised _ _ _ _ _ IH).
    + now rewrite (mem_bind_raised _ _ _ _ _ Hp).
Qed.

Lemma insert_sorted_related {A B : Type} (R : A -> B -> Prop)
  (key1 : A -> string) (key2 : B -> string) (x : A) (y : B)
  (l1 : list A) (l2 : list B) :
  (forall a b, R a b -> key1 a = key2 b) ->
  R x y -> Forall2 R l1 l2 ->
  Forall2 R (insert_sorted key1 x l1) (insert_sorted key2 y l2).
Proof.
  intros Hkey Hxy. induction 1 as [|a b l1 l2 Hab Hrest IH]; cbn.
  - now repeat constructor.
  - rewrite (Hkey _ _ Hab), (Hkey _ _ Hxy).
    destruct (String.ltb (key2 b) (key2 y)); now repeat constructor.
Qed.

Lemma py_sorted_related {A B : Type} (R : A -> B -> Prop)
  (key1 : A -> string) (key2 : B -> string) (l1 : list A) (l2 : list B) :
  (forall a b, R a b -> key1 a = key2 b) ->
  Forall2 R l1 l2 ->
  Forall2 R (py_sorted key1 l1) (py_sorted key2 l2).
Proof.
  intros Hkey. induction 1; cbn; [constructor|].
  now apply insert_sorted_related.
Qed.

Lemma sort_fresh_list_run (h : heap) (kept : list loc) :
  sort_in_place (length h) (h ++ [ListObj kept])
  = (Returned tt,
     h ++ [ListObj (py_sorted (key_at (h ++ [ListObj kept])) kept)]).
Proof.
  unfold sort_in_place.
  rewrite lookup_app_r, Nat.sub_diag by lia. cbn.
  rewrite insert_app_r_alt, Nat.sub_diag by lia. reflexivity.
Qed.

(** On a heap where the two arguments hold an item and a list of
    comments, [ball_in_my_court_mem] returns or raises what
    [ball_in_my_court] does on that item and those comments. *)
Lemma ball_in_my_court_mem_refines (h : heap) (item comments : loc)
  (i : Item) (refs : list loc) (cs : list Comment) (github_user : string) :
  h !! item = Some (ItemObj i) ->
  h !! comments = Some (ListObj refs) ->
  holds_comments h refs cs ->
  (ball_in_my_court_mem item comments github_user h).1
  = outcome_of (ball_in_my_court i cs github_user).
Proof.
  intros Hitem Hlist Hcs.
  unfold ball_in_my_court_mem, ball_in_my_court, item_comments_of.
  erewrite mem_bind_returned
    by (unfold read_item; rewrite Hitem; reflexivity).
  erewrite mem_bind_returned
    by (unfold read_list; rewrite Hlist; reflexivity).
  match goal with
  | |- (mem_bind (filter_refs ?p refs) _ h).1
       = outcome_of (filterM ?q cs ≫= _) =>
      pose proof (filter_refs_pure h p q refs cs) as Hf
  end.
  cbv beta in Hf.
  specialize (Hf ltac:(
    intros r c Hrc;
    erewrite mem_bind_returned
      by (unfold read_comment; rewrite Hrc; reflexivity);
    unfold mem_bind, lift, mem_ret;
    now destruct (get_comment_item_number c)) Hcs).
  destruct (filterM _ cs) as [kept_cs|e]; cbn [mbind result_bind].
  2: { now rewrite (mem_bind_raised _ _ _ _ _ Hf). }
  destruct Hf as (kept & Hf & Hkept).
  rewrite (mem_bind_returned _ _ _ _ _ Hf).
  erewrite mem_bind_returned by reflexivity.
  destruct Hkept as [|r c kept kept_cs Hrc Hkept]; [reflexivity|].
  set (h1 := h ++ [ListObj (r :: kept)]).
  assert (Hh1 : h `prefix_of` h1) by now apply prefix_app_r.
  rewrite (mem_bind_returned _ _ _ _ _ (sort_fresh_list_run h (r :: kept))).
  fold h1.
  set (sorted := py_sorted (key_at h1) (r :: kept)).
  set (h2 := h ++ [ListObj sorted]).
  assert (Hh2 : h `prefix_of` h2) by now apply prefix_app_r.
  erewrite mem_bind_returned.
  2: { unfold read_list, h2. rewrite lookup_app_r, Nat.sub_diag by lia.
       reflexivity. }
  assert (Hsorted : Forall2 (holds_comment h) sorted
                      (py_sorted sort_key (c :: kept_cs))).
  { apply py_sorted_related; [|now constructor].
    intros a b Hab. apply key_at_holds.
    eapply holds_comment_prefix; eassumption. }
  apply Forall2_last in Hsorted.
  destruct Hsorted as [r' c' Hlast|]; [|reflexivity].
  erewrite mem_bind_returned.
  2: { pose proof (holds_comment_prefix h h2 r' c' Hh2 Hlast) as Hr'.
       unfold holds_comment in Hr'. unfold read_comment.
       subst h2. rewrite Hr'. reflexivity. }
  reflexivity.
Qed.

Lemma numbers_of_items (h : heap) (refs : list loc) (items : list Item) :
  Forall2 (holds_item h) refs items ->
  numbers_of refs h = (Returned (list_to_set (map number items)), h).
Proof.
  induction 1 as [|r i refs items Hri Hrest IH]; cbn [numbers_of];
    [reflexivity|].
  erewrite mem_bind_returned
    by (unfold read_item; rewrite Hri; reflexivity).
  now rewrite (mem_bind_returned _ _ _ _ _ IH).
Qed.

(** [filter_comments_by_items_mem] returns a new list that holds the
    comments [filter_comments_by_items] keeps, or raises as it does. *)
Lemma filter_comments_by_items_mem_refines (h : heap) (comments items : loc)
  (crefs irefs : list loc) (cs : list Comment) (its : list Item) :
  h !! comments = Some (ListObj crefs) ->
  holds_comments h crefs cs ->
  h !! items = Some (ListObj irefs) ->
  Forall2 (holds_item h) irefs its ->
  match filter_comments_by_items cs its with
  | Ok kept_cs =>
      exists kept,
        filter_comments_by_items_mem comments items h
        = (Returned (length h), h ++ [ListObj kept])
        /\ holds_comments h kept kept_cs
  | Raise e => filter_comments_by_items_mem comments items h = (Raised e, h)
  end.
Proof.
  intros Hc Hcs Hi His.
  unfold filter_comments_by_items_mem, filter_comments_by_items.
  erewrite mem_bind_returned
    by (unfold read_list; rewrite Hi; reflexivity).
  rewrite (mem_bind_returned _ _ _ _ _ (numbers_of_items h irefs its His)).
  erewrite mem_bind_returned
    by (unfold read_list; rewrite Hc; reflexivity).
  match goal with
  | |- match filterM ?q cs with _ => _ end =>
      match goal with
      | |- context [filter_refs ?p crefs] =>
          pose proof (filter_refs_pure h p q crefs cs) as Hf
      end
  end.
  cbv beta in Hf.
  specialize (Hf ltac:(
    intros r c Hrc;
    erewrite mem_bind_returned
      by (unfold read_comment; rewrite Hrc; reflexivity);
    unfold mem_bind, lift, mem_ret;
    now destruct (get_comment_item_number c)) Hcs).
  destruct (filterM _ cs) as [kept_cs|e].
  - destruct Hf as (kept & Hf & Hkept). exists kept.
    now rewrite (mem_bind_returned _ _ _ _ _ Hf).
  - now rewrite (mem_bind_raised _ _ _ _ _ Hf).
Qed.

Lemma filter_refs_ball_in_my_court (h0 : heap) (comments : loc)
  (crefs : list loc) (cs : list Comment) (github_user : string)
  (refs : list loc) (its : list Item) :
  h0 !! comments = Some (ListObj crefs) ->
  holds_comments h0 crefs cs ->
  Forall2 (holds_item h0) refs its ->
  forall h : heap,
    h0 `prefix_of` h ->
    match filterM (fun item => v ← ball_in_my_court item cs github_user;
                               Ok (truthy v)) its with
    | Ok kept_its =>
        exists kept h',
          filter_refs
            (fun r => let! v := ball_in_my_court_mem r comments github_user in
                      mem_ret (truthy v)) refs h
          = (Returned kept, h')
          /\ h `prefix_of` h'
          /\ Forall2 (holds_item h0) kept kept_its
    | Raise e =>
        exists h',
          filter_refs
            (fun r => let! v := ball_in_my_court_mem r comments github_user in
                      mem_ret (truthy v)) refs h
          = (Raised e, h')
    end.
Proof.
  intros Hc Hcs.
  induction 1 as [|r i refs its Hri Hrest IH]; intros h Hh;
    cbn [filterM filter_refs].
  - exists [], h. split; [reflexivity|]. split; [reflexivity|constructor].
  - assert (Hcs' : holds_comments h crefs cs).
    { eapply Forall2_impl; [exact Hcs|].
      intros a b. now apply holds_comment_prefix. }
    pose proof (ball_in_my_court_mem_refines h r comments i crefs cs
                  github_user (prefix_lookup_Some _ _ _ _ Hri Hh)
                  (prefix_lookup_Some _ _ _ _ Hc Hh) Hcs') as Hv.
    pose proof (frames_ball_in_my_court_mem r comments github_user h) as Hfr.
    destruct (ball_in_my_court_mem r comments github_user h) as [o h1] eqn:Hrun.
    cbn in Hv, Hfr. subst o.
    assert (Hp : mem_bind (ball_in_my_court_mem r comments github_user)
                   (fun v => mem_ret (truthy v)) h
                 = (outcome_of (v ← ball_in_my_court i cs github_user;
                                Ok (truthy v)), h1)).
    { unfold mem_bind. rewrite Hrun.
      now destruct (ball_in_my_court i cs github_user). }
    destruct (ball_in_my_court i cs github_user) as [v|e];
      cbn [mbind result_bind outcome_of] in Hp |- *.
    + specialize (IH h1 ltac:(etransitivity; eassumption)).
      destruct (filterM _ its) as [kept_its|e]; cbn [mbind result_bind].
      * destruct IH as (kept & h' & Hf & Hh' & Hkept).
        rewrite (mem_bind_returned _ _ _ _ _ Hp).
        rewrite (mem_bind_returned _ _ _ _ _ Hf).
        destruct (truthy v); eexists _, h'; (split; [reflexivity|]);
          (split; [etransitivity; eassumption|]);
          [now constructor|assumption].
      * destruct IH as (h' & Hf). exists h'.
        rewrite (mem_bind_returned _ _ _ _ _ Hp).
        now rewrite (mem_bind_raised _ _ _ _ _ Hf).
    + exists h1. now rewrite (mem_bind_raised _ _ _ _ _ Hp).
Qed.

(** [filter_by_ball_in_court_mem] returns a new list that holds the items
    [filter_by_ball_in_court] keeps, or raises as it does. *)
Lemma filter_by_ball_in_court_mem_refines (h : heap) (items comments : loc)
  (irefs crefs : list loc) (its : list Item) (cs : list Comment)
  (github_user : string) :
  h !! items = Some (ListObj irefs) ->
  Forall2 (holds_item h) irefs its ->
  h !! comments = Some (ListObj crefs) ->
  holds_comments h crefs cs ->
  match filter_by_ball_in_court its cs github_user with
  | Ok kept_its =>
      exists kept h',
        filter_by_ball_in_court_mem items comments github_user h
        = (Returned (length h'), h' ++ [ListObj kept])
        /\ h `prefix_of` h'
        /\ Forall2 (holds_item h) kept kept_its
  | Raise e =>
      exists h',
        filter_by_ball_in_court_mem items comments github_user h
        = (Raised e, h')
  end.
Proof.
  intros Hi His Hc Hcs.
  unfold filter_by_ball_in_court_mem, filter_by_ball_in_court.
  erewrite mem_bind_returned
    by (unfold read_list; rewrite Hi; reflexivity).
  pose proof (filter_refs_ball_in_my_court h comments crefs cs github_user
                irefs its Hc Hcs His h ltac:(reflexivity)) as Hf.
  destruct (filterM _ its) as [kept_its|e].
  - destruct Hf as (kept & h' & Hf & Hh' & Hkept). exists kept, h'.
    now rewrite (mem_bind_returned _ _ _ _ _ Hf).
  - destruct Hf as (h' & Hf). exists h'.
    now rewrite (mem_bind_raised _ _ _ _ _ Hf).
Qed.

(** ** Instances on the fixtures of the test suite *)

Lemma make_comment_resolves (n : Z) (author t : string) (r : option Z) :
  get_comment_item_number (make_comment n author t) = Ok r ->
  resolves (make_comment n author t).
Proof. intros H. now exists r. Qed.

(** My own item, comments on other items only. *)
Lemma ball_in_my_court_no_comments_witness :
  exists b : bool,
    ball_in_my_court (make_item 1 "matsen")
      [make_comment 2 "other_user" "2024-01-15T10:00:00Z";
       make_comment 3 "other_user" "2024-01-15T11:00:00Z"] "matsen"
    = Ok (PyBool b)
    /\ (b = true <-> user_login (make_item 1 "matsen") <> "matsen").
Proof.
  apply ball_in_my_court_no_comments.
  - repeat constructor; eapply make_comment_resolves; vm_compute; reflexivity.
  - vm_compute. reflexivity.
Defined.

Lemma arguments_not_mutated_witness :
  (forall (item comments : loc) (github_user : string),
     (ball_in_my_court_mem item comments github_user sample_heap).2 !! 3%nat
     = Some (ListObj [1%nat; 2%nat]))
  /\ (forall (items comments : loc) (github_user : string),
        (filter_by_ball_in_court_mem items comments github_user
           sample_heap).2 !! 3%nat
        = Some (ListObj [1%nat; 2%nat]))
  /\ (forall (comments items : loc),
        (filter_comments_by_items_mem comments items sample_heap).2 !! 3%nat
        = Some (ListObj [1%nat; 2%nat])).
Proof.
  apply (arguments_not_mutated sample_heap 3%nat). reflexivity.
Defined.

(** ** The aggregation loop *)

Lemma list_nonempty_true {A : Type} (l : list A) :
  list_nonempty l = true <-> l <> [].
Proof. destruct l; cbn; split; congruence. Qed.

Lemma list_nonempty_length {A : Type} (l : list A) :
  list_nonempty l = false -> length l = 0%nat.
Proof. now destruct l. Qed.

Lemma stored_true (v : Snapshot) :
  stored v = true <-> issues v <> [] \/ prs v <> [].
Proof.
  unfold stored. rewrite orb_true_iff, !list_nonempty_true. tauto.
Qed.

(** One turn of the loop: the snapshot is stored under the repository when
    it has an issue or a pull request, and the totals grow by its three
    counts (by nothing when all three are empty). *)
Lemma record_repo_spec (repo : string) (v : Snapshot)
  (activity : gmap string Snapshot) (totals : Totals) :
  record_repo repo v (activity, totals)
  = (if stored v then <[repo := v]> activity else activity,
     {| total_issues := (total_issues totals + length (issues v))%nat;
        total_prs := (total_prs totals + length (prs v))%nat;
        total_comments :=
          (total_comments totals + length (comments v))%nat |}).
Proof.
  unfold record_repo, stored.
  destruct (list_nonempty (issues v)) eqn:Hi,
           (list_nonempty (prs v)) eqn:Hp,
           (list_nonempty (comments v)) eqn:Hc; cbn; try reflexivity.
  apply list_nonempty_length in Hi, Hp, Hc. rewrite Hi, Hp, Hc.
  destruct totals; cbn. now rewrite !Nat.add_0_r.
Qed.

Lemma fetch_all_activity_loop_spec (gh : GitHubFeeds) (since : Z)
  (github_user : option string) (repos : list string)
  (views : list Snapshot) :
  Forall2 (fun repo v => repo_view gh since github_user repo = Ok v)
    repos views ->
  forall (activity0 : gmap string Snapshot) (totals0 : Totals),
  exists (activity : gmap string Snapshot) (totals : Totals),
    fetch_all_activity_loop gh since github_user repos (activity0, totals0)
    = Ok (activity, totals)
    /\ (forall repo v,
          activity !! repo = Some v
          <-> (repo ∈ repos
               /\ repo_view gh since github_user repo = Ok v
               /\ stored v = true)
              \/ ((repo ∉ repos
                   \/ exists v', repo_view gh since github_user repo = Ok v'
                                 /\ stored v' = false)
                  /\ activity0 !! repo = Some v))
    /\ total_issues totals
       = (total_issues totals0 + count_over (length ∘ issues) views)%nat
    /\ total_prs totals
       = (total_prs totals0 + count_over (length ∘ prs) views)%nat
    /\ total_comments totals
       = (total_comments totals0 + count_over (length ∘ comments) views)%nat.
Proof.
  induction 1 as [|repo v repos views Hv Hrest IH]; intros activity0 totals0.
  - exists activity0, totals0. split; [reflexivity|].
    split; [|cbn; now rewrite !Nat.add_0_r].
    intros repo v. split.
    + intros H. right. split; [left; apply not_elem_of_nil|exact H].
    + intros [(H & _)|(_ & H)]; [now apply elem_of_nil in H|exact H].
  - cbn [fetch_all_activity_loop]. rewrite Hv. cbn -[record_repo].
    rewrite record_repo_spec.
    edestruct IH as (activity & totals & Hloop & Hmap & Hi & Hp & Hc).
    exists activity, totals. split; [exact Hloop|].
    split;
      [|cbn [total_issues total_prs total_comments] in Hi, Hp, Hc;
        rewrite Hi, Hp, Hc; cbn [count_over]; unfold compose;
        repeat split; lia].
    intros r w. rewrite Hmap. clear Hmap Hloop Hi Hp Hc.
    rewrite !elem_of_cons.
    destruct (decide (r = repo)) as [->|Hne].
    + destruct (stored v) eqn:Hs.
      * rewrite lookup_insert_eq. split.
        -- intros [(Hin & Hw & Hsw)|(Hnot & Hw)].
           ++ left. tauto.
           ++ injection Hw as <-. left. tauto.
        -- intros [(_ & Hw & Hsw)|(Hnot & _)].
           ++ destruct (decide (repo ∈ repos)) as [Hin|Hnin].
              ** left. tauto.
              ** right. split; [now left|]. congruence.
           ++ destruct Hnot as [Hnot|(v' & Hv' & Hs')].
              ** exfalso. apply Hnot. now left.
              ** congruence.
      * split.
        -- intros [(Hin & Hw & Hsw)|(Hnot & Hw)].
           ++ left. tauto.
           ++ right. split; [|exact Hw]. right. eauto.
        -- intros [(_ & Hw & Hsw)|(_ & Hw)].
           ++ congruence.
           ++ destruct (decide (repo ∈ repos)) as [Hin|Hnin].
              ** right. split; [|exact Hw]. right. eauto.
              ** right. split; [now left|exact Hw].
    + assert (Hlook : (if stored v then <[repo := v]> activity0
                       else activity0) !! r = activity0 !! r).
      { destruct (stored v); [now rewrite lookup_insert_ne|reflexivity]. }
      rewrite Hlook. split.
      * intros [(Hin & Hw & Hsw)|(Hnot & Hw)].
        -- left. tauto.
        -- right. split; [|exact Hw]. destruct Hnot as [Hnot|Hnot].
           ++ left. intros [?|?]; [congruence|tauto].
           ++ now right.
      * intros [([?|Hin] & Hw & Hsw)|(Hnot & Hw)].
        -- congruence.
        -- left. tauto.
        -- right. split; [|exact Hw]. destruct Hnot as [Hnot|Hnot].
           ++ left. tauto.
           ++ now right.
Qed.

(** C2, as amended.  When every repository's fetch and filter returns, so
    does the loop; a snapshot is in the mapping exactly for the
    repositories with at least one issue or pull request after filtering
    (comments alone do not store one); and the three totals are the sums,
    over the repositories processed, of the issue, pull-request and comment
    counts (a repository with nothing adds nothing). *)
Theorem fetch_all_activity_mapping_and_totals (gh : GitHubFeeds)
  (repos : list string) (since : Z) (github_user : option string)
  (views : list Snapshot) :
  Forall2 (fun repo v => repo_view gh since github_user repo = Ok v)
    repos views ->
  exists (activity : gmap string Snapshot) (totals : Totals),
    fetch_all_activity gh repos since github_user = Ok (activity, totals)
    /\ (forall repo v,
          activity !! repo = Some v
          <-> repo ∈ repos
              /\ repo_view gh since github_user repo = Ok v
              /\ (issues v <> [] \/ prs v <> []))
    /\ total_issues totals = count_over (length ∘ issues) views
    /\ total_prs totals = count_over (length ∘ prs) views
    /\ total_comments totals = count_over (length ∘ comments) views.
Proof.
  intros Hviews. unfold fetch_all_activity.
  edestruct (fetch_all_activity_loop_spec gh since github_user repos views
               Hviews) as (activity & totals & Hloop & Hmap & Hi & Hp & Hc).
  exists activity, totals. split; [exact Hloop|].
  split; [|cbn in Hi, Hp, Hc; tauto].
  intros repo v. rewrite Hmap, lookup_empty, <- stored_true.
  split; [intros [H|[_ H]]; [exact H|discriminate]|now left].
Qed.

(** C2, the claim as stated: a repository with a comment and no item has
    no snapshot in the mapping, although its comments are not empty, and
    its comment is counted. *)
Lemma comments_only_repo_not_stored :
  repo_view comments_only_feeds 0 None "org/repo"
  = Ok {| issues := []; prs := [];
          comments := [make_comment 2 "colleague" "2024-01-15T10:00:00Z"] |}
  /\ fetch_all_activity comments_only_feeds ["org/repo"] 0 None
     = Ok (∅, {| total_issues := 0; total_prs := 0; total_comments := 1 |}).
Proof. split; vm_compute; reflexivity. Qed.

Lemma fetch_all_activity_mapping_and_totals_witness :
  exists (activity : gmap string Snapshot) (totals : Totals),
    fetch_all_activity comments_only_feeds ["org/repo"; "org/other"] 0 None
    = Ok (activity, totals)
    /\ (forall repo v,
          activity !! repo = Some v
          <-> repo ∈ ["org/repo"; "org/other"]
              /\ repo_view comments_only_feeds 0 None repo = Ok v
              /\ (issues v <> [] \/ prs v <> []))
    /\ total_issues totals
       = count_over (length ∘ issues)
           [{| issues := []; prs := [];
               comments :=
                 [make_comment 2 "colleague" "2024-01-15T10:00:00Z"] |};
            {| issues := []; prs := [];
               comments :=
                 [make_comment 2 "colleague" "2024-01-15T10:00:00Z"] |}]
    /\ total_prs totals
       = count_over (length ∘ prs)
           [{| issues := []; prs := [];
               comments :=
                 [make_comment 2 "colleague" "2024-01-15T10:00:00Z"] |};
            {| issues := []; prs := [];
               comments :=
                 [make_comment 2 "colleague" "2024-01-15T10:00:00Z"] |}]
    /\ total_comments totals
       = count_over (length ∘ comments)
           [{| issues := []; prs := [];
               comments :=
                 [make_comment 2 "colleague" "2024-01-15T10:00:00Z"] |};
            {| issues := []; prs := [];
               comments :=
                 [make_comment 2 "colleague" "2024-01-15T10:00:00Z"] |}].
Proof.
  apply fetch_all_activity_mapping_and_totals.
  repeat constructor.
Defined.

Lemma filterM_elem_of {A : Type} (p : A -> result bool) (l r : list A)
  (x : A) :
  filterM p l = Ok r -> x ∈ r -> x ∈ l /\ p x = Ok true.
Proof.
  revert r. induction l as [|y l IH]; intros r; cbn [filterM].
  - intros [= <-] H. now apply elem_of_nil in H.
  - destruct (p y) as [b|e] eqn:Hy; cbn; [|discriminate].
    destruct (filterM p l) as [r'|e]; cbn; [|discriminate].
    intros [= <-] Hx. destruct b.
    + apply elem_of_cons in Hx as [->|Hx].
      * split; [left|exact Hy].
      * destruct (IH r' eq_refl Hx). split; [now right|assumption].
    + destruct (IH r' eq_refl Hx). split; [now right|assumption].
Qed.

Lemma fetch_all_activity_loop_views (gh : GitHubFeeds) (since : Z)
  (github_user : option string) (repos : list string)
  (st r : gmap string Snapshot * Totals) :
  fetch_all_activity_loop gh since github_user repos st = Ok r ->
  exists views,
    Forall2 (fun repo v => repo_view gh since github_user repo = Ok v)
      repos views.
Proof.
  revert st. induction repos as [|repo repos IH]; intros st.
  - intros _. exists []. constructor.
  - cbn [fetch_all_activity_loop].
    destruct (repo_view gh since github_user repo) as [v|e] eqn:Hv;
      cbn -[record_repo]; [|discriminate].
    intros H. destruct (IH _ H) as [views Hviews].
    exists (v :: views). now constructor.
Qed.

(** The first computation of a chain that returned has returned. *)
Ltac bind_case H :=
  match goal with
  | |- (?m ≫= _) = Ok _ -> _ =>
      let x := fresh "x" in
      destruct m as [x|?] eqn:H; cbn; [|discriminate]
  end.

(** With an acting user, the comments of a view are those of its items. *)
Lemma repo_view_comments_of_items (gh : GitHubFeeds) (since : Z)
  (u repo : string) (v : Snapshot) (c : Comment) :
  nonempty u = true ->
  repo_view gh since (Some u) repo = Ok v ->
  c ∈ comments v ->
  exists i, i ∈ issues v ++ prs v
            /\ get_comment_item_number c = Ok (Some (number i)).
Proof.
  intros Hu. unfold repo_view. rewrite Hu.
  bind_case Hissues. bind_case Hprs. bind_case Hkept.
  intros [= <-]. cbn. intros Hc.
  destruct (filterM_elem_of _ _ _ _ Hkept Hc) as [_ Hp].
  destruct (get_comment_item_number c) as [[n|]|e]; cbn in Hp;
    try discriminate.
  injection Hp as Hn. apply bool_decide_eq_true in Hn.
  apply elem_of_list_to_set, list_elem_of_In, in_map_iff in Hn
    as (i & <- & Hi).
  exists i. split; [now apply list_elem_of_In|reflexivity].
Qed.

(** C5, as amended.  When an acting user is given (a non-empty login),
    every comment of every snapshot in the mapping resolves to the number
    of an issue or pull request of the same snapshot. *)
Theorem snapshot_comments_belong_to_items (gh : GitHubFeeds)
  (repos : list string) (since : Z) (u : string)
  (activity : gmap string Snapshot) (totals : Totals) :
  nonempty u = true ->
  fetch_all_activity gh repos since (Some u) = Ok (activity, totals) ->
  forall (repo : string) (v : Snapshot) (c : Comment),
    activity !! repo = Some v ->
    c ∈ comments v ->
    exists i, i ∈ issues v ++ prs v
              /\ get_comment_item_number c = Ok (Some (number i)).
Proof.
  intros Hu Hrun repo v c Hv Hc.
  destruct (fetch_all_activity_loop_views _ _ _ _ _ _ Hrun) as [views Hviews].
  unfold fetch_all_activity in Hrun.
  edestruct (fetch_all_activity_loop_spec gh since (Some u) repos views
               Hviews) as (activity' & totals' & Hrun' & Hmap & _).
  rewrite Hrun in Hrun'. injection Hrun' as <- <-.
  apply Hmap in Hv as [(_ & Hview & _)|(_ & Hv)].
  - eapply repo_view_comments_of_items; eassumption.
  - now rewrite lookup_empty in Hv.
Qed.

(** C5, the claim as stated: without an acting user nothing is filtered,
    and the snapshot keeps a comment on item 2 next to item 1 alone. *)
Lemma firehose_comment_without_item :
  fetch_all_activity firehose_feeds ["org/repo"] 0 None
  = Ok ({["org/repo" :=
            {| issues := [make_item 1 "colleague"]; prs := [];
               comments :=
                 [make_comment 2 "colleague" "2024-01-15T10:00:00Z"] |}]},
        {| total_issues := 1; total_prs := 0; total_comments := 1 |})
  /\ get_comment_item_number
       (make_comment 2 "colleague" "2024-01-15T10:00:00Z") = Ok (Some 2)
  /\ map number ([make_item 1 "colleague"] ++ []) = [1].
Proof. repeat split; vm_compute; reflexivity. Qed.

Lemma snapshot_comments_belong_to_items_witness :
  exists i,
    i ∈ issues test_snapshot ++ prs test_snapshot
    /\ get_comment_item_number
         (make_comment 3 "other_user" "2024-01-15T10:00:00Z")
       = Ok (Some (number i)).
Proof.
  apply (snapshot_comments_belong_to_items test_feeds ["org/repo"] 0 "matsen"
           {["org/repo" := test_snapshot]}
           {| total_issues := 2; total_prs := 0; total_comments := 1 |}
           eq_refl eq_refl "org/repo" test_snapshot).
  - vm_compute. reflexivity.
  - left.
Defined.

(** ** Orphan detection *)

Lemma od_get_set_eq {V : Type} (k : string) (v : V) (d : odict V) :
  od_get k (od_set k v d) = Some v.
Proof.
  induction d as [|[k' v'] d IH]; cbn.
  - now rewrite bool_decide_eq_true_2.
  - destruct (decide (k' = k)) as [->|Hne].
    + rewrite bool_decide_eq_true_2 by reflexivity. cbn.
      now rewrite bool_decide_eq_true_2.
    + rewrite bool_decide_eq_false_2 by assumption. cbn.
      now rewrite bool_decide_eq_false_2.
Qed.

Lemma od_get_set_ne {V : Type} (k k' : string) (v : V) (d : odict V) :
  k' <> k -> od_get k (od_set k' v d) = od_get k d.
Proof.
  intros Hne. induction d as [|[k'' v''] d IH]; cbn.
  - now rewrite bool_decide_eq_false_2.
  - destruct (decide (k'' = k')) as [->|Hne'].
    + rewrite bool_decide_eq_true_2 by reflexivity. cbn.
      now rewrite !bool_decide_eq_false_2.
    + rewrite bool_decide_eq_false_2 by assumption. cbn.
      destruct (bool_decide (k'' = k)); [reflexivity|exact IH].
Qed.

Lemma record_orphan_elem_of (github_refs : gset string)
  (acc : list BoardItem) (x item : BoardItem) :
  item ∈ record_orphan github_refs acc x
  <-> item ∈ acc \/ (item = x /\ orphan_condition github_refs x).
Proof.
  unfold record_orphan, orphan_condition, board_item_ref, item_status,
    item_repo, item_number.
  destruct (bool_decide (lower _ = "done")) eqn:Hd.
  { apply bool_decide_eq_true in Hd.
    split; [tauto|]. intros [H|[_ (Hn & _)]]; [exact H|contradiction]. }
  apply bool_decide_eq_false in Hd.
  destruct (nonempty _ && number_true _)%bool eqn:Hn.
  - apply andb_true_iff in Hn as [Hn1 Hn2].
    destruct (bool_decide (_ ∉ github_refs)) eqn:Hr.
    + apply bool_decide_eq_true in Hr.
      rewrite elem_of_app, list_elem_of_singleton. tauto.
    + apply bool_decide_eq_false in Hr.
      split; [tauto|]. intros [H|[_ (_ & _ & _ & Hc)]]; [exact H|].
      contradiction.
  - apply andb_false_iff in Hn.
    split; [tauto|]. intros [H|[_ (_ & H1 & H2 & _)]]; [exact H|].
    destruct Hn; congruence.
Qed.

Lemma find_orphan_issues_step (github_refs : gset string)
  (items acc : list BoardItem) (item : BoardItem) :
  item ∈ fold_left (record_orphan github_refs) items acc
  <-> item ∈ acc \/ (item ∈ items /\ orphan_condition github_refs item).
Proof.
  revert acc. induction items as [|x items IH]; intros acc; cbn [fold_left].
  - split; [now left|]. intros [H|[H _]]; [exact H|].
    now apply elem_of_nil in H.
  - rewrite IH, record_orphan_elem_of, elem_of_cons.
    split.
    + intros [[H|[-> H]]|[H1 H2]]; tauto.
    + intros [H|[[->|H1] H2]]; tauto.
Qed.

Lemma elem_of_find_orphan_issues (github_refs : gset string)
  (items : list BoardItem) (item : BoardItem) :
  item ∈ find_orphan_issues github_refs items
  <-> item ∈ items /\ orphan_condition github_refs item.
Proof.
  unfold find_orphan_issues. rewrite find_orphan_issues_step.
  split; [intros [H|H]; [now apply elem_of_nil in H|exact H]|now right].
Qed.

Lemma elem_of_collect_all_github_refs (beads : list Bead) (ref : string) :
  ref ∈ collect_all_github_refs beads
  <-> exists bead,
        bead ∈ beads
        /\ ref ∈ extract_github_refs_from_description (get_description bead).
Proof.
  unfold collect_all_github_refs.
  assert (H : forall acc : gset string,
             ref ∈ fold_left
                     (fun refs bead =>
                        refs ∪ list_to_set
                                 (extract_github_refs_from_description
                                    (get_description bead)))
                     beads acc
             <-> ref ∈ acc
                 \/ exists bead,
                      bead ∈ beads
                      /\ ref ∈ extract_github_refs_from_description
                                 (get_description bead)).
  { induction beads as [|b beads IH]; intros acc; cbn [fold_left].
    - split; [now left|]. intros [H|(b & Hb & _)]; [exact H|].
      now apply elem_of_nil in Hb.
    - rewrite IH, elem_of_union, elem_of_list_to_set. split.
      + intros [[H|H]|(b' & Hb' & H)].
        * now left.
        * right. exists b. split; [left|exact H].
        * right. exists b'. split; [now right|exact H].
      + intros [H|(b' & Hb' & H)]; [now left; left|].
        apply elem_of_cons in Hb' as [->|Hb'].
        * left. now right.
        * right. now exists b'. }
  rewrite H. split; [intros [Hin|Hex]; [set_solver|exact Hex]|now right].
Qed.

Lemma check_board_orphans (bead_by_board : odict (odict Bead))
  (github_refs : gset string) (board_key parent_bead_id : string)
  (board_items : list BoardItem) (changes : BoardChanges) :
  check_board bead_by_board github_refs board_key parent_bead_id board_items
  = Some changes ->
  orphan_issues changes
  = find_orphan_issues github_refs
      (List.filter (fun item => bool_decide (item_type item = "Issue"))
         board_items).
Proof.
  unfold check_board.
  destruct (_ || _ || _)%bool; [|discriminate]. now intros [= <-].
Qed.

Lemma check_board_reports_orphans (bead_by_board : odict (odict Bead))
  (github_refs : gset string) (board_key parent_bead_id : string)
  (board_items : list BoardItem) :
  find_orphan_issues github_refs
    (List.filter (fun item => bool_decide (item_type item = "Issue"))
       board_items) <> [] ->
  exists changes,
    check_board bead_by_board github_refs board_key parent_bead_id board_items
    = Some changes.
Proof.
  intros Hne. unfold check_board.
  apply list_nonempty_true in Hne. unfold item_type in Hne.
  rewrite Hne, !orb_true_r. eauto.
Qed.

Section CheckBoards.
Context (fetch_board_items : string -> string -> list BoardItem)
  (bead_by_board : odict (odict Bead)) (github_refs : gset string).

Let step := record_board fetch_board_items bead_by_board github_refs.

(** Whatever is stored under a key was reported for a board of that key. *)
Lemma check_boards_sound (boards : list (string * string))
  (results0 : odict BoardChanges) (k : string) (changes : BoardChanges) :
  od_get k (fold_left step boards results0) = Some changes ->
  od_get k results0 = Some changes
  \/ exists parent owner project_num,
       (k, parent) ∈ boards
       /\ split_on "/" k = [owner; project_num]
       /\ check_board bead_by_board github_refs k parent
            (fetch_board_items owner project_num) = Some changes.
Proof.
  revert results0.
  induction boards as [|[k' p'] boards IH]; intros results0; cbn [fold_left].
  - now left.
  - intros H. apply IH in H as [H|(p & o & n & Hin & Hs & Hc)].
    + unfold step, record_board in H.
      destruct (split_on "/" k') as [|o [|n [|? ?]]] eqn:Hs; try (now left).
      destruct (check_board _ _ k' p' _) as [c|] eqn:Hc; [|now left].
      destruct (decide (k' = k)) as [->|Hne].
      * rewrite od_get_set_eq in H. injection H as <-.
        right. exists p', o, n. split; [left|]. split; assumption.
      * rewrite od_get_set_ne in H by assumption. now left.
    + right. exists p, o, n. split; [now right|]. split; assumption.
Qed.

(** A board with an orphan stays reported, with the same orphans, through
    the rest of the loop. *)
Lemma check_boards_keep (boards : list (string * string))
  (results0 : odict BoardChanges) (k owner project_num : string)
  (changes : BoardChanges) :
  split_on "/" k = [owner; project_num] ->
  orphan_issues changes
  = find_orphan_issues github_refs
      (List.filter (fun item => bool_decide (item_type item = "Issue"))
         (fetch_board_items owner project_num)) ->
  orphan_issues changes <> [] ->
  od_get k results0 = Some changes ->
  exists changes',
    od_get k (fold_left step boards results0) = Some changes'
    /\ orphan_issues changes' = orphan_issues changes.
Proof.
  intros Hs Ho Hne. revert results0 changes Ho Hne.
  induction boards as [|[k' p'] boards IH]; intros results0 changes Ho Hne H0;
    cbn [fold_left].
  - now exists changes.
  - destruct (decide (k' = k)) as [->|Hk].
    + rewrite Ho in Hne.
      destruct (check_board_reports_orphans bead_by_board github_refs k p'
                  _ Hne) as [c Hc].
      assert (Hstep : step results0 (k, p') = od_set k c results0).
      { unfold step, record_board. now rewrite Hs, Hc. }
      rewrite Hstep.
      pose proof (check_board_orphans _ _ _ _ _ _ Hc) as Hoc.
      destruct (IH (od_set k c results0) c Hoc) as (c' & Hget & Horph).
      * now rewrite Hoc.
      * apply od_get_set_eq.
      * exists c'. split; [exact Hget|]. now rewrite Horph, Hoc, Ho.
    + apply IH; try assumption.
      unfold step, record_board.
      destruct (split_on "/" k') as [|o [|n [|? ?]]]; try assumption.
      destruct (check_board _ _ k' p' _); [|assumption].
      now rewrite od_get_set_ne.
Qed.

Lemma check_boards_complete (boards : list (string * string))
  (results0 : odict BoardChanges) (k parent owner project_num : string) :
  (k, parent) ∈ boards ->
  split_on "/" k = [owner; project_num] ->
  find_orphan_issues github_refs
    (List.filter (fun item => bool_decide (item_type item = "Issue"))
       (fetch_board_items owner project_num)) <> [] ->
  exists changes,
    od_get k (fold_left step boards results0) = Some changes
    /\ orphan_issues changes
       = find_orphan_issues github_refs
           (List.filter (fun item => bool_decide (item_type item = "Issue"))
              (fetch_board_items owner project_num)).
Proof.
  intros Hin Hs Hne. revert results0.
  induction boards as [|[k' p'] boards IH]; intros results0.
  - now apply elem_of_nil in Hin.
  - cbn [fold_left]. apply elem_of_cons in Hin as [[= <- <-]|Hin].
    + destruct (check_board_reports_orphans bead_by_board github_refs k parent
                  _ Hne) as [c Hc].
      assert (Hstep : step results0 (k, parent) = od_set k c results0).
      { unfold step, record_board. now rewrite Hs, Hc. }
      rewrite Hstep.
      pose proof (check_board_orphans _ _ _ _ _ _ Hc) as Hoc.
      destruct (check_boards_keep boards (od_set k c results0) k owner
                  project_num c Hs Hoc) as (c' & Hget & Horph).
      * now rewrite Hoc.
      * apply od_get_set_eq.
      * exists c'. split; [exact Hget|]. now rewrite Horph.
    + now apply IH.
Qed.

End CheckBoards.

(** ** The P0 sync *)

Section Sync.
Context {W : Type} (h : handler W).

Lemma run_bind {A B : Type} (p : prog A) (f : A -> prog B) (w : W) :
  run h (prog_bind p f) w
  = let '(a, w1, c1) := run h p w in
    let '(b, w2, c2) := run h (f a) w1 in
    (b, w2, c1 ++ c2).
Proof.
  revert w. induction p as [a|X e k IH]; intros w; cbn [prog_bind run].
  - now destruct (run h (f a) w) as [[b w2] c2].
  - destruct (h X e w) as [x w1]. rewrite IH.
    destruct (run h (k x) w1) as [[a w2] c1].
    now destruct (run h (f a) w2) as [[b w3] c2].
Qed.

(** The repair loop makes one call per bead, in order, whatever the
    answers that return; each such answer yields one note.  An answer
    that raises ends the loop: the beads after it are not attempted. *)
Lemma run_apply_fixes (board_key : string) (missing : list P0Bead)
  (acc : list string) (w : W) :
  exists (answers : list (bool * string)) (w' : W),
    (length answers = length missing
     /\ run h (apply_fixes board_key missing acc) w
        = (Ok (acc ++ zip_with fix_note missing answers), w',
           zip_with (fix_call board_key) missing answers))
    \/ (exists (bead : P0Bead) (e : pyexn),
           missing !! length answers = Some bead
           /\ run h (apply_fixes board_key missing acc) w
              = (Raise e, w',
                 zip_with (fix_call board_key) missing answers
                 ++ [raised_call board_key bead e])).
Proof.
  revert acc w. induction missing as [|bead missing IH]; intros acc w.
  - exists [], w. left. cbn. now rewrite app_nil_r.
  - cbn [apply_fixes trigger prog_bind run].
    destruct (h _ (AddIssueToBoard board_key (p0_issue_number bead)
                     (p0_repo bead) (Some "next")) w) as [[[success msg]|e] w1]
      eqn:Hcall.
    + destruct (IH (acc ++ [fix_note bead (success, msg)]) w1)
        as (answers & w' & [[Hlen Hrun]|(b & e & Hb & Hrun)]);
        unfold fix_note at 1 in Hrun; cbn [fst snd] in Hrun;
        exists ((success, msg) :: answers), w'.
      * left. split; [cbn; now rewrite Hlen|].
        rewrite Hrun. cbn [zip_with]. now rewrite <- app_assoc.
      * right. exists b, e. split; [exact Hb|]. now rewrite Hrun.
    + exists [], w1. right. exists bead, e. split; reflexivity.
Qed.

(** What a run of the sync that returns has done. *)
Lemma run_sync_board_with_beads (board_key : string) (fix_ : bool)
  (w w' : W) (r : SyncResult) (calls : list call) :
  run h (sync_board_with_beads board_key fix_) w = (Ok r, w', calls) ->
  exists (beads : list Bead) (p0_beads : list P0Bead)
         (owner project_num : string) (items : list BoardItem)
         (answers : list (bool * string)),
    collect_p0_beads beads = Ok p0_beads
    /\ parse_board_key board_key = Ok (owner, project_num)
    /\ missing_from_board r
       = List.filter
           (fun bead =>
              bool_decide
                (p0_ref bead
                 ∉ (list_to_set (map board_ref (omap board_issue_of items))
                    : gset (string * Z))))
           p0_beads
    /\ not_in_beads r
       = List.filter
           (fun issue =>
              bool_decide
                (board_ref issue
                 ∉ (list_to_set (map p0_ref p0_beads) : gset (string * Z))))
           (omap board_issue_of items)
    /\ length answers = (if fix_ then length (missing_from_board r) else 0%nat)
    /\ fixes_applied r = zip_with fix_note (missing_from_board r) answers
    /\ calls
       = Called LoadBeads beads
         :: Called (GhProjectItemList project_num owner) items
         :: zip_with (fix_call board_key) (missing_from_board r) answers.
Proof.
  unfold sync_board_with_beads, get_p0_beads_with_github_refs,
    get_board_issues, list_board_items, trigger.
  cbn [prog_bind run].
  destruct (h _ LoadBeads w) as [beads w1].
  destruct (collect_p0_beads beads) as [p0_beads|e] eqn:Hp0;
    [|cbn; discriminate].
  destruct (parse_board_key board_key) as [[owner project_num]|e] eqn:Hkey;
    [|cbn; discriminate].
  cbn [prog_bind run].
  destruct (h _ (GhProjectItemList project_num owner) w1) as [items w2].
  rewrite run_bind.
  set (missing := List.filter _ p0_beads).
  set (extra := List.filter _ (omap board_issue_of items)).
  destruct fix_.
  - destruct (run_apply_fixes board_key missing [] w2)
      as (answers & w3 & [[Hlen Hrun]|(b & e & _ & Hrun)]);
      rewrite Hrun; cbn; [|discriminate].
    intros [= <- <- <-]. cbn.
    exists beads, p0_beads, owner, project_num, items, answers.
    rewrite app_nil_r. repeat split; assumption || reflexivity.
  - cbn. intros [= <- <- <-]. cbn.
    exists beads, p0_beads, owner, project_num, items, [].
    repeat split; try assumption; try reflexivity.
    all: now destruct missing.
Qed.

(** What a run of the sync that raises has done: it stopped at one of
    the two reads, or at the attempt that raised. *)
Lemma run_sync_board_with_beads_raised (board_key : string) (fix_ : bool)
  (w w' : W) (e : pyexn) (calls : list call) :
  run h (sync_board_with_beads board_key fix_) w = (Raise e, w', calls) ->
  (exists beads : list Bead, calls = [Called LoadBeads beads])
  \/ (fix_ = true
      /\ exists (beads : list Bead) (p0_beads : list P0Bead)
                (owner project_num : string) (items : list BoardItem)
                (answers : list (bool * string)) (bead : P0Bead),
           collect_p0_beads beads = Ok p0_beads
           /\ parse_board_key board_key = Ok (owner, project_num)
           /\ missing_of p0_beads items !! length answers = Some bead
           /\ calls
              = Called LoadBeads beads
                :: Called (GhProjectItemList project_num owner) items
                :: zip_with (fix_call board_key) (missing_of p0_beads items)
                     answers
                ++ [raised_call board_key bead e]).
Proof.
  unfold sync_board_with_beads, get_p0_beads_with_github_refs,
    get_board_issues, list_board_items, trigger.
  cbn [prog_bind run].
  destruct (h _ LoadBeads w) as [beads w1].
  destruct (collect_p0_beads beads) as [p0_beads|e0] eqn:Hp0.
  2: { cbn. intros [= <- <- <-]. left. now exists beads. }
  destruct (parse_board_key board_key) as [[owner project_num]|e0] eqn:Hkey.
  2: { cbn. intros [= <- <- <-]. left. now exists beads. }
  cbn [prog_bind run].
  destruct (h _ (GhProjectItemList project_num owner) w1) as [items w2].
  rewrite run_bind.
  fold (missing_of p0_beads items).
  destruct fix_; [|cbn; discriminate].
  destruct (run_apply_fixes board_key (missing_of p0_beads items) [] w2)
    as (answers & w3 & [[Hlen Hrun]|(b & e0 & Hb & Hrun)]);
    rewrite Hrun; cbn; [discriminate|].
  intros [= <- <- <-]. right. split; [reflexivity|].
  exists beads, p0_beads, owner, project_num, items, answers, b.
  rewrite app_nil_r. now repeat split.
Qed.

End Sync.

(** C7.  Whatever the tracker file and the board hold, and whether or not
    a fix is asked for: no (repo, issue_number) key of [missing_from_board]
    is a key of [not_in_beads]. *)
Theorem sync_lists_disjoint {W : Type} (h : handler W) (board_key : string)
  (fix_ : bool) (w w' : W) (r : SyncResult) (calls : list call) :
  run h (sync_board_with_beads board_key fix_) w = (Ok r, w', calls) ->
  forall key : string * Z,
    key ∈ map p0_ref (missing_from_board r) ->
    key ∉ map board_ref (not_in_beads r).
Proof.
  intros Hrun key Hmissing Hextra.
  apply run_sync_board_with_beads in Hrun
    as (beads & p0_beads & owner & num & items & answers
        & _ & _ & Hm & Hn & _).
  rewrite Hm in Hmissing. rewrite Hn in Hextra.
  apply list_elem_of_In, in_map_iff in Hmissing as (bead & <- & Hbead).
  apply list_elem_of_In, in_map_iff in Hextra as (issue & Heq & Hissue).
  apply filter_In in Hbead as [Hbead _].
  apply filter_In in Hissue as [_ Hissue].
  apply bool_decide_eq_true in Hissue. apply Hissue.
  rewrite Heq. apply elem_of_list_to_set, list_elem_of_In, in_map_iff.
  now exists bead.
Qed.

Lemma no_removal_among_fix_calls (board_key : string)
  (missing : list P0Bead) (answers : list (bool * string)) :
  Forall (fun c => is_removal c = false)
    (zip_with (fix_call board_key) missing answers).
Proof.
  revert answers. induction missing as [|b missing IH]; intros [|a answers];
    cbn; constructor; [reflexivity|apply IH].
Qed.

(** C8, as amended.  A run of the sync with [fix=True] never calls a
    removal.  When it returns, it has called the board API once for each
    entry of [missing_from_board], in order and whatever the earlier
    answers were, each time to add the issue with status "next", it has
    made no other call after reading the tracker and the board, and
    [fixes_applied] holds one note per entry: the success note, or the
    failure note with the reason the API gave.  When it raises, it
    stopped at one of the two reads, or at an attempt on which
    [add_issue_to_board] raised: the entries before it were attempted in
    order, the entries after it were not, and no result is returned. *)
Theorem sync_fix_attempts {W : Type} (h : handler W) (board_key : string)
  (w w' : W) (res : result SyncResult) (calls : list call) :
  run h (sync_board_with_beads board_key true) w = (res, w', calls) ->
  Forall (fun c => is_removal c = false) calls
  /\ match res with
     | Ok r =>
         exists (beads : list Bead) (owner project_num : string)
                (items : list BoardItem) (answers : list (bool * string)),
           length answers = length (missing_from_board r)
           /\ calls
              = Called LoadBeads beads
                :: Called (GhProjectItemList project_num owner) items
                :: zip_with (fix_call board_key) (missing_from_board r)
                     answers
           /\ fixes_applied r
              = zip_with fix_note (missing_from_board r) answers
           /\ length (fixes_applied r) = length (missing_from_board r)
     | Raise e =>
         (exists beads : list Bead, calls = [Called LoadBeads beads])
         \/ exists (beads : list Bead) (p0_beads : list P0Bead)
                   (owner project_num : string) (items : list BoardItem)
                   (answers : list (bool * string)) (bead : P0Bead),
              collect_p0_beads beads = Ok p0_beads
              /\ missing_of p0_beads items !! length answers = Some bead
              /\ calls
                 = Called LoadBeads beads
                   :: Called (GhProjectItemList project_num owner) items
                   :: zip_with (fix_call board_key)
                        (missing_of p0_beads items) answers
                   ++ [raised_call board_key bead e]
     end.
Proof.
  intros Hrun. destruct res as [r|e].
  - apply run_sync_board_with_beads in Hrun
      as (beads & p0_beads & owner & num & items & answers
          & _ & _ & _ & _ & Hlen & Hfix & Hcalls).
    split.
    + rewrite Hcalls. repeat (constructor; [reflexivity|]).
      apply no_removal_among_fix_calls.
    + exists beads, owner, num, items, answers.
      split; [exact Hlen|]. split; [exact Hcalls|]. split; [exact Hfix|].
      rewrite Hfix, length_zip_with. lia.
  - apply run_sync_board_with_beads_raised in Hrun
      as [[beads ->]|(_ & beads & p0_beads & owner & num & items & answers
                      & bead & Hp0 & _ & Hbead & ->)].
    + split; [repeat constructor|]. left. now exists beads.
    + split.
      * repeat (constructor; [reflexivity|]). apply Forall_app. split.
        -- apply no_removal_among_fix_calls.
        -- repeat constructor.
      * right. exists beads, p0_beads, owner, num, items, answers, bead.
        now repeat split.
Qed.

(** C8, the claim as stated: the project of the board cannot be found,
    so that the listing returns nothing and all three P0 beads are
    missing.  The first attempt raises, the two that remain are not made,
    and the run ends with the exception where the claim has three notes. *)
Lemma raised_attempt_aborts_sync :
  run unknown_project_handler (sync_board_with_beads "org/5" true) tt
  = (Raise ValueError, tt,
     [Called LoadBeads sample_beads;
      Called (GhProjectItemList "5" "org") [];
      Called (AddIssueToBoard "org/5" 13 "org/repo" (Some "next"))
        (Raise ValueError)])
  /\ (exists (r : SyncResult) (calls : list call),
        run unknown_project_handler (sync_board_with_beads "org/5" false) tt
        = (Ok r, tt, calls)
        /\ map p0_issue_number (missing_from_board r) = [13; 21; 22]).
Proof.
  split; [vm_compute; reflexivity|].
  eexists _, _. split; vm_compute; reflexivity.
Qed.

(** ** Contributors *)

Lemma elem_of_logins_of (records : list Authored) (x : string) :
  x ∈ logins_of records
  <-> exists r u,
        r ∈ records /\ authored_user r = Some u /\ login u = Some x
        /\ x <> EmptyString.
Proof.
  unfold logins_of.
  assert (H : forall acc : gset string,
             x ∈ fold_left
                   (fun acc r =>
                      match authored_user r with
                      | Some u =>
                          match login u with
                          | Some l => if nonempty l then acc ∪ {[l]} else acc
                          | None => acc
                          end
                      | None => acc
                      end)
                   records acc
             <-> x ∈ acc
                 \/ exists r u,
                      r ∈ records /\ authored_user r = Some u
                      /\ login u = Some x /\ x <> EmptyString).
  { induction records as [|r records IH]; intros acc; cbn [fold_left].
    - split; [now left|]. intros [H|(r & u & Hr & _)]; [exact H|].
      now apply elem_of_nil in Hr.
    - rewrite IH. clear IH. split.
      + intros [Hacc|(r' & u & Hr' & Hu & Hl & Hne)].
        * destruct (authored_user r) as [u|] eqn:Hu; [|now left].
          destruct (login u) as [l|] eqn:Hl; [|now left].
          destruct (nonempty l) eqn:Hne; [|now left].
          apply elem_of_union in Hacc as [Hacc|Hx]; [now left|].
          apply elem_of_singleton in Hx as ->. right.
          exists r, u. split; [left|]. repeat split; try assumption.
          now apply nonempty_true.
        * right. exists r', u. split; [now right|]. now repeat split.
      + intros [Hacc|(r' & u & Hr' & Hu & Hl & Hne)].
        * left. destruct (authored_user r) as [u|]; [|exact Hacc].
          destruct (login u) as [l|]; [|exact Hacc].
          destruct (nonempty l); [|exact Hacc].
          apply elem_of_union. now left.
        * apply elem_of_cons in Hr' as [->|Hr'].
          -- left. rewrite Hu, Hl.
             apply nonempty_true in Hne. rewrite Hne.
             apply elem_of_union. right. now apply elem_of_singleton.
          -- right. exists r', u. now repeat split. }
  rewrite H. split; [intros [Hin|Hex]; [set_solver|exact Hex]|now right].
Qed.

Lemma NoDup_list_of_set (s : gset string) : NoDup (list_of_set s).
Proof. apply NoDup_elements. Qed.

Lemma elem_of_list_of_set (s : gset string) (x : string) :
  x ∈ list_of_set s <-> x ∈ s.
Proof. apply elem_of_elements. Qed.

(** A reviewer is listed once, however many reviews they submitted. *)
Lemma fetch_pr_reviewers_spec
  (gh_api_reviews : string -> Z -> api_response Authored)
  (repo : string) (number : Z) :
  NoDup (fetch_pr_reviewers gh_api_reviews repo number)
  /\ forall x,
       x ∈ fetch_pr_reviewers gh_api_reviews repo number
       <-> exists reviews r u,
             gh_api_reviews repo number = ApiList reviews
             /\ r ∈ reviews /\ authored_user r = Some u
             /\ login u = Some x /\ x <> EmptyString.
Proof.
  unfold fetch_pr_reviewers.
  destruct (gh_api_reviews repo number) as [reviews|].
  - split; [apply NoDup_list_of_set|]. intros x.
    rewrite elem_of_list_of_set, elem_of_logins_of. split.
    + intros (r & u & H). now exists reviews, r, u.
    + intros (reviews' & r & u & [= <-] & H). now exists r, u.
  - split; [constructor|]. intros x. split.
    + intros H. now apply elem_of_nil in H.
    + intros (reviews & r & u & H & _). discriminate.
Qed.



(** ** Instances on the board and digest fixtures *)

Lemma sync_lists_disjoint_witness :
  exists (r : SyncResult) (calls : list call),
    run sample_handler (sync_board_with_beads "org/5" false) tt
    = (Ok r, tt, calls)
    /\ forall key : string * Z,
         key ∈ map p0_ref (missing_from_board r) ->
         key ∉ map board_ref (not_in_beads r).
Proof.
  eexists _, _. split; [vm_compute; reflexivity|].
  eapply (sync_lists_disjoint sample_handler "org/5" false tt tt).
  vm_compute. reflexivity.
Defined.

Lemma sync_fix_attempts_witness :
  exists (r : SyncResult) (calls : list call),
    run sample_handler (sync_board_with_beads "org/5" true) tt
    = (Ok r, tt, calls)
    /\ Forall (fun c => is_removal c = false) calls
    /\ exists (beads : list Bead) (owner project_num : string)
              (items : list BoardItem) (answers : list (bool * string)),
         length answers = length (missing_from_board r)
         /\ calls
            = Called LoadBeads beads
              :: Called (GhProjectItemList project_num owner) items
              :: zip_with (fix_call "org/5") (missing_from_board r) answers
         /\ fixes_applied r
            = zip_with fix_note (missing_from_board r) answers
         /\ length (fixes_applied r) = length (missing_from_board r).
Proof.
  eexists _, _. split; [vm_compute; reflexivity|].
  eapply (sync_fix_attempts sample_handler "org/5" tt tt (Ok _)).
  vm_compute. reflexivity.
Defined.


(** * Further properties *)

(** ** The matcher *)

Lemma append_cons (x : ascii) (a b : string) :
  String.append (String x a) b = String x (String.append a b).
Proof. reflexivity. Qed.

Lemma append_nil (b : string) : String.append EmptyString b = b.
Proof. reflexivity. Qed.

Lemma append_assoc (a b c : string) :
  String.append (String.append a b) c = String.append a (String.append b c).
Proof.
  induction a as [|x a IH]; [reflexivity|]. now rewrite !append_cons, IH.
Qed.

Lemma append_empty_r (a : string) : String.append a EmptyString = a.
Proof.
  induction a as [|x a IH]; [reflexivity|]. now rewrite append_cons, IH.
Qed.

Lemma all_chars_app (p : ascii -> bool) (a b : string) :
  all_chars p (String.append a b) = (all_chars p a && all_chars p b)%bool.
Proof.
  induction a as [|x a IH]; [reflexivity|].
  rewrite append_cons. cbn [all_chars]. now rewrite IH, andb_assoc.
Qed.

Lemma strip_prefix_sound (p s rest : string) :
  strip_prefix p s = Some rest -> s = String.append p rest.
Proof.
  revert s. induction p as [|a p IH]; intros s; cbn [strip_prefix].
  - now intros [= ->].
  - destruct s as [|b s]; [discriminate|].
    destruct (Ascii.eqb_spec a b) as [->|]; [|discriminate].
    intros H. now rewrite (IH _ H).
Qed.

Lemma strip_prefix_app (p rest : string) :
  strip_prefix p (String.append p rest) = Some rest.
Proof.
  induction p as [|a p IH]; [reflexivity|].
  rewrite append_cons. cbn [strip_prefix]. now rewrite Ascii.eqb_refl.
Qed.

Lemma greedy_sound {R : Type} (p : ascii -> bool) (s : string)
  (k : string -> string -> option R) (x : R) :
  greedy p s k = Some x ->
  exists m rest,
    s = String.append m rest /\ all_chars p m = true /\ k m rest = Some x.
Proof.
  revert k. induction s as [|c s IH]; intros k; cbn [greedy].
  - intros H. now exists EmptyString, EmptyString.
  - destruct (p c) eqn:Hc.
    + destruct (greedy p s _) as [y|] eqn:Hg.
      * intros [= ->]. apply IH in Hg as (m & rest & -> & Hm & Hk).
        exists (String c m), rest. cbn. now rewrite Hc, Hm.
      * intros H. now exists EmptyString, (String c s).
    + intros H. now exists EmptyString, (String c s).
Qed.

(** The longest run is tried first: when the rest of the pattern accepts
    it, that is the match. *)
Lemma greedy_longest {R : Type} (p : ascii -> bool) (m rest : string)
  (k : string -> string -> option R) (x : R) :
  all_chars p m = true -> stops p rest -> k m rest = Some x ->
  greedy p (String.append m rest) k = Some x.
Proof.
  revert k. induction m as [|c m IH]; intros k Hm Hrest Hk.
  - rewrite append_nil. destruct rest as [|c rest]; cbn [greedy]; [exact Hk|].
    cbn in Hrest. now rewrite Hrest.
  - cbn [all_chars] in Hm. apply andb_true_iff in Hm as [Hc Hm].
    rewrite append_cons. cbn [greedy]. rewrite Hc.
    now rewrite (IH (fun m0 rest0 => k (String c m0) rest0) Hm Hrest Hk).
Qed.

Lemma re_match_sound {R : Type} (r : regex) (s : string)
  (k : string -> list string -> string -> option R) (x : R) :
  re_match r s k = Some x ->
  exists m g rest,
    s = String.append m rest /\ matches r m g /\ k m g rest = Some x.
Proof.
  revert s k. induction r as [l|p|p|r1 IH1 r2 IH2|r IH]; intros s k;
    cbn [re_match matches].
  - destruct (strip_prefix l s) as [rest|] eqn:Hl; [|discriminate].
    intros Hk. apply strip_prefix_sound in Hl. now exists l, [], rest.
  - intros H. apply greedy_sound in H as (m & rest & -> & Hm & Hk).
    now exists m, [], rest.
  - destruct s as [|c s]; [discriminate|].
    destruct (p c) eqn:Hc; [|discriminate].
    intros H. apply greedy_sound in H as (m & rest & -> & Hm & Hk).
    exists (String c m), [], rest. cbn. rewrite Hc, Hm.
    repeat split; try assumption; discriminate.
  - intros H. apply IH1 in H as (m1 & g1 & rest1 & -> & H1 & H).
    apply IH2 in H as (m2 & g2 & rest2 & -> & H2 & Hk).
    exists (String.append m1 m2), (g1 ++ g2), rest2.
    split; [now rewrite append_assoc|]. split; [|exact Hk].
    now exists m1, m2, g1, g2.
  - intros H. apply IH in H as (m & g & rest & -> & Hm & Hk).
    exists m, (m :: g), rest. split; [reflexivity|]. split; [|exact Hk].
    now exists g.
Qed.

Lemma re_match_at_sound (r : regex) (s m : string) (g : list string) :
  re_match_at r s = Some (m, g) ->
  matches r m g /\ exists rest, s = String.append m rest.
Proof.
  unfold re_match_at. intros H.
  apply re_match_sound in H as (m' & g' & rest & -> & Hm & [= <- <-]).
  split; [exact Hm|now exists rest].
Qed.

Lemma re_search_sound (r : regex) (s : string) (g : list string) :
  re_search r s = Some g ->
  exists pre m rest,
    s = String.append pre (String.append m rest) /\ matches r m g.
Proof.
  induction s as [|c s IH]; cbn [re_search].
  - destruct (re_match_at r EmptyString) as [[m g']|] eqn:Hm; [|discriminate].
    intros [= ->]. apply re_match_at_sound in Hm as (Hm & rest & E).
    now exists EmptyString, m, rest.
  - destruct (re_match_at r (String c s)) as [[m g']|] eqn:Hm.
    + intros [= ->]. apply re_match_at_sound in Hm as (Hm & rest & E).
      now exists EmptyString, m, rest.
    + intros H. apply IH in H as (pre & m & rest & -> & Hm').
      now exists (String c pre), m, rest.
Qed.

Lemma re_findall_from_sound (r : regex) (skip : nat) (s : string)
  (g : list string) :
  g ∈ re_findall_from r skip s ->
  exists pre m rest,
    s = String.append pre (String.append m rest) /\ matches r m g.
Proof.
  revert skip. induction s as [|c s IH]; intros skip; cbn [re_findall_from].
  - intros H. now apply elem_of_nil in H.
  - assert (Hrec : forall n, g ∈ re_findall_from r n s ->
              exists pre m rest,
                String c s = String.append pre (String.append m rest)
                /\ matches r m g).
    { intros n H. apply IH in H as (pre & m & rest & -> & Hm).
      now exists (String c pre), m, rest. }
    destruct skip as [|n]; [|apply Hrec].
    destruct (re_match_at r (String c s)) as [[m g']|] eqn:Hm; [|apply Hrec].
    intros H. apply elem_of_cons in H as [->|H]; [|now apply Hrec in H].
    apply re_match_at_sound in Hm as (Hm & rest & E).
    now exists EmptyString, m, rest.
Qed.

(** ** Reference extraction *)

Lemma all_chars_impl (p q : ascii -> bool) (s : string) :
  (forall c, p c = true -> q c = true) ->
  all_chars p s = true -> all_chars q s = true.
Proof.
  intros Hpq. induction s as [|c s IH]; cbn [all_chars]; [reflexivity|].
  rewrite !andb_true_iff. intros [Hc Hs]. split; [now apply Hpq|now apply IH].
Qed.

Lemma token_stops_space (repo rest : string) :
  repo_token repo -> stops is_space (String.append repo rest).
Proof.
  intros [Hne Hall]. destruct repo as [|c repo]; [congruence|].
  rewrite append_cons. cbn [stops all_chars] in *.
  apply andb_true_iff in Hall as [Hc _]. unfold not_hash_space in Hc.
  apply andb_true_iff in Hc as [_ Hc]. now apply negb_true_iff in Hc.
Qed.

(** The three patterns on a marker that stands at the start of the text. *)
Lemma github_ref_at (ws repo digits rest : string) :
  all_chars is_space ws = true -> repo_token repo -> digit_run digits ->
  stops is_digit rest ->
  exists m,
    re_match_at GITHUB_REF_PATTERN
      (String.append "GitHub:"
         (String.append ws
            (String.append repo
               (String.append "#" (String.append digits rest)))))
    = Some (m, [String.append repo (String.append "#" digits)]).
Proof.
  intros Hws Hrepo [Hdne Hd] Hrest.
  pose proof (token_stops_space repo
                (String.append "#" (String.append digits rest)) Hrepo) as Hstop.
  destruct Hrepo as [Hrne Hr].
  destruct repo as [|c repo]; [congruence|].
  destruct digits as [|d digits]; [congruence|].
  cbn [all_chars] in Hr, Hd.
  apply andb_true_iff in Hr as [Hc Hr]. apply andb_true_iff in Hd as [Hd0 Hd].
  eexists. unfold re_match_at, GITHUB_REF_PATTERN. cbn [re_match].
  rewrite strip_prefix_app.
  apply greedy_longest; [exact Hws|exact Hstop|].
  rewrite append_cons. rewrite Hc.
  apply greedy_longest; [exact Hr|reflexivity|].
  rewrite strip_prefix_app. rewrite append_cons, Hd0.
  apply greedy_longest; [exact Hd|exact Hrest|].
  reflexivity.
Qed.

Lemma github_ref_parts_at (ws repo digits rest : string) :
  all_chars is_space ws = true -> repo_token repo -> digit_run digits ->
  stops is_digit rest ->
  exists m,
    re_match_at GITHUB_REF_PARTS_PATTERN
      (String.append "GitHub:"
         (String.append ws
            (String.append repo
               (String.append "#" (String.append digits rest)))))
    = Some (m, [repo; digits]).
Proof.
  intros Hws Hrepo [Hdne Hd] Hrest.
  pose proof (token_stops_space repo
                (String.append "#" (String.append digits rest)) Hrepo) as Hstop.
  destruct Hrepo as [Hrne Hr].
  destruct repo as [|c repo]; [congruence|].
  destruct digits as [|d digits]; [congruence|].
  cbn [all_chars] in Hr, Hd.
  apply andb_true_iff in Hr as [Hc Hr]. apply andb_true_iff in Hd as [Hd0 Hd].
  eexists. unfold re_match_at, GITHUB_REF_PARTS_PATTERN. cbn [re_match].
  rewrite strip_prefix_app.
  apply greedy_longest; [exact Hws|exact Hstop|].
  rewrite append_cons. rewrite Hc.
  apply greedy_longest; [exact Hr|reflexivity|].
  rewrite strip_prefix_app. rewrite append_cons, Hd0.
  apply greedy_longest; [exact Hd|exact Hrest|].
  reflexivity.
Qed.

Lemma board_marker_at (ws key item_id rest : string) :
  all_chars is_space ws = true -> repo_token key ->
  item_id <> EmptyString -> all_chars not_space item_id = true ->
  stops not_space rest ->
  exists m,
    re_match_at BOARD_MARKER_PATTERN
      (String.append "Board:"
         (String.append ws
            (String.append key
               (String.append "#" (String.append item_id rest)))))
    = Some (m, [key; item_id]).
Proof.
  intros Hws Hkey Hine Hi Hrest.
  pose proof (token_stops_space key
                (String.append "#" (String.append item_id rest)) Hkey) as Hstop.
  destruct Hkey as [Hkne Hk].
  destruct key as [|c key]; [congruence|].
  destruct item_id as [|d item_id]; [congruence|].
  cbn [all_chars] in Hk, Hi.
  apply andb_true_iff in Hk as [Hc Hk]. apply andb_true_iff in Hi as [Hd0 Hi].
  eexists. unfold re_match_at, BOARD_MARKER_PATTERN. cbn [re_match].
  rewrite strip_prefix_app.
  apply greedy_longest; [exact Hws|exact Hstop|].
  rewrite append_cons. rewrite Hc.
  apply greedy_longest; [exact Hk|reflexivity|].
  rewrite strip_prefix_app. rewrite append_cons, Hd0.
  apply greedy_longest; [exact Hi|exact Hrest|].
  reflexivity.
Qed.

(** ** Integers and their decimal text *)

Lemma string_of_uint_digits (d : Decimal.uint) :
  all_chars is_digit (NilEmpty.string_of_uint d) = true.
Proof. induction d; cbn [NilEmpty.string_of_uint all_chars]; auto. Qed.

Lemma str_of_Z_digit_run (n : Z) : 0 <= n -> digit_run (str_of_Z n).
Proof.
  intros Hn. unfold str_of_Z, digit_run.
  destruct n as [|p|p]; [split; [discriminate|reflexivity]| |lia].
  cbn [Z.to_int NilZero.string_of_int].
  pose proof (DecimalPos.Unsigned.to_uint_nonnil p) as Hnil.
  destruct (Pos.to_uint p) as [|d|d|d|d|d|d|d|d|d|d] eqn:E; [congruence|..];
    (split; [discriminate|]); rewrite <- E;
    unfold NilZero.string_of_uint; rewrite E; rewrite <- E;
    apply string_of_uint_digits.
Qed.

Lemma parse_digits_digit (c : ascii) (s : string) (acc : Z) (b : bool) :
  is_digit c = true ->
  parse_digits acc b (String c s)
  = parse_digits (10 * acc + digit_value c) true s.
Proof. intros H. cbn [parse_digits]. now rewrite H. Qed.

Ltac digit_step :=
  rewrite parse_digits_digit by reflexivity;
  match goal with
  | |- context [digit_value ?c] =>
      let v := eval vm_compute in (digit_value c) in
      change (digit_value c) with v
  end.

Lemma parse_digits_string_of_uint (d : Decimal.uint) (acc : Z) :
  parse_digits acc true (NilEmpty.string_of_uint d)
  = Some (digits_value d acc).
Proof.
  revert acc. induction d; intros acc;
    cbn [NilEmpty.string_of_uint digits_value];
    [reflexivity|..]; digit_step; rewrite IHd; do 2 f_equal; lia.
Qed.

Lemma parse_digits_first (d : Decimal.uint) :
  d <> Decimal.Nil ->
  parse_digits 0 false (NilEmpty.string_of_uint d)
  = Some (digits_value d 0).
Proof.
  destruct d; [congruence|..]; intros _;
    cbn [NilEmpty.string_of_uint digits_value];
    digit_step; rewrite parse_digits_string_of_uint; reflexivity.
Qed.

Lemma digits_value_acc (d : Decimal.uint) (acc : positive) :
  digits_value d (Z.pos acc) = Z.pos (Pos.of_uint_acc d acc).
Proof.
  revert acc. induction d; intros acc; cbn [digits_value Pos.of_uint_acc];
    [reflexivity|..];
    match goal with
    | |- digits_value _ ?z = _ =>
        match goal with
        | |- _ = Z.pos (Pos.of_uint_acc _ ?q) =>
            replace z with (Z.pos q) by lia
        end
    end; apply IHd.
Qed.

Lemma digits_value_of_uint (d : Decimal.uint) :
  digits_value d 0 = Z.of_N (Pos.of_uint d).
Proof.
  induction d; cbn [digits_value Pos.of_uint]; [reflexivity|exact IHd|..];
    match goal with
    | |- digits_value _ ?z = Z.of_N (N.pos (Pos.of_uint_acc _ ?q)) =>
        replace z with (Z.pos q) by lia
    end; apply digits_value_acc.
Qed.

Lemma rev_str_twice (s acc1 acc2 : string) :
  rev_str acc2 (rev_str acc1 s) = rev_str (String.append s acc2) acc1.
Proof.
  revert acc1. induction s as [|c s IH]; intros acc1; cbn [rev_str].
  - now rewrite append_nil.
  - rewrite IH. now rewrite append_cons.
Qed.

Lemma all_chars_rev_str (p : ascii -> bool) (s acc : string) :
  all_chars p (rev_str acc s) = (all_chars p s && all_chars p acc)%bool.
Proof.
  revert acc. induction s as [|c s IH]; intros acc; cbn [rev_str all_chars];
    [reflexivity|].
  rewrite IH. cbn [all_chars]. destruct (p c), (all_chars p s); reflexivity.
Qed.

Lemma lstrip_no_space (s : string) :
  all_chars not_space s = true -> lstrip s = s.
Proof.
  destruct s as [|c s]; [reflexivity|]. cbn [all_chars lstrip].
  intros H. apply andb_true_iff in H as [Hc _].
  unfold not_space in Hc. apply negb_true_iff in Hc. now rewrite Hc.
Qed.

Lemma strip_no_space (s : string) :
  all_chars not_space s = true -> strip s = s.
Proof.
  intros H. unfold strip. rewrite (lstrip_no_space s H).
  rewrite lstrip_no_space.
  - now rewrite rev_str_twice, append_empty_r.
  - now rewrite all_chars_rev_str, H.
Qed.

Lemma digit_not_space (c : ascii) : is_digit c = true -> not_space c = true.
Proof.
  unfold is_digit, not_space, is_space, between, code.
  intros H. apply negb_true_iff.
  apply andb_true_iff in H as [H1 H2].
  apply Nat.leb_le in H1, H2.
  repeat rewrite orb_false_iff. repeat split.
  - apply andb_false_iff. right. apply Nat.leb_gt. lia.
  - apply andb_false_iff. right. apply Nat.leb_gt. lia.
  - apply Nat.eqb_neq. lia.
  - apply Nat.eqb_neq. lia.
Qed.

(** [int(str(n))] is [n]. *)
Lemma py_int_str_of_Z (n : Z) : py_int (str_of_Z n) = Ok n.
Proof.
  unfold str_of_Z. destruct n as [|p|p]; [reflexivity| |].
  - cbn [Z.to_int NilZero.string_of_int].
    pose proof (DecimalPos.Unsigned.to_uint_nonnil p) as Hnil.
    assert (E : NilZero.string_of_uint (Pos.to_uint p)
                = NilEmpty.string_of_uint (Pos.to_uint p)).
    { unfold NilZero.string_of_uint. now destruct (Pos.to_uint p). }
    rewrite E. unfold py_int.
    rewrite strip_no_space
      by (eapply all_chars_impl; [apply digit_not_space|];
          apply string_of_uint_digits).
    assert (Hsign : match NilEmpty.string_of_uint (Pos.to_uint p) with
                    | String "-" s' => (-1, s')
                    | String "+" s' => (1, s')
                    | _ => (1, NilEmpty.string_of_uint (Pos.to_uint p))
                    end = (1, NilEmpty.string_of_uint (Pos.to_uint p))).
    { now destruct (Pos.to_uint p). }
    rewrite Hsign. cbn [fst snd].
    rewrite parse_digits_first by assumption.
    rewrite digits_value_of_uint, DecimalPos.Unsigned.of_to. reflexivity.
  - cbn [Z.to_int NilZero.string_of_int].
    pose proof (DecimalPos.Unsigned.to_uint_nonnil p) as Hnil.
    assert (E : NilZero.string_of_uint (Pos.to_uint p)
                = NilEmpty.string_of_uint (Pos.to_uint p)).
    { unfold NilZero.string_of_uint. now destruct (Pos.to_uint p). }
    rewrite E. unfold py_int.
    rewrite strip_no_space.
    2: { cbn [all_chars]. apply andb_true_iff. split; [reflexivity|].
         eapply all_chars_impl; [apply digit_not_space|].
         apply string_of_uint_digits. }
    cbn [fst snd].
    rewrite parse_digits_first by assumption.
    rewrite digits_value_of_uint, DecimalPos.Unsigned.of_to. reflexivity.
Qed.

Lemma split_on_nonempty (sep : ascii) (s : string) : split_on sep s <> [].
Proof.
  destruct s as [|c s]; cbn [split_on]; [discriminate|].
  destruct (Ascii.eqb c sep); [discriminate|].
  now destruct (split_on sep s).
Qed.

Lemma split_on_no_sep (sep : ascii) (s : string) :
  no_char sep s -> split_on sep s = [s].
Proof.
  unfold no_char. induction s as [|c s IH]; cbn [all_chars split_on];
    [reflexivity|].
  intros H. apply andb_true_iff in H as [Hc Hs].
  apply negb_true_iff in Hc. rewrite Hc. now rewrite (IH Hs).
Qed.

Lemma split_on_app_sep (sep : ascii) (a b : string) :
  exists firsts,
    firsts <> []
    /\ split_on sep (String.append a (String sep b))
       = firsts ++ split_on sep b.
Proof.
  induction a as [|c a (firsts & Hne & IH)].
  - exists [EmptyString]. split; [discriminate|].
    rewrite append_nil. cbn [split_on]. now rewrite Ascii.eqb_refl.
  - rewrite append_cons. cbn [split_on]. rewrite IH.
    destruct (Ascii.eqb c sep).
    + exists (EmptyString :: firsts). split; [discriminate|reflexivity].
    + destruct firsts as [|f fs]; [congruence|].
      exists (String c f :: fs). split; [discriminate|reflexivity].
Qed.

(** The last segment of a path is what follows its last separator. *)
Lemma last_segment_app (sep : ascii) (a b : string) :
  no_char sep b ->
  last_str (split_on sep (String.append a (String sep b))) = b.
Proof.
  intros Hb. destruct (split_on_app_sep sep a b) as (firsts & _ & ->).
  rewrite (split_on_no_sep sep b Hb). unfold last_str.
  now rewrite List.last_last.
Qed.

Lemma str_of_Z_no_slash (n : Z) : no_char "/" (str_of_Z n).
Proof.
  assert (Hd : forall d, no_char "/" (NilEmpty.string_of_uint d)).
  { intros d. unfold no_char.
    induction d; cbn [NilEmpty.string_of_uint all_chars]; auto. }
  unfold str_of_Z. destruct n as [|p|p]; [reflexivity| |];
    cbn [Z.to_int NilZero.string_of_int];
    pose proof (DecimalPos.Unsigned.to_uint_nonnil p) as Hnil;
    assert (E : NilZero.string_of_uint (Pos.to_uint p)
                = NilEmpty.string_of_uint (Pos.to_uint p))
      by (unfold NilZero.string_of_uint; now destruct (Pos.to_uint p));
    rewrite E.
  - apply Hd.
  - unfold no_char. cbn [all_chars]. apply andb_true_iff.
    split; [reflexivity|apply Hd].
Qed.

(** X1.  A comment whose parent URL ends in a slash and the decimal text
    of a number belongs to the item of that number: [issue_url] is read
    first, [pull_request_url] when there is no [issue_url].  The text has
    at most 4300 characters, the length up to which [int] converts. *)
Theorem comment_number_of_url (c : Comment) (base : string) (n : Z) :
  (String.length (str_of_Z n) <= 4300)%nat ->
  issue_url c = Some (String.append base (String "/" (str_of_Z n)))
  \/ (issue_url c = None
      /\ pull_request_url c
         = Some (String.append base (String "/" (str_of_Z n)))) ->
  get_comment_item_number c = Ok (Some n).
Proof.
  unfold get_comment_item_number.
  intros _ [->|[-> ->]];
    rewrite (last_segment_app "/" base _ (str_of_Z_no_slash n));
    now rewrite py_int_str_of_Z.
Qed.

Lemma comment_number_of_url_witness :
  get_comment_item_number
    {| issue_url := None;
       pull_request_url :=
         Some (String.append "https://api.github.com/repos/org/repo/pulls"
                 (String "/" (str_of_Z 1207)));
       comment_user := None;
       updated_at := None;
       created_at := None |}
  = Ok (Some 1207).
Proof.
  apply (comment_number_of_url _
           "https://api.github.com/repos/org/repo/pulls" 1207).
  - cbn. lia.
  - right. split; reflexivity.
Defined.

(** A search or a scan passes over a prefix without the first letter of
    the marker. *)
Lemma literal_first_letter (x : ascii) (l : string) (r : regex)
  (c : ascii) (s : string) :
  Ascii.eqb c x = false ->
  re_match_at (Cat (Lit (String x l)) r) (String c s) = None.
Proof.
  intros H. unfold re_match_at. cbn [re_match strip_prefix].
  rewrite Ascii.eqb_sym in H. now rewrite H.
Qed.

Lemma re_search_skip (x : ascii) (l : string) (r : regex) (pre s : string) :
  no_char x pre ->
  re_search (Cat (Lit (String x l)) r) (String.append pre s)
  = re_search (Cat (Lit (String x l)) r) s.
Proof.
  unfold no_char. induction pre as [|c pre IH]; [reflexivity|].
  cbn [all_chars]. intros H. apply andb_true_iff in H as [Hc Hpre].
  apply negb_true_iff in Hc. rewrite append_cons.
  cbn [re_search]. rewrite (literal_first_letter x l r c _ Hc).
  now apply IH.
Qed.

Lemma re_findall_skip (x : ascii) (l : string) (r : regex) (pre s : string) :
  no_char x pre ->
  re_findall (Cat (Lit (String x l)) r) (String.append pre s)
  = re_findall (Cat (Lit (String x l)) r) s.
Proof.
  unfold no_char, re_findall. induction pre as [|c pre IH]; [reflexivity|].
  cbn [all_chars]. intros H. apply andb_true_iff in H as [Hc Hpre].
  apply negb_true_iff in Hc. rewrite append_cons.
  cbn [re_findall_from]. rewrite (literal_first_letter x l r c _ Hc).
  now apply IH.
Qed.

Lemma re_search_at (r : regex) (s m : string) (g : list string) :
  re_match_at r s = Some (m, g) -> re_search r s = Some g.
Proof. intros H. destruct s; cbn [re_search]; now rewrite H. Qed.

(** X2.  Every reference extracted from a description stands in it after
    the word [GitHub:] and optional white space, and is a repository
    without [#] or white space, a [#] and a run of digits. *)
Theorem github_refs_shape (desc ref : string) :
  ref ∈ extract_github_refs_from_description desc ->
  exists pre ws repo digits rest,
    desc = String.append pre
             (String.append "GitHub:"
                (String.append ws (String.append ref rest)))
    /\ ref = String.append repo (String.append "#" digits)
    /\ all_chars is_space ws = true
    /\ repo_token repo
    /\ digit_run digits.
Proof.
  unfold extract_github_refs_from_description. intros H.
  apply list_elem_of_In, in_flat_map in H as (g & Hg & Hin).
  apply list_elem_of_In, re_findall_from_sound in Hg
    as (pre & m & rest & -> & Hm).
  cbn [matches GITHUB_REF_PATTERN] in Hm.
  destruct Hm as (m1 & m2 & g1 & g2 & -> & -> & [-> ->] & Hm).
  destruct Hm as (m3 & m4 & g3 & g4 & -> & -> & [Hws ->] & Hm).
  destruct Hm as (g5 & -> & Hm).
  destruct Hm as (m5 & m6 & g6 & g7 & -> & -> & (Hne & Hrepo & ->) & Hm).
  destruct Hm as (m7 & m8 & g8 & g9 & -> & -> & [-> ->]
                  & (Hdne & Hdigits & ->)).
  cbn in Hin. destruct Hin as [<-|[]].
  exists pre, m3, m5, m8, rest. repeat split; try assumption.
  now rewrite !append_assoc.
Qed.

Lemma github_refs_shape_witness :
  exists pre ws repo digits rest,
    "see GitHub: org/repo#12, soon"
    = String.append pre
        (String.append "GitHub:"
           (String.append ws (String.append "org/repo#12" rest)))
    /\ "org/repo#12" = String.append repo (String.append "#" digits)
    /\ all_chars is_space ws = true
    /\ repo_token repo
    /\ digit_run digits.
Proof.
  apply github_refs_shape. vm_compute. left.
Defined.

(** The scan finds the first marker that stands after text without the
    letter G. *)
Lemma findall_github_ref (pre ws repo digits rest : string) :
  no_char "G" pre ->
  all_chars is_space ws = true ->
  repo_token repo ->
  digit_run digits ->
  stops is_digit rest ->
  exists others,
    re_findall GITHUB_REF_PATTERN
      (String.append pre
         (String.append "GitHub:"
            (String.append ws
               (String.append repo
                  (String.append "#" (String.append digits rest))))))
    = [String.append repo (String.append "#" digits)] :: others.
Proof.
  intros Hpre Hws Hrepo Hdigits Hrest.
  destruct (github_ref_at ws repo digits rest Hws Hrepo Hdigits Hrest)
    as [m Hm].
  unfold GITHUB_REF_PATTERN.
  rewrite re_findall_skip by exact Hpre.
  fold GITHUB_REF_PATTERN. unfold re_findall.
  change (String.append "GitHub:" ?s) with (String "G" (String.append "itHub:" s)).
  cbn [re_findall_from].
  change (String "G" (String.append "itHub:" ?s))
    with (String.append "GitHub:" s).
  rewrite Hm. eauto.
Qed.

(** X3.  A marker [GitHub:], white space or none, [repo#digits], not
    followed by a further digit, is found wherever it stands after text
    without the letter G: its reference is the first one extracted. *)
Theorem github_ref_extracted (pre ws repo digits rest : string) :
  no_char "G" pre ->
  all_chars is_space ws = true ->
  repo_token repo ->
  digit_run digits ->
  stops is_digit rest ->
  exists others,
    extract_github_refs_from_description
      (String.append pre
         (String.append "GitHub:"
            (String.append ws
               (String.append repo
                  (String.append "#" (String.append digits rest))))))
    = String.append repo (String.append "#" digits) :: others.
Proof.
  intros Hpre Hws Hrepo Hdigits Hrest.
  unfold extract_github_refs_from_description.
  destruct (findall_github_ref pre ws repo digits rest
              Hpre Hws Hrepo Hdigits Hrest) as [others ->].
  cbn [flat_map app]. eauto.
Qed.

Lemma github_ref_extracted_witness :
  exists others,
    extract_github_refs_from_description
      (String.append "    "
         (String.append "GitHub:"
            (String.append " "
               (String.append "org/repo"
                  (String.append "#" (String.append "14" "."))))))
    = String.append "org/repo" (String.append "#" "14") :: others.
Proof.
  apply github_ref_extracted.
  - reflexivity.
  - reflexivity.
  - split; [discriminate|reflexivity].
  - split; [discriminate|reflexivity].
  - reflexivity.
Defined.

(** X4.  When [parse_board_marker] finds a marker, the description holds
    [Board:], optional white space, the board key, a [#] and the item
    identifier; the key is not empty and has neither [#] nor white space,
    the identifier is not empty and has no white space. *)
Theorem board_marker_shape (desc board_key item_id : string) :
  parse_board_marker desc = Some (board_key, item_id) ->
  exists pre ws rest,
    desc = String.append pre
             (String.append "Board:"
                (String.append ws
                   (String.append board_key
                      (String.append "#" (String.append item_id rest)))))
    /\ all_chars is_space ws = true
    /\ repo_token board_key
    /\ item_id <> EmptyString
    /\ all_chars not_space item_id = true.
Proof.
  unfold parse_board_marker.
  destruct (re_search BOARD_MARKER_PATTERN desc) as [g|] eqn:Hs;
    [|discriminate].
  apply re_search_sound in Hs as (pre & m & rest & -> & Hm).
  cbn [matches BOARD_MARKER_PATTERN] in Hm.
  destruct Hm as (m1 & m2 & g1 & g2 & -> & -> & [-> ->] & Hm).
  destruct Hm as (m3 & m4 & g3 & g4 & -> & -> & [Hws ->] & Hm).
  destruct Hm as (m5 & m6 & g5 & g6 & -> & -> & Hkey & Hm).
  destruct Hkey as (g7 & -> & Hkne & Hkey & ->).
  destruct Hm as (m7 & m8 & g8 & g9 & -> & -> & [-> ->] & Hid).
  destruct Hid as (g10 & -> & Hine & Hid & ->).
  cbn. intros [= <- <-].
  exists pre, m3, rest. repeat split; try assumption.
  now rewrite !append_assoc.
Qed.

Lemma board_marker_shape_witness :
  exists pre ws rest,
    "Draft. Board: matsengrp/28#PVTI_xxx (added)"
    = String.append pre
        (String.append "Board:"
           (String.append ws
              (String.append "matsengrp/28"
                 (String.append "#" (String.append "PVTI_xxx" rest)))))
    /\ all_chars is_space ws = true
    /\ repo_token "matsengrp/28"
    /\ "PVTI_xxx" <> EmptyString
    /\ all_chars not_space "PVTI_xxx" = true.
Proof.
  apply board_marker_shape. vm_compute. reflexivity.
Defined.

(** X5.  The line the board report prints for a new draft,
    [Board: key#id], is read back as that key and that identifier: after
    any text without the letter B, with any white space after the colon,
    and up to the next white space. *)
Theorem board_marker_round_trip (pre ws board_key item_id rest : string) :
  no_char "B" pre ->
  all_chars is_space ws = true ->
  repo_token board_key ->
  item_id <> EmptyString ->
  all_chars not_space item_id = true ->
  stops not_space rest ->
  parse_board_marker
    (String.append pre
       (String.append "Board:"
          (String.append ws
             (String.append board_key
                (String.append "#" (String.append item_id rest))))))
  = Some (board_key, item_id).
Proof.
  intros Hpre Hws Hkey Hine Hid Hrest.
  destruct (board_marker_at ws board_key item_id rest Hws Hkey Hine Hid Hrest)
    as [m Hm].
  unfold parse_board_marker, BOARD_MARKER_PATTERN.
  rewrite re_search_skip by exact Hpre.
  fold BOARD_MARKER_PATTERN.
  now rewrite (re_search_at _ _ _ _ Hm).
Qed.

Lemma board_marker_round_trip_witness :
  parse_board_marker
    (String.append "    "
       (String.append "Board:"
          (String.append " "
             (String.append "org/5"
                (String.append "#" (String.append "ITEM_9" " done"))))))
  = Some ("org/5", "ITEM_9").
Proof.
  apply board_marker_round_trip.
  - reflexivity.
  - reflexivity.
  - split; [discriminate|reflexivity].
  - discriminate.
  - reflexivity.
  - reflexivity.
Defined.

(** Whatever [check_boards] lists as an orphan meets the condition of the
    loop, for the references of the beads. *)
Lemma check_boards_orphan_condition
  (fetch_board_items : string -> string -> list BoardItem)
  (boards : list (string * string)) (beads : list Bead)
  (board_key : string) (changes : BoardChanges) (item : BoardItem) :
  od_get board_key (check_boards fetch_board_items boards beads)
  = Some changes ->
  item ∈ orphan_issues changes ->
  orphan_condition (collect_all_github_refs beads) item.
Proof.
  intros Hget Hitem. unfold check_boards in Hget.
  apply check_boards_sound in Hget as [Hget|(p & o & n & _ & _ & Hc)];
    [discriminate|].
  apply check_board_orphans in Hc. rewrite Hc in Hitem.
  now apply elem_of_find_orphan_issues in Hitem as [_ Hcond].
Qed.

(** X6.  An item is no orphan once a bead carries the line the report
    prints for it: if the description of some bead holds [GitHub:], white
    space or none, and the item's [repo#number] (the repository without
    [#] or white space, the number positive), then no board of the report
    lists the item as an orphan. *)
Theorem tracked_item_not_orphan
  (fetch_board_items : string -> string -> list BoardItem)
  (boards : list (string * string)) (beads : list Bead)
  (item : BoardItem) (b : Bead) (pre ws rest : string) (n : Z) :
  b ∈ beads ->
  get_description b
  = String.append pre
      (String.append "GitHub:"
         (String.append ws (String.append (board_item_ref item) rest))) ->
  no_char "G" pre ->
  all_chars is_space ws = true ->
  repo_token (item_repo item) ->
  item_number item = Some n ->
  0 < n ->
  stops is_digit rest ->
  forall (board_key : string) (changes : BoardChanges),
    od_get board_key (check_boards fetch_board_items boards beads)
    = Some changes ->
    item ∉ orphan_issues changes.
Proof.
  intros Hb Hdesc Hpre Hws Hrepo Hnum Hn Hrest board_key changes Hget Hitem.
  destruct (check_boards_orphan_condition _ _ _ _ _ _ Hget Hitem)
    as (_ & _ & _ & Href).
  apply Href. apply elem_of_collect_all_github_refs.
  exists b. split; [exact Hb|]. rewrite Hdesc.
  unfold board_item_ref in *. rewrite Hnum.
  change (default 0 (Some n)) with n.
  rewrite !append_assoc.
  unfold extract_github_refs_from_description.
  destruct (findall_github_ref pre ws (item_repo item) (str_of_Z n) rest
              Hpre Hws Hrepo (str_of_Z_digit_run n ltac:(lia)) Hrest)
    as [others ->].
  left.
Qed.

Lemma tracked_item_not_orphan_witness :
  board_issue "PVTI_2" "org/repo" 13 "Next" ∉ orphan_issues sample_changes.
Proof.
  apply (tracked_item_not_orphan sample_fetch [("org/5", "3")] sample_beads
           (board_issue "PVTI_2" "org/repo" 13 "Next")
           (bead "3.1" "Tracked. GitHub: org/repo#13" 0)
           "Tracked. " " " "" 13
           ltac:(left) eq_refl eq_refl eq_refl
           ltac:(split; [discriminate|reflexivity]) eq_refl
           ltac:(lia) I "org/5").
  vm_compute. reflexivity.
Defined.

(** ** Board keys *)

Lemma split_on_cons_inv (sep : ascii) (s a : string) (l : list string) :
  split_on sep s = a :: l ->
  no_char sep a
  /\ ((l = [] /\ s = a)
      \/ exists s', s = String.append a (String sep s')
                    /\ split_on sep s' = l).
Proof.
  revert a l. induction s as [|c s IH]; intros a l; cbn [split_on].
  - intros [= <- <-]. split; [reflexivity|]. now left.
  - destruct (Ascii.eqb c sep) eqn:E.
    + intros [= <- <-]. apply Ascii.eqb_eq in E as ->.
      split; [reflexivity|]. right. exists s. now rewrite append_nil.
    + destruct (split_on sep s) as [|w ws] eqn:Hs.
      * now apply split_on_nonempty in Hs.
      * intros [= <- <-]. destruct (IH w ws eq_refl) as [Hw Hcases]. split.
        -- unfold no_char in *. cbn [all_chars]. now rewrite E.
        -- destruct Hcases as [[-> ->]|(s' & -> & Hs')]; [now left|].
           right. exists s'. now rewrite append_cons.
Qed.

Lemma split_on_app_first (sep : ascii) (a b : string) :
  no_char sep a ->
  split_on sep (String.append a (String sep b)) = a :: split_on sep b.
Proof.
  unfold no_char. induction a as [|c a IH]; cbn [all_chars].
  - intros _. rewrite append_nil. cbn [split_on]. now rewrite Ascii.eqb_refl.
  - intros H. apply andb_true_iff in H as [Hc Ha].
    apply negb_true_iff in Hc. rewrite append_cons. cbn [split_on].
    now rewrite Hc, (IH Ha).
Qed.

(** X7.  [parse_board_key] returns an owner and a number exactly for the
    keys [owner/number] with a single slash; every other key raises. *)
Theorem parse_board_key_iff (board_key owner project_num : string) :
  parse_board_key board_key = Ok (owner, project_num)
  <-> board_key = String.append owner (String "/" project_num)
      /\ no_char "/" owner /\ no_char "/" project_num.
Proof.
  unfold parse_board_key. split.
  - destruct (split_on "/" board_key) as [|a [|b [|c l]]] eqn:Hs;
      try discriminate.
    intros [= <- <-].
    apply split_on_cons_inv in Hs as [Ha [[? _]|(s' & -> & Hs')]];
      [discriminate|].
    apply split_on_cons_inv in Hs' as [Hb [[_ ->]|(s'' & _ & Hs'')]];
      [now repeat split|].
    now apply split_on_nonempty in Hs''.
  - intros (-> & Ho & Hn).
    now rewrite (split_on_app_first _ _ _ Ho), (split_on_no_sep _ _ Hn).
Qed.

(** ** The numbers [int] reads *)

Lemma parse_digits_lower (s : string) (acc v : Z) (b : bool) :
  parse_digits acc b s = Some v -> 0 <= acc -> 0 <= v.
Proof.
  revert acc b. induction s as [|c s IH]; intros acc b; cbn [parse_digits].
  - destruct b; [|discriminate]. intros [= <-]. auto.
  - destruct (is_digit c).
    + intros H Hacc. apply (IH _ _ H). unfold digit_value. lia.
    + destruct (Ascii.eqb c "_"); [|discriminate].
      destruct b; [|discriminate]. apply IH.
Qed.

Lemma parse_digits_run (s : string) (acc : Z) (b : bool) :
  all_chars is_digit s = true -> (s <> EmptyString \/ b = true) ->
  exists v, parse_digits acc b s = Some v.
Proof.
  revert acc b. induction s as [|c s IH]; intros acc b; cbn [all_chars].
  - intros _ [H | ->]; [congruence|]. now exists acc.
  - intros H _. apply andb_true_iff in H as [Hc Hs].
    rewrite (parse_digits_digit c s acc b Hc). apply IH; auto.
Qed.

(** A run of digits is read by [int] as a number that is not negative. *)
Lemma py_int_digit_run (digits : string) :
  digit_run digits -> exists n, py_int digits = Ok n /\ 0 <= n.
Proof.
  intros [Hne Hd]. unfold py_int.
  rewrite strip_no_space
    by (eapply all_chars_impl; [apply digit_not_space|exact Hd]).
  assert (Hsign : match digits with
                  | String "-" s' => (-1, s')
                  | String "+" s' => (1, s')
                  | _ => (1, digits)
                  end = (1, digits)).
  { destruct digits as [|c s]; [reflexivity|].
    cbn [all_chars] in Hd. apply andb_true_iff in Hd as [Hc _].
    destruct c as [[] [] [] [] [] [] [] []]; try reflexivity; discriminate. }
  rewrite Hsign. cbn [fst snd].
  destruct (parse_digits_run digits 0 false Hd (or_introl Hne)) as [v Hv].
  rewrite Hv. exists (1 * v). split; [reflexivity|].
  apply parse_digits_lower in Hv; lia.
Qed.

Lemma py_int_raises (s : string) (e : pyexn) :
  py_int s = Raise e -> e = ValueError.
Proof.
  unfold py_int. destruct (parse_digits _ _ _); [discriminate|].
  now intros [= <-].
Qed.

(** ** The P0 beads *)

Lemma p0_bead_of_raises (bead : Bead) (e : pyexn) :
  p0_bead_of bead = Raise e -> e = ValueError.
Proof.
  unfold p0_bead_of. destruct (bool_decide _); [discriminate|].
  destruct (re_search _ _) as [[|repo [|digits [|x l]]]|]; try discriminate.
  destruct (py_int digits) eqn:E; cbn; [discriminate|].
  intros [= <-]. now apply py_int_raises in E.
Qed.

Lemma collect_p0_beads_raises (beads : list Bead) (e : pyexn) :
  collect_p0_beads beads = Raise e -> e = ValueError.
Proof.
  induction beads as [|bead beads IH]; cbn [collect_p0_beads];
    [discriminate|].
  destruct (p0_bead_of bead) as [b|e'] eqn:Hb; cbn.
  - destruct (collect_p0_beads beads) as [rest|e'']; cbn; [discriminate|].
    intros [= <-]. now apply IH.
  - intros [= <-]. now apply p0_bead_of_raises in Hb.
Qed.

(** X8.  A P0 bead found by [get_p0_beads_with_github_refs] comes from a
    bead of priority 0 whose description holds [GitHub:], white space or
    none, the repository, a [#] and a run of digits; its repository has
    neither [#] nor white space, and its issue number is the number the
    digits spell, never a negative one. *)
Theorem p0_bead_shape (bead : Bead) (p : P0Bead) :
  p0_bead_of bead = Ok (Some p) ->
  priority bead = Some 0
  /\ p0_bead_id p = default EmptyString (bead_id bead)
  /\ p0_title p = default EmptyString (bead_title bead)
  /\ 0 <= p0_issue_number p
  /\ exists pre ws digits rest,
       get_description bead
       = String.append pre
           (String.append "GitHub:"
              (String.append ws
                 (String.append (p0_repo p)
                    (String.append "#" (String.append digits rest)))))
       /\ all_chars is_space ws = true
       /\ repo_token (p0_repo p)
       /\ digit_run digits
       /\ py_int digits = Ok (p0_issue_number p).
Proof.
  unfold p0_bead_of.
  destruct (bool_decide (priority bead ≠ Some 0)) eqn:Hp; [discriminate|].
  apply bool_decide_eq_false in Hp. apply dec_stable in Hp.
  destruct (re_search GITHUB_REF_PARTS_PATTERN (get_description bead))
    as [g|] eqn:Hs; [|discriminate].
  apply re_search_sound in Hs as (pre & m & rest & Hdesc & Hm).
  cbn [matches GITHUB_REF_PARTS_PATTERN] in Hm.
  destruct Hm as (m1 & m2 & g1 & g2 & -> & -> & [-> ->] & Hm).
  destruct Hm as (m3 & m4 & g3 & g4 & -> & -> & [Hws ->] & Hm).
  destruct Hm as (m5 & m6 & g5 & g6 & -> & -> & Hrepo & Hm).
  destruct Hrepo as (g7 & -> & Hrne & Hrepo & ->).
  destruct Hm as (m7 & m8 & g8 & g9 & -> & -> & [-> ->] & Hd).
  destruct Hd as (g10 & -> & Hdne & Hd & ->).
  cbn [app].
  destruct (py_int_digit_run m8 (conj Hdne Hd)) as (n & Hn & Hpos).
  rewrite Hn. cbn. intros [= <-]. cbn.
  repeat split; try assumption.
  exists pre, m3, m8, rest. repeat split; try assumption.
  rewrite Hdesc. now rewrite !append_assoc.
Qed.

Lemma p0_bead_shape_witness :
  priority (bead "3.1" "Tracked. GitHub: org/repo#13" 0) = Some 0
  /\ "3.1" = default EmptyString
               (bead_id (bead "3.1" "Tracked. GitHub: org/repo#13" 0))
  /\ "A bead" = default EmptyString
                  (bead_title (bead "3.1" "Tracked. GitHub: org/repo#13" 0))
  /\ 0 <= 13
  /\ exists pre ws digits rest,
       get_description (bead "3.1" "Tracked. GitHub: org/repo#13" 0)
       = String.append pre
           (String.append "GitHub:"
              (String.append ws
                 (String.append "org/repo"
                    (String.append "#" (String.append digits rest)))))
       /\ all_chars is_space ws = true
       /\ repo_token "org/repo"
       /\ digit_run digits
       /\ py_int digits = Ok 13.
Proof.
  apply (p0_bead_shape (bead "3.1" "Tracked. GitHub: org/repo#13" 0)
           {| p0_bead_id := "3.1"; p0_title := "A bead"; p0_repo := "org/repo";
              p0_issue_number := 13 |}).
  vm_compute. reflexivity.
Defined.

(** X9.  A bead of priority 0 whose description carries the line
    [GitHub: repo#n], after text without the letter G and not followed by
    a further digit, is a P0 bead of that repository and that number. *)
Theorem p0_bead_round_trip (bead : Bead) (pre ws repo rest : string)
  (n : Z) :
  priority bead = Some 0 ->
  get_description bead
  = String.append pre
      (String.append "GitHub:"
         (String.append ws
            (String.append repo
               (String.append "#" (String.append (str_of_Z n) rest))))) ->
  no_char "G" pre ->
  all_chars is_space ws = true ->
  repo_token repo ->
  0 <= n ->
  (String.length (str_of_Z n) <= 4300)%nat ->
  stops is_digit rest ->
  p0_bead_of bead
  = Ok (Some {| p0_bead_id := default EmptyString (bead_id bead);
                p0_title := default EmptyString (bead_title bead);
                p0_repo := repo;
                p0_issue_number := n |}).
Proof.
  intros Hp Hdesc Hpre Hws Hrepo Hn _ Hrest. unfold p0_bead_of.
  rewrite Hp. rewrite bool_decide_eq_false_2 by (intros H; now apply H).
  destruct (github_ref_parts_at ws repo (str_of_Z n) rest Hws Hrepo
              (str_of_Z_digit_run n Hn) Hrest) as [m Hm].
  rewrite Hdesc. unfold GITHUB_REF_PARTS_PATTERN.
  rewrite re_search_skip by exact Hpre.
  fold GITHUB_REF_PARTS_PATTERN.
  rewrite (re_search_at _ _ _ _ Hm).
  now rewrite py_int_str_of_Z.
Qed.

Lemma p0_bead_round_trip_witness :
  p0_bead_of (bead "3.1" "Tracked. GitHub: org/repo#13" 0)
  = Ok (Some {| p0_bead_id := "3.1"; p0_title := "A bead"; p0_repo := "org/repo";
                p0_issue_number := 13 |}).
Proof.
  apply (p0_bead_round_trip (bead "3.1" "Tracked. GitHub: org/repo#13" 0)
           "Tracked. " " " "org/repo" "" 13).
  - reflexivity.
  - reflexivity.
  - reflexivity.
  - reflexivity.
  - split; [discriminate|reflexivity].
  - lia.
  - cbn. lia.
  - exact I.
Defined.

(** ** The sync: failure, dry run and agreement *)

(** X10.  With a board key that does not split in two at the slash, the
    sync raises [ValueError] whether or not a fix is asked for, and it
    has read the tracker file and made no call to the board. *)
Theorem sync_invalid_key_raises {W : Type} (h : handler W)
  (board_key : string) (fix_ : bool) (w : W) :
  length (split_on "/" board_key) <> 2%nat ->
  run h (sync_board_with_beads board_key fix_) w
  = (Raise ValueError, snd (h _ LoadBeads w),
     [Called LoadBeads (fst (h _ LoadBeads w))]).
Proof.
  intros Hkey.
  assert (Hparse : parse_board_key board_key = Raise ValueError).
  { unfold parse_board_key.
    destruct (split_on "/" board_key) as [|a [|b [|c l]]]; try reflexivity.
    now cbn in Hkey. }
  unfold sync_board_with_beads, get_p0_beads_with_github_refs,
    get_board_issues, list_board_items, trigger.
  cbn [prog_bind run].
  destruct (h _ LoadBeads w) as [beads w1]. cbn [fst snd].
  destruct (collect_p0_beads beads) as [p0_beads|e] eqn:Hp0.
  - rewrite Hparse. reflexivity.
  - apply collect_p0_beads_raises in Hp0 as ->. reflexivity.
Qed.

Lemma sync_invalid_key_raises_witness :
  run sample_handler (sync_board_with_beads "org-5" true) tt
  = (Raise ValueError, snd (sample_handler _ LoadBeads tt),
     [Called LoadBeads (fst (sample_handler _ LoadBeads tt))]).
Proof.
  apply (sync_invalid_key_raises sample_handler "org-5" true tt).
  cbn. lia.
Defined.

(** X11.  Without [fix] the sync only reads: a run that returns has
    loaded the tracker file and listed the board, has made no other call,
    and reports no fix. *)
Theorem sync_report_only {W : Type} (h : handler W) (board_key : string)
  (w w' : W) (r : SyncResult) (calls : list call) :
  run h (sync_board_with_beads board_key false) w = (Ok r, w', calls) ->
  fixes_applied r = []
  /\ exists (beads : list Bead) (owner project_num : string)
            (items : list BoardItem),
       parse_board_key board_key = Ok (owner, project_num)
       /\ calls = [Called LoadBeads beads;
                   Called (GhProjectItemList project_num owner) items].
Proof.
  intros Hrun.
  apply run_sync_board_with_beads in Hrun
    as (beads & p0_beads & owner & num & items & answers
        & _ & Hkey & _ & _ & Hlen & Hfix & Hcalls).
  destruct answers; [|discriminate].
  split.
  - rewrite Hfix. now destruct (missing_from_board r).
  - exists beads, owner, num, items. split; [exact Hkey|].
    rewrite Hcalls. now destruct (missing_from_board r).
Qed.

Lemma sync_report_only_witness :
  exists (r : SyncResult) (calls : list call),
    run sample_handler (sync_board_with_beads "org/5" false) tt
    = (Ok r, tt, calls)
    /\ fixes_applied r = []
    /\ exists (beads : list Bead) (owner project_num : string)
              (items : list BoardItem),
         parse_board_key "org/5" = Ok (owner, project_num)
         /\ calls = [Called LoadBeads beads;
                     Called (GhProjectItemList project_num owner) items].
Proof.
  eexists _, _. split; [vm_compute; reflexivity|].
  eapply (sync_report_only sample_handler "org/5" tt tt).
  vm_compute. reflexivity.
Defined.

Lemma filter_nil_iff {A : Type} (f : A -> bool) (l : list A) :
  List.filter f l = [] <-> forall x, x ∈ l -> f x = false.
Proof.
  induction l as [|a l IH]; cbn [List.filter].
  - split; [|reflexivity]. intros _ x Hx. now apply elem_of_nil in Hx.
  - destruct (f a) eqn:E.
    + split; [discriminate|]. intros H. specialize (H a ltac:(left)).
      congruence.
    + rewrite IH. split.
      * intros H x Hx. apply elem_of_cons in Hx as [->|Hx]; auto.
      * intros H x Hx. apply H. now right.
Qed.

Lemma elem_of_list_to_set_map {A : Type} (f : A -> string * Z)
  (l : list A) (k : string * Z) :
  k ∈ (list_to_set (map f l) : gset (string * Z))
  <-> exists x, x ∈ l /\ f x = k.
Proof.
  rewrite elem_of_list_to_set, list_elem_of_In, in_map_iff.
  split; intros (x & H1 & H2); exists x.
  - split; [now apply list_elem_of_In|exact H1].
  - split; [exact H2|now apply list_elem_of_In].
Qed.

(** X12.  The report of a sync that returns is empty on both sides
    exactly when the P0 beads and the issues of the board name the same
    set of (repository, number) pairs. *)
Theorem sync_in_sync_iff {W : Type} (h : handler W) (board_key : string)
  (fix_ : bool) (w w' : W) (r : SyncResult) (calls : list call) :
  run h (sync_board_with_beads board_key fix_) w = (Ok r, w', calls) ->
  exists (beads : list Bead) (p0_beads : list P0Bead)
         (owner project_num : string) (items : list BoardItem)
         (attempts : list call),
    calls = Called LoadBeads beads
            :: Called (GhProjectItemList project_num owner) items
            :: attempts
    /\ collect_p0_beads beads = Ok p0_beads
    /\ ((missing_from_board r = [] /\ not_in_beads r = [])
        <-> (list_to_set (map p0_ref p0_beads) : gset (string * Z))
            = list_to_set (map board_ref (omap board_issue_of items))).
Proof.
  intros Hrun.
  apply run_sync_board_with_beads in Hrun
    as (beads & p0_beads & owner & num & items & answers
        & Hp0 & _ & Hm & Hn & _ & _ & Hcalls).
  exists beads, p0_beads, owner, num, items,
    (zip_with (fix_call board_key) (missing_from_board r) answers).
  split; [exact Hcalls|]. split; [exact Hp0|].
  rewrite Hm, Hn, !filter_nil_iff. split.
  - intros [H1 H2]. apply set_eq. intros k.
    rewrite !elem_of_list_to_set_map. split.
    + intros (b & Hb & <-). specialize (H1 b Hb).
      apply bool_decide_eq_false in H1. apply dec_stable in H1.
      now apply elem_of_list_to_set_map in H1.
    + intros (i & Hi & <-). specialize (H2 i Hi).
      apply bool_decide_eq_false in H2. apply dec_stable in H2.
      now apply elem_of_list_to_set_map in H2.
  - intros Heq. split.
    + intros b Hb. apply bool_decide_eq_false. intros Hnot. apply Hnot.
      rewrite <- Heq. apply elem_of_list_to_set_map. now exists b.
    + intros i Hi. apply bool_decide_eq_false. intros Hnot. apply Hnot.
      rewrite Heq. apply elem_of_list_to_set_map. now exists i.
Qed.

Lemma sync_in_sync_iff_witness :
  exists (r : SyncResult) (calls : list call),
    run sample_handler (sync_board_with_beads "org/5" false) tt
    = (Ok r, tt, calls)
    /\ exists (beads : list Bead) (p0_beads : list P0Bead)
              (owner project_num : string) (items : list BoardItem)
              (attempts : list call),
         calls = Called LoadBeads beads
                 :: Called (GhProjectItemList project_num owner) items
                 :: attempts
         /\ collect_p0_beads beads = Ok p0_beads
         /\ ((missing_from_board r = [] /\ not_in_beads r = [])
             <-> (list_to_set (map p0_ref p0_beads) : gset (string * Z))
                 = list_to_set (map board_ref (omap board_issue_of items))).
Proof.
  eexists _, _. split; [vm_compute; reflexivity|].
  eapply (sync_in_sync_iff sample_handler "org/5" false tt tt).
  vm_compute. reflexivity.
Defined.

(** ** Comments of other items, and the comments that are kept *)

(** X13.  A comment on another item does not count: the outcome of
    [ball_in_my_court], value or exception, is the same with it anywhere
    in the corpus as without it. *)
Theorem other_item_comment_ignored (c : Comment) (m : Z) (item : Item)
  (before after : list Comment) (github_user : string) :
  get_comment_item_number c = Ok (Some m) ->
  m <> number item ->
  ball_in_my_court item (before ++ c :: after) github_user
  = ball_in_my_court item (before ++ after) github_user.
Proof.
  intros Hc Hm. unfold ball_in_my_court.
  assert (E : item_comments_of (number item) (before ++ c :: after)
              = item_comments_of (number item) (before ++ after)).
  { unfold item_comments_of. rewrite !filterM_app.
    cbn [filterM]. rewrite Hc. cbn.
    rewrite bool_decide_eq_false_2 by congruence.
    destruct (filterM _ before); cbn; [|reflexivity].
    now destruct (filterM _ after). }
  now rewrite E.
Qed.

Lemma other_item_comment_ignored_witness :
  ball_in_my_court (make_item 1 "matsen")
    ([make_comment 1 "matsen" "2024-01-15T09:00:00Z"]
     ++ make_comment 2 "other_user" "2024-01-15T10:00:00Z"
        :: [make_comment 1 "other_user" "2024-01-15T08:00:00Z"]) "matsen"
  = ball_in_my_court (make_item 1 "matsen")
      ([make_comment 1 "matsen" "2024-01-15T09:00:00Z"]
       ++ [make_comment 1 "other_user" "2024-01-15T08:00:00Z"]) "matsen".
Proof.
  apply (other_item_comment_ignored _ 2).
  - reflexivity.
  - cbn. lia.
Defined.

(** The comments of an item are the same in the corpus and in what
    [filter_comments_by_items] keeps for a set that holds its number. *)
Lemma item_comments_of_kept (n : Z) (numbers : gset Z)
  (comments kept : list Comment) :
  n ∈ numbers ->
  filterM
    (fun c =>
       r ← get_comment_item_number c;
       Ok (match r with
           | Some k => bool_decide (k ∈ numbers)
           | None => false
           end))
    comments = Ok kept ->
  item_comments_of n kept = item_comments_of n comments.
Proof.
  intros Hn. revert kept.
  induction comments as [|c comments IH]; intros kept; cbn [filterM].
  - now intros [= <-].
  - destruct (get_comment_item_number c) as [r|e] eqn:Hc; cbn;
      [|discriminate].
    destruct (filterM _ comments) as [kept'|e] eqn:Hk; cbn; [|discriminate].
    intros [= <-]. specialize (IH kept' eq_refl). clear Hk.
    unfold item_comments_of in *.
    destruct r as [k|].
    + destruct (bool_decide (k ∈ numbers)) eqn:Hin.
      * cbn [filterM]. rewrite Hc. cbn. now rewrite IH.
      * cbn [filterM]. rewrite Hc. cbn.
        apply bool_decide_eq_false in Hin.
        rewrite bool_decide_eq_false_2 by (intros [= ->]; contradiction).
        rewrite IH. now destruct (filterM _ comments).
    + cbn [filterM]. rewrite Hc. cbn. rewrite IH.
      now destruct (filterM _ comments).
Qed.

(** X14.  Dropping the comments of other items leaves every verdict as
    it was: for an item of the list given to [filter_comments_by_items],
    [ball_in_my_court] has the same outcome on the comments kept as on
    the whole corpus. *)
Theorem kept_comments_same_verdict (comments kept : list Comment)
  (items : list Item) (item : Item) (github_user : string) :
  filter_comments_by_items comments items = Ok kept ->
  item ∈ items ->
  ball_in_my_court item kept github_user
  = ball_in_my_court item comments github_user.
Proof.
  intros Hk Hitem. unfold ball_in_my_court.
  rewrite (item_comments_of_kept (number item)
             (list_to_set (map number items)) comments kept);
    [reflexivity| |exact Hk].
  apply elem_of_list_to_set, list_elem_of_In, in_map.
  now apply list_elem_of_In.
Qed.

Lemma kept_comments_same_verdict_witness :
  ball_in_my_court (make_item 3 "matsen")
    [make_comment 3 "other_user" "2024-01-15T10:00:00Z"] "matsen"
  = ball_in_my_court (make_item 3 "matsen")
      [make_comment 3 "other_user" "2024-01-15T10:00:00Z";
       make_comment 2 "matsen" "2024-01-15T11:00:00Z"] "matsen".
Proof.
  apply (kept_comments_same_verdict _ _
           [make_item 1 "other_user"; make_item 3 "matsen"]).
  - reflexivity.
  - right. left.
Defined.

(** A snapshot of the mapping is the view of its repository. *)
Lemma stored_view (gh : GitHubFeeds) (repos : list string) (since : Z)
  (github_user : option string) (activity : gmap string Snapshot)
  (totals : Totals) (repo : string) (v : Snapshot) :
  fetch_all_activity gh repos since github_user = Ok (activity, totals) ->
  activity !! repo = Some v ->
  repo ∈ repos /\ repo_view gh since github_user repo = Ok v.
Proof.
  intros Hrun Hv.
  destruct (fetch_all_activity_loop_views _ _ _ _ _ _ Hrun) as [views Hviews].
  unfold fetch_all_activity in Hrun.
  edestruct (fetch_all_activity_loop_spec gh since github_user repos views
               Hviews) as (activity' & totals' & Hrun' & Hmap & _).
  rewrite Hrun in Hrun'. injection Hrun' as <- <-.
  apply Hmap in Hv as [(Hrepo & Hview & _)|(_ & Hv)]; [now split|].
  now rewrite lookup_empty in Hv.
Qed.

Lemma filterM_complete {A : Type} (p : A -> result bool) (l r : list A)
  (x : A) :
  filterM p l = Ok r -> x ∈ l -> p x = Ok true -> x ∈ r.
Proof.
  revert r. induction l as [|a l IH]; intros r; cbn [filterM].
  - intros _ Hx. now apply elem_of_nil in Hx.
  - destruct (p a) as [b|e] eqn:Hpa; cbn; [|discriminate].
    destruct (filterM p l) as [r'|e]; cbn; [|discriminate].
    intros [= <-] Hx Hpx. apply elem_of_cons in Hx as [->|Hx].
    + rewrite Hpa in Hpx. injection Hpx as ->. left.
    + specialize (IH r' eq_refl Hx Hpx). destruct b; [now right|exact IH].
Qed.

(** X15.  With an acting user, every issue and pull request of a stored
    snapshot is one on which the ball is in the user's court, and it
    stays so when the verdict is taken again on the comments of the
    snapshot, as the summaries take it. *)
Theorem shown_items_in_court (gh : GitHubFeeds) (repos : list string)
  (since : Z) (u : string) (activity : gmap string Snapshot)
  (totals : Totals) :
  nonempty u = true ->
  fetch_all_activity gh repos since (Some u) = Ok (activity, totals) ->
  forall (repo : string) (v : Snapshot) (item : Item),
    activity !! repo = Some v ->
    item ∈ issues v ++ prs v ->
    exists val,
      ball_in_my_court item
        (fetch_comments gh repo since ++ fetch_pr_comments gh repo since) u
      = Ok val
      /\ ball_in_my_court item (comments v) u = Ok val
      /\ truthy val = true.
Proof.
  intros Hu Hrun repo v item Hv Hitem.
  destruct (stored_view _ _ _ _ _ _ _ _ Hrun Hv) as [_ Hview].
  revert Hview Hitem. unfold repo_view. rewrite Hu.
  bind_case Hissues. bind_case Hprs. bind_case Hkept.
  intros [= <-]. cbn. intros Hitem.
  assert (Hp : (val ← ball_in_my_court item
                        (fetch_comments gh repo since
                         ++ fetch_pr_comments gh repo since) u;
                Ok (truthy val)) = Ok true).
  { apply elem_of_app in Hitem as [Hitem|Hitem].
    - now destruct (filterM_elem_of _ _ _ _ Hissues Hitem).
    - now destruct (filterM_elem_of _ _ _ _ Hprs Hitem). }
  destruct (ball_in_my_court item _ u) as [val|e] eqn:Hball;
    cbn in Hp; [|discriminate].
  injection Hp as Hval. exists val. split; [reflexivity|].
  split; [|exact Hval].
  match type of Hkept with
  | filter_comments_by_items ?all ?shown = Ok ?kept =>
      assert (Hsame : item_comments_of (number item) kept
                      = item_comments_of (number item) all)
  end.
  { eapply item_comments_of_kept; [|exact Hkept].
    apply elem_of_list_to_set, list_elem_of_In, in_map.
    now apply list_elem_of_In. }
  rewrite <- Hball. unfold ball_in_my_court, item_comments_of in *.
  now rewrite Hsame.
Qed.

Lemma shown_items_in_court_witness :
  exists val,
    ball_in_my_court (make_item 3 "matsen")
      (fetch_comments test_feeds "org/repo" 0
       ++ fetch_pr_comments test_feeds "org/repo" 0) "matsen"
    = Ok val
    /\ ball_in_my_court (make_item 3 "matsen") (comments test_snapshot)
         "matsen" = Ok val
    /\ truthy val = true.
Proof.
  apply (shown_items_in_court test_feeds ["org/repo"] 0 "matsen"
           {["org/repo" := test_snapshot]}
           {| total_issues := 2; total_prs := 0; total_comments := 1 |}
           eq_refl eq_refl "org/repo" test_snapshot).
  - vm_compute. reflexivity.
  - right. left.
Defined.

(** X16.  With an acting user, a stored snapshot keeps every fetched
    comment of each of its issues and pull requests: none of the comments
    of a shown item is dropped. *)
Theorem shown_item_keeps_comments (gh : GitHubFeeds) (repos : list string)
  (since : Z) (u : string) (activity : gmap string Snapshot)
  (totals : Totals) :
  nonempty u = true ->
  fetch_all_activity gh repos since (Some u) = Ok (activity, totals) ->
  forall (repo : string) (v : Snapshot) (item : Item) (c : Comment),
    activity !! repo = Some v ->
    item ∈ issues v ++ prs v ->
    c ∈ fetch_comments gh repo since ++ fetch_pr_comments gh repo since ->
    get_comment_item_number c = Ok (Some (number item)) ->
    c ∈ comments v.
Proof.
  intros Hu Hrun repo v item c Hv Hitem Hc Hn.
  destruct (stored_view _ _ _ _ _ _ _ _ Hrun Hv) as [_ Hview].
  revert Hview Hitem. unfold repo_view. rewrite Hu.
  bind_case Hissues. bind_case Hprs. bind_case Hkept.
  intros [= <-]. cbn. intros Hitem.
  eapply (filterM_complete _ _ _ _ Hkept Hc).
  rewrite Hn. cbn. f_equal. apply bool_decide_eq_true.
  apply elem_of_list_to_set, list_elem_of_In, in_map.
  now apply list_elem_of_In.
Qed.

Lemma shown_item_keeps_comments_witness :
  make_comment 3 "other_user" "2024-01-15T10:00:00Z"
  ∈ comments test_snapshot.
Proof.
  apply (shown_item_keeps_comments test_feeds ["org/repo"] 0 "matsen"
           {["org/repo" := test_snapshot]}
           {| total_issues := 2; total_prs := 0; total_comments := 1 |}
           eq_refl eq_refl "org/repo" test_snapshot (make_item 3 "matsen")).
  - vm_compute. reflexivity.
  - right. left.
  - left.
  - reflexivity.
Defined.

(** ** Without a filter, and with a comment that cannot be read *)

Lemma unfiltered_view (gh : GitHubFeeds) (since : Z)
  (github_user : option string) (repo : string) :
  github_user = None \/ github_user = Some EmptyString ->
  repo_view gh since github_user repo
  = Ok {| issues :=
            List.filter (fun i => negb (is_pull_request i))
              (fetch_issues gh repo since);
          prs := List.filter is_pull_request (fetch_issues gh repo since);
          comments :=
            fetch_comments gh repo since ++ fetch_pr_comments gh repo since |}.
Proof. now intros [->| ->]. Qed.

(** X17.  Without an acting user, and likewise with the empty login, the
    run filters nothing and reads no parent reference: it returns (a
    comment whose reference cannot be read does no harm), and a stored
    snapshot holds every fetched record: the issues, the pull requests
    and all the comments of its repository. *)
Theorem unfiltered_activity (gh : GitHubFeeds) (repos : list string)
  (since : Z) (github_user : option string) :
  github_user = None \/ github_user = Some EmptyString ->
  exists (activity : gmap string Snapshot) (totals : Totals),
    fetch_all_activity gh repos since github_user = Ok (activity, totals)
    /\ forall (repo : string) (v : Snapshot),
         activity !! repo = Some v ->
         Permutation (issues v ++ prs v) (fetch_issues gh repo since)
         /\ Forall (fun i => pull_request i = None) (issues v)
         /\ Forall (fun i => is_Some (pull_request i)) (prs v)
         /\ comments v
            = fetch_comments gh repo since ++ fetch_pr_comments gh repo since.
Proof.
  intros Huser.
  assert (Hviews : exists views,
             Forall2 (fun repo v => repo_view gh since github_user repo = Ok v)
               repos views).
  { induction repos as [|repo repos [views IH]].
    - exists []. constructor.
    - eexists (_ :: views). constructor; [|exact IH].
      now apply unfiltered_view. }
  destruct Hviews as [views Hviews].
  unfold fetch_all_activity.
  edestruct (fetch_all_activity_loop_spec gh since github_user repos views
               Hviews) as (activity & totals & Hrun & Hmap & _).
  exists activity, totals. split; [exact Hrun|].
  intros repo v Hv.
  apply Hmap in Hv as [(_ & Hview & _)|(_ & Hv)];
    [|now rewrite lookup_empty in Hv].
  rewrite (unfiltered_view gh since github_user repo Huser) in Hview.
  injection Hview as <-. cbn [issues prs comments].
  split; [|split; [|split; [|reflexivity]]].
  - generalize (fetch_issues gh repo since). intros l.
    induction l as [|i l IH]; cbn [List.filter]; [constructor|].
    destruct (is_pull_request i); cbn [negb app].
    + rewrite <- Permutation_middle. now constructor.
    + now constructor.
  - apply Forall_forall. intros i Hi.
    apply list_elem_of_In, filter_In in Hi as [_ Hi].
    unfold is_pull_request in Hi. now destruct (pull_request i).
  - apply Forall_forall. intros i Hi.
    apply list_elem_of_In, filter_In in Hi as [_ Hi].
    unfold is_pull_request in Hi. now destruct (pull_request i).
Qed.

Lemma unfiltered_activity_witness :
  exists (activity : gmap string Snapshot) (totals : Totals),
    fetch_all_activity stray_feeds ["org/repo"] 0 (Some EmptyString)
    = Ok (activity, totals)
    /\ forall (repo : string) (v : Snapshot),
         activity !! repo = Some v ->
         Permutation (issues v ++ prs v) (fetch_issues stray_feeds repo 0)
         /\ Forall (fun i => pull_request i = None) (issues v)
         /\ Forall (fun i => is_Some (pull_request i)) (prs v)
         /\ comments v
            = fetch_comments stray_feeds repo 0
              ++ fetch_pr_comments stray_feeds repo 0.
Proof.
  apply (unfiltered_activity stray_feeds ["org/repo"] 0 (Some EmptyString)).
  now right.
Defined.

Lemma get_comment_item_number_raises (c : Comment) (e : pyexn) :
  get_comment_item_number c = Raise e -> e = ValueError.
Proof.
  unfold get_comment_item_number.
  destruct (issue_url c) as [url|]; [|destruct (pull_request_url c) as [url|]];
    try discriminate;
    destruct (py_int _) eqn:E; cbn; try discriminate;
    intros [= <-]; now apply py_int_raises in E.
Qed.

Lemma filterM_raises {A : Type} (p : A -> result bool) (l : list A)
  (e : pyexn) :
  (forall x e', p x = Raise e' -> e' = ValueError) ->
  filterM p l = Raise e -> e = ValueError.
Proof.
  intros Hp. induction l as [|a l IH]; cbn [filterM]; [discriminate|].
  destruct (p a) as [b|e'] eqn:Hpa; cbn.
  - destruct (filterM p l) as [r|e'']; cbn; [discriminate|].
    intros [= <-]. now apply IH.
  - intros [= <-]. now apply Hp in Hpa.
Qed.

Lemma filterM_raise_elem {A : Type} (p : A -> result bool) (l : list A)
  (x : A) (e : pyexn) :
  x ∈ l -> p x = Raise e -> exists e', filterM p l = Raise e'.
Proof.
  intros Hx Hpx. induction l as [|a l IH]; [now apply elem_of_nil in Hx|].
  cbn [filterM]. destruct (p a) as [b|e'] eqn:Hpa; cbn; [|now exists e'].
  apply elem_of_cons in Hx as [->|Hx]; [congruence|].
  destruct (IH Hx) as [e' ->]. now exists e'.
Qed.

(** [ball_in_my_court] raises only what [int] raises: the sorted list of
    a non-empty list has a last element. *)
Lemma ball_in_my_court_raises (item : Item) (comments : list Comment)
  (github_user : string) (e : pyexn) :
  ball_in_my_court item comments github_user = Raise e -> e = ValueError.
Proof.
  unfold ball_in_my_court.
  destruct (item_comments_of (number item) comments) as [l|e'] eqn:Hl; cbn.
  - destruct l as [|c l]; [discriminate|].
    destruct (last (py_sorted sort_key (c :: l))) eqn:Hlast; [discriminate|].
    apply last_None in Hlast.
    pose proof (py_sorted_perm sort_key (c :: l)) as Hperm.
    rewrite Hlast in Hperm. now apply Permutation_nil_r in Hperm.
  - intros [= <-]. unfold item_comments_of in Hl.
    apply filterM_raises in Hl; [exact Hl|].
    intros x e''. destruct (get_comment_item_number x) eqn:Hx; cbn;
      [discriminate|].
    intros [= <-]. now apply get_comment_item_number_raises in Hx.
Qed.

Lemma filter_by_ball_in_court_raises (items : list Item)
  (comments : list Comment) (github_user : string) (e : pyexn) :
  filter_by_ball_in_court items comments github_user = Raise e ->
  e = ValueError.
Proof.
  apply filterM_raises. intros item e'.
  destruct (ball_in_my_court item comments github_user) eqn:Hb; cbn;
    [discriminate|].
  intros [= <-]. now apply ball_in_my_court_raises in Hb.
Qed.

Lemma filter_comments_by_items_raises (comments : list Comment)
  (items : list Item) (e : pyexn) :
  filter_comments_by_items comments items = Raise e -> e = ValueError.
Proof.
  apply filterM_raises. intros c e'.
  destruct (get_comment_item_number c) eqn:Hc; cbn; [discriminate|].
  intros [= <-]. now apply get_comment_item_number_raises in Hc.
Qed.

(** The first computation of a chain, whatever it gave. *)
Ltac bind_split H :=
  match goal with
  | |- (?m ≫= _) = _ -> _ => destruct m eqn:H; cbn
  | |- exists _, (?m ≫= _) = _ => destruct m eqn:H; cbn
  end.

Lemma repo_view_raises (gh : GitHubFeeds) (since : Z)
  (github_user : option string) (repo : string) (e : pyexn) :
  repo_view gh since github_user repo = Raise e -> e = ValueError.
Proof.
  unfold repo_view. destruct github_user as [u|]; [|discriminate].
  destruct (nonempty u); [|discriminate].
  bind_split H1.
  2: { intros [= <-]. now apply filter_by_ball_in_court_raises in H1. }
  bind_split H2.
  2: { intros [= <-]. now apply filter_by_ball_in_court_raises in H2. }
  bind_split H3; [discriminate|].
  intros [= <-]. now apply filter_comments_by_items_raises in H3.
Qed.

Lemma fetch_all_activity_loop_raises (gh : GitHubFeeds) (since : Z)
  (github_user : option string) (repos : list string) (repo : string)
  (e : pyexn) (st : gmap string Snapshot * Totals) :
  repo ∈ repos ->
  repo_view gh since github_user repo = Raise e ->
  fetch_all_activity_loop gh since github_user repos st = Raise ValueError.
Proof.
  intros Hrepo Hview. revert st.
  induction repos as [|r repos IH]; intros st;
    [now apply elem_of_nil in Hrepo|].
  cbn [fetch_all_activity_loop].
  destruct (repo_view gh since github_user r) as [v|e'] eqn:Hr; cbn.
  - apply elem_of_cons in Hrepo as [->|Hrepo]; [congruence|]. now apply IH.
  - now apply repo_view_raises in Hr as ->.
Qed.

(** X18.  With an acting user, one fetched comment whose parent reference
    does not end in a number ends the whole run with [ValueError],
    whichever repository delivers it and whether or not it has items. *)
Theorem unreadable_comment_aborts (gh : GitHubFeeds) (repos : list string)
  (since : Z) (u repo : string) (c : Comment) (e : pyexn) :
  nonempty u = true ->
  repo ∈ repos ->
  c ∈ fetch_comments gh repo since ++ fetch_pr_comments gh repo since ->
  get_comment_item_number c = Raise e ->
  fetch_all_activity gh repos since (Some u) = Raise ValueError.
Proof.
  intros Hu Hrepo Hc He. unfold fetch_all_activity.
  assert (Hview : exists e', repo_view gh since (Some u) repo = Raise e').
  { unfold repo_view. rewrite Hu.
    bind_split H1; [|now eexists].
    bind_split H2; [|now eexists].
    match goal with
    | |- exists _, (filter_comments_by_items _ ?shown ≫= _) = _ =>
        destruct (filterM_raise_elem
                    (fun c =>
                       r ← get_comment_item_number c;
                       Ok (match r with
                           | Some n =>
                               bool_decide
                                 (n ∈ (list_to_set (map number shown)
                                       : gset Z))
                           | None => false
                           end))
                    _ c e Hc) as [e' He']; [now rewrite He|]
    end.
    exists e'. unfold filter_comments_by_items. now rewrite He'. }
  destruct Hview as [e' Hview].
  eapply fetch_all_activity_loop_raises; eassumption.
Qed.

Lemma unreadable_comment_aborts_witness :
  fetch_all_activity stray_feeds ["org/repo"] 0 (Some "matsen")
  = Raise ValueError.
Proof.
  apply (unreadable_comment_aborts stray_feeds ["org/repo"] 0 "matsen"
           "org/repo" stray_comment ValueError).
  - reflexivity.
  - left.
  - left.
  - reflexivity.
Defined.

(** ** Draft items and the beads that track them *)

Lemma elem_of_od_set {V : Type} (k k0 : string) (v v0 : V) (d : odict V) :
  (k, v) ∈ od_set k0 v0 d -> (k = k0 /\ v = v0) \/ (k, v) ∈ d.
Proof.
  induction d as [|[k' v'] d IH]; cbn [od_set].
  - intros H. apply list_elem_of_singleton in H as [= -> ->]. now left.
  - destruct (bool_decide (k' = k0)).
    + intros H. apply elem_of_cons in H as [[= -> ->]|H]; [now left|].
      right. now right.
    + intros H. apply elem_of_cons in H as [[= -> ->]|H]; [right; left|].
      destruct (IH H) as [?|?]; [now left|right; now right].
Qed.

Lemma od_mem_elem_of {V : Type} (k : string) (v : V) (d : odict V) :
  (k, v) ∈ d -> od_mem k d = true.
Proof.
  unfold od_mem. induction d as [|[k' v'] d IH]; cbn [od_get].
  - intros H. now apply elem_of_nil in H.
  - intros H. destruct (bool_decide (k' = k)) eqn:E; [reflexivity|].
    apply bool_decide_eq_false in E.
    apply elem_of_cons in H as [[= <- <-]|H]; [congruence|now apply IH].
Qed.

Lemma od_mem_set {V : Type} (k k0 : string) (v0 : V) (d : odict V) :
  od_mem k (od_set k0 v0 d) = true <-> k = k0 \/ od_mem k d = true.
Proof.
  unfold od_mem. destruct (decide (k0 = k)) as [->|Hne].
  - rewrite od_get_set_eq. split; [now left|reflexivity].
  - rewrite od_get_set_ne by exact Hne. split; [now right|].
    intros [->|H]; [congruence|exact H].
Qed.

Lemma od_mem_false {V : Type} (k : string) (d : odict V) :
  od_mem k d = false -> od_get k d = None.
Proof. unfold od_mem. now destruct (od_get k d). Qed.

(** The dictionary of the draft items, keyed by their identifiers. *)
Lemma elem_of_draft_item_ids (items : list BoardItem)
  (acc : odict BoardItem) (k : string) (item : BoardItem) :
  (k, item) ∈ fold_left (fun d item => od_set (id item) item d) items acc ->
  (k, item) ∈ acc \/ (item ∈ items /\ id item = k).
Proof.
  revert acc. induction items as [|x items IH]; intros acc; cbn [fold_left].
  - now left.
  - intros H. apply IH in H as [H|[H1 H2]].
    + apply elem_of_od_set in H as [[-> ->]|H]; [|now left].
      right. split; [left|reflexivity].
    + right. split; [now right|exact H2].
Qed.

Lemma od_mem_draft_item_ids (items : list BoardItem)
  (acc : odict BoardItem) (item : BoardItem) :
  item ∈ items ->
  od_mem (id item)
    (fold_left (fun d item => od_set (id item) item d) items acc) = true.
Proof.
  revert acc. induction items as [|x items IH]; intros acc Hitem;
    [now apply elem_of_nil in Hitem|].
  cbn [fold_left]. apply elem_of_cons in Hitem as [->|Hitem];
    [|now apply IH].
  clear IH. generalize (od_set (id x) x acc) (od_mem_set (id x) (id x) x acc).
  intros d Hd. assert (H : od_mem (id x) d = true) by (apply Hd; now left).
  clear Hd. revert d H. induction items as [|y items IH]; intros d H;
    cbn [fold_left]; [exact H|].
  apply IH. apply od_mem_set. now right.
Qed.

(** What the index of the beads holds under a board: the beads that carry
    a marker of that board, by item. *)
Lemma index_beads_by_board_sound (beads : list Bead) (board_key : string)
  (inner : odict Bead) (item_id : string) (b : Bead) :
  od_get board_key (index_beads_by_board beads) = Some inner ->
  (item_id, b) ∈ inner ->
  b ∈ beads
  /\ parse_board_marker (get_description b) = Some (board_key, item_id).
Proof.
  unfold index_beads_by_board.
  assert (H : forall (all : list Bead) (acc : odict (odict Bead)),
             (forall x, x ∈ beads -> x ∈ all) ->
             (forall k d i x,
                 od_get k acc = Some d -> (i, x) ∈ d ->
                 x ∈ all
                 /\ parse_board_marker (get_description x) = Some (k, i)) ->
             forall k d i x,
               od_get k
                 (fold_left
                    (fun bead_by_board bead =>
                       let desc := get_description bead in
                       match parse_board_marker desc with
                       | Some (board_key, item_id) =>
                           let bead_by_board :=
                             if od_mem board_key bead_by_board
                             then bead_by_board
                             else od_set board_key [] bead_by_board in
                           od_set board_key
                             (od_set item_id bead
                                (default [] (od_get board_key bead_by_board)))
                             bead_by_board
                       | None => bead_by_board
                       end)
                    beads acc) = Some d ->
               (i, x) ∈ d ->
               x ∈ all
               /\ parse_board_marker (get_description x) = Some (k, i)).
  { intros all. induction beads as [|bead beads IH]; intros acc Hall Hacc;
      cbn [fold_left]; [exact Hacc|].
    apply IH; [intros x Hx; apply Hall; now right|].
    intros k d i x.
    destruct (parse_board_marker (get_description bead))
      as [[bk iid]|] eqn:Hm; [|apply Hacc].
    cbn zeta.
    match goal with
    | |- context [od_set bk (od_set iid bead _) ?a] =>
        remember a as acc' eqn:Eacc'
    end.
    assert (Hacc' : forall k d i x,
               od_get k acc' = Some d -> (i, x) ∈ d ->
               x ∈ all
               /\ parse_board_marker (get_description x) = Some (k, i)).
    { intros k0 d0 i0 x0. rewrite Eacc'.
      match goal with
      | |- context [if ?c then acc else _] => destruct c
      end; [apply Hacc|].
      destruct (decide (bk = k0)) as [->|Hne].
      - rewrite od_get_set_eq. intros [= <-] Hin.
        now apply elem_of_nil in Hin.
      - rewrite od_get_set_ne by exact Hne. apply Hacc. }
    destruct (decide (bk = k)) as [->|Hne].
    - rewrite od_get_set_eq. intros [= <-] Hin.
      apply elem_of_od_set in Hin as [[-> ->]|Hin].
      + split; [apply Hall; left|exact Hm].
      + destruct (od_get k acc') as [d0|] eqn:Hd0;
          [|now apply elem_of_nil in Hin].
        now apply (Hacc' k d0).
    - rewrite od_get_set_ne by exact Hne. apply Hacc'. }
  intros Hget Hin. apply (H beads [] (fun x Hx => Hx)) with (d := inner).
  - intros k d i x Hk. discriminate.
  - exact Hget.
  - exact Hin.
Qed.

Lemma index_beads_by_board_complete (beads : list Bead)
  (board_key item_id : string) (b : Bead) :
  b ∈ beads ->
  parse_board_marker (get_description b) = Some (board_key, item_id) ->
  od_mem item_id
    (default [] (od_get board_key (index_beads_by_board beads))) = true.
Proof.
  unfold index_beads_by_board.
  assert (H : forall acc : odict (odict Bead),
             od_mem item_id (default [] (od_get board_key acc)) = true
             \/ (exists x,
                    x ∈ beads
                    /\ parse_board_marker (get_description x)
                       = Some (board_key, item_id)) ->
             od_mem item_id
               (default []
                  (od_get board_key
                     (fold_left
                        (fun bead_by_board bead =>
                           let desc := get_description bead in
                           match parse_board_marker desc with
                           | Some (board_key, item_id) =>
                               let bead_by_board :=
                                 if od_mem board_key bead_by_board
                                 then bead_by_board
                                 else od_set board_key [] bead_by_board in
                               od_set board_key
                                 (od_set item_id bead
                                    (default []
                                       (od_get board_key bead_by_board)))
                                 bead_by_board
                           | None => bead_by_board
                           end)
                        beads acc))) = true).
  { induction beads as [|bead beads IH]; intros acc; cbn [fold_left].
    - intros [H|(x & Hx & _)]; [exact H|now apply elem_of_nil in Hx].
    - intros Hcase. apply IH.
      destruct (parse_board_marker (get_description bead))
        as [[bk iid]|] eqn:Hm.
      + cbn zeta.
        match goal with
        | |- context [od_set bk (od_set iid bead _) ?a] =>
            remember a as acc' eqn:Eacc'
        end.
        assert (Hacc' : od_mem item_id (default [] (od_get board_key acc))
                        = true ->
                        od_mem item_id (default [] (od_get board_key acc'))
                        = true).
        { rewrite Eacc'.
          match goal with
          | |- context [if ?c then acc else _] => destruct c eqn:Hbk
          end; [auto|].
          destruct (decide (bk = board_key)) as [->|Hne].
          - intros H. apply od_mem_false in Hbk. unfold odict in *.
            rewrite Hbk in H. discriminate H.
          - now rewrite od_get_set_ne by exact Hne. }
        destruct (decide (bk = board_key)) as [->|Hne].
        * rewrite od_get_set_eq. cbn [default]. 
          destruct Hcase as [Hold|(x & Hx & Hmx)].
          -- left. apply od_mem_set. right. now apply Hacc'.
          -- apply elem_of_cons in Hx as [->|Hx].
             ++ left. rewrite Hm in Hmx. injection Hmx as ->.
                apply od_mem_set. now left.
             ++ right. now exists x.
        * rewrite od_get_set_ne by exact Hne.
          destruct Hcase as [Hold|(x & Hx & Hmx)].
          -- left. now apply Hacc'.
          -- apply elem_of_cons in Hx as [->|Hx]; [congruence|].
             right. now exists x.
      + destruct Hcase as [Hold|(x & Hx & Hmx)]; [now left|].
        apply elem_of_cons in Hx as [->|Hx]; [congruence|].
        right. now exists x. }
  intros Hb Hm. apply H. right. now exists b.
Qed.

(** The three lists of a report, read off the loop body. *)
Lemma check_board_new_draft (bead_by_board : odict (odict Bead))
  (github_refs : gset string) (board_key parent_bead_id : string)
  (board_items : list BoardItem) (changes : BoardChanges)
  (item : BoardItem) :
  check_board bead_by_board github_refs board_key parent_bead_id board_items
  = Some changes ->
  item ∈ new_drafts changes ->
  item ∈ board_items
  /\ item_type item = "DraftIssue"
  /\ od_mem (id item) (default [] (od_get board_key bead_by_board)) = false.
Proof.
  unfold check_board.
  destruct (_ || _ || _)%bool; [|discriminate]. intros [= <-].
  cbn [new_drafts]. intros H.
  apply list_elem_of_In, in_map_iff in H as ([k x] & Hx & H).
  cbn [snd] in Hx. subst x.
  apply filter_In in H as [H Hmem]. cbn [fst] in Hmem.
  apply negb_true_iff in Hmem.
  apply list_elem_of_In, elem_of_draft_item_ids in H as [H|[H <-]];
    [now apply elem_of_nil in H|].
  apply list_elem_of_In, filter_In in H as [Hin Htype].
  apply bool_decide_eq_true in Htype.
  split; [now apply list_elem_of_In|]. split; [exact Htype|exact Hmem].
Qed.

Lemma check_board_removed_draft (bead_by_board : odict (odict Bead))
  (github_refs : gset string) (board_key parent_bead_id : string)
  (board_items : list BoardItem) (changes : BoardChanges) (b : Bead) :
  check_board bead_by_board github_refs board_key parent_bead_id board_items
  = Some changes ->
  b ∈ removed_drafts changes ->
  exists item_id,
    (item_id, b) ∈ default [] (od_get board_key bead_by_board)
    /\ forall item,
         item ∈ board_items -> item_type item = "DraftIssue" ->
         id item <> item_id.
Proof.
  unfold check_board.
  destruct (_ || _ || _)%bool; [|discriminate]. intros [= <-].
  cbn [removed_drafts]. intros H.
  apply list_elem_of_In, in_map_iff in H as ([k x] & Hx & H).
  cbn [snd] in Hx. subst x.
  apply filter_In in H as [H Hmem]. cbn [fst] in Hmem.
  apply negb_true_iff in Hmem.
  exists k. split; [now apply list_elem_of_In|].
  intros item Hitem Htype <-.
  rewrite od_mem_draft_item_ids in Hmem; [discriminate|].
  apply list_elem_of_In, filter_In. split; [now apply list_elem_of_In|].
  now apply bool_decide_eq_true.
Qed.

Lemma check_board_drift (bead_by_board : odict (odict Bead))
  (github_refs : gset string) (board_key parent_bead_id : string)
  (board_items : list BoardItem) (changes : BoardChanges) :
  check_board bead_by_board github_refs board_key parent_bead_id board_items
  = Some changes ->
  parent_bead changes = parent_bead_id
  /\ (new_drafts changes <> [] \/ removed_drafts changes <> []
      \/ orphan_issues changes <> []).
Proof.
  unfold check_board.
  destruct (_ || _ || _)%bool eqn:Hdrift; [|discriminate]. intros [= <-].
  cbn [parent_bead new_drafts removed_drafts orphan_issues].
  split; [reflexivity|].
  apply orb_true_iff in Hdrift as [Hdrift|Hdrift];
    [apply orb_true_iff in Hdrift as [Hdrift|Hdrift]|];
    apply list_nonempty_true in Hdrift; tauto.
Qed.

(** A board of the report, traced back to the loop. *)
Lemma check_boards_reported
  (fetch_board_items : string -> string -> list BoardItem)
  (boards : list (string * string)) (beads : list Bead)
  (board_key : string) (changes : BoardChanges) :
  od_get board_key (check_boards fetch_board_items boards beads)
  = Some changes ->
  exists parent owner project_num,
    (board_key, parent) ∈ boards
    /\ split_on "/" board_key = [owner; project_num]
    /\ check_board (index_beads_by_board beads)
         (collect_all_github_refs beads) board_key parent
         (fetch_board_items owner project_num) = Some changes.
Proof.
  intros Hget. unfold check_boards in Hget.
  now apply check_boards_sound in Hget as [Hget|H]; [discriminate|].
Qed.

(** X19.  [check_boards] reports a board only when something differs: a
    reported board is one of the configured boards, its key splits into
    owner and number, the report names the parent bead configured for it,
    and at least one of its three lists is not empty. *)
Theorem reported_board_has_drift
  (fetch_board_items : string -> string -> list BoardItem)
  (boards : list (string * string)) (beads : list Bead)
  (board_key : string) (changes : BoardChanges) :
  od_get board_key (check_boards fetch_board_items boards beads)
  = Some changes ->
  (exists owner project_num,
      parse_board_key board_key = Ok (owner, project_num))
  /\ (board_key, parent_bead changes) ∈ boards
  /\ (new_drafts changes <> [] \/ removed_drafts changes <> []
      \/ orphan_issues changes <> []).
Proof.
  intros Hget.
  apply check_boards_reported in Hget as (parent & o & n & Hin & Hs & Hc).
  apply check_board_drift in Hc as [-> Hdrift].
  split; [|split; assumption].
  exists o, n. unfold parse_board_key. now rewrite Hs.
Qed.

Lemma reported_board_has_drift_witness :
  (exists owner project_num, parse_board_key "org/5" = Ok (owner, project_num))
  /\ ("org/5", parent_bead sample_changes) ∈ [("org/5", "3"); ("bad", "4")]
  /\ (new_drafts sample_changes <> [] \/ removed_drafts sample_changes <> []
      \/ orphan_issues sample_changes <> []).
Proof.
  apply (reported_board_has_drift sample_fetch
           [("org/5", "3"); ("bad", "4")] sample_beads "org/5").
  vm_compute. reflexivity.
Defined.

(** X20.  A draft reported as new is a DraftIssue item of the board for
    which no bead carries the marker of that board and that item: a draft
    that some bead tracks is never reported as new. *)
Theorem new_draft_untracked
  (fetch_board_items : string -> string -> list BoardItem)
  (boards : list (string * string)) (beads : list Bead)
  (board_key : string) (changes : BoardChanges) (item : BoardItem) :
  od_get board_key (check_boards fetch_board_items boards beads)
  = Some changes ->
  item ∈ new_drafts changes ->
  item_type item = "DraftIssue"
  /\ (exists owner project_num,
         parse_board_key board_key = Ok (owner, project_num)
         /\ item ∈ fetch_board_items owner project_num)
  /\ forall b,
       b ∈ beads ->
       parse_board_marker (get_description b) <> Some (board_key, id item).
Proof.
  intros Hget Hitem.
  apply check_boards_reported in Hget as (parent & o & n & Hin & Hs & Hc).
  destruct (check_board_new_draft _ _ _ _ _ _ _ Hc Hitem)
    as (Hboard & Htype & Hmem).
  split; [exact Htype|]. split.
  - exists o, n. unfold parse_board_key. now rewrite Hs.
  - intros b Hb Hm.
    rewrite (index_beads_by_board_complete beads board_key (id item) b Hb Hm)
      in Hmem.
    discriminate.
Qed.

Lemma new_draft_untracked_witness :
  item_type (board_draft "ITEM_1") = "DraftIssue"
  /\ (exists owner project_num,
         parse_board_key "org/5" = Ok (owner, project_num)
         /\ board_draft "ITEM_1" ∈ sample_fetch owner project_num)
  /\ forall b,
       b ∈ sample_beads ->
       parse_board_marker (get_description b)
       <> Some ("org/5", id (board_draft "ITEM_1")).
Proof.
  apply (new_draft_untracked sample_fetch [("org/5", "3"); ("bad", "4")]
           sample_beads "org/5" sample_changes).
  - vm_compute. reflexivity.
  - left.
Defined.

(** X21.  A bead reported under removed drafts is a bead of the tracker
    that carries the marker of that board, for an item that is no longer
    among the DraftIssue items of the board. *)
Theorem removed_draft_gone
  (fetch_board_items : string -> string -> list BoardItem)
  (boards : list (string * string)) (beads : list Bead)
  (board_key : string) (changes : BoardChanges) (b : Bead) :
  od_get board_key (check_boards fetch_board_items boards beads)
  = Some changes ->
  b ∈ removed_drafts changes ->
  b ∈ beads
  /\ exists item_id owner project_num,
       parse_board_marker (get_description b) = Some (board_key, item_id)
       /\ parse_board_key board_key = Ok (owner, project_num)
       /\ forall item,
            item ∈ fetch_board_items owner project_num ->
            item_type item = "DraftIssue" ->
            id item <> item_id.
Proof.
  intros Hget Hb.
  apply check_boards_reported in Hget as (parent & o & n & Hin & Hs & Hc).
  destruct (check_board_removed_draft _ _ _ _ _ _ _ Hc Hb)
    as (item_id & Hinner & Hgone).
  destruct (od_get board_key (index_beads_by_board beads)) as [inner|] eqn:Hi;
    [|now apply elem_of_nil in Hinner].
  destruct (index_beads_by_board_sound _ _ _ _ _ Hi Hinner) as [Hbeads Hm].
  split; [exact Hbeads|].
  exists item_id, o, n. split; [exact Hm|]. split; [|exact Hgone].
  unfold parse_board_key. now rewrite Hs.
Qed.

Lemma removed_draft_gone_witness :
  bead "3.5" "Draft. Board: org/5#ITEM_9" 1 ∈ sample_beads
  /\ exists item_id owner project_num,
       parse_board_marker
         (get_description (bead "3.5" "Draft. Board: org/5#ITEM_9" 1))
       = Some ("org/5", item_id)
       /\ parse_board_key "org/5" = Ok (owner, project_num)
       /\ forall item,
            item ∈ sample_fetch owner project_num ->
            item_type item = "DraftIssue" ->
            id item <> item_id.
Proof.
  apply (removed_draft_gone sample_fetch [("org/5", "3"); ("bad", "4")]
           sample_beads "org/5" sample_changes).
  - vm_compute. reflexivity.
  - left.
Defined.

(** ** Drafts that must be reported *)

Lemma od_get_elem_of {V : Type} (k : string) (v : V) (d : odict V) :
  od_get k d = Some v -> (k, v) ∈ d.
Proof.
  induction d as [|[k' v'] d IH]; cbn [od_get]; [discriminate|].
  destruct (bool_decide (k' = k)) eqn:E.
  - apply bool_decide_eq_true in E as ->. intros [= ->]. left.
  - intros H. right. now apply IH.
Qed.

Lemma od_mem_get {V : Type} (k : string) (d : odict V) :
  od_mem k d = true -> exists v, (k, v) ∈ d.
Proof.
  unfold od_mem. destruct (od_get k d) as [v|] eqn:E; [|discriminate].
  intros _. exists v. now apply od_get_elem_of.
Qed.

Lemma check_board_lists (bead_by_board : odict (odict Bead))
  (github_refs : gset string) (board_key parent_bead_id : string)
  (board_items : list BoardItem) (changes : BoardChanges) :
  check_board bead_by_board github_refs board_key parent_bead_id board_items
  = Some changes ->
  new_drafts changes = new_drafts_of bead_by_board board_key board_items
  /\ removed_drafts changes
     = removed_drafts_of bead_by_board board_key board_items.
Proof.
  unfold check_board.
  destruct (_ || _ || _)%bool; [|discriminate]. intros [= <-].
  split; reflexivity.
Qed.

Lemma check_board_some (bead_by_board : odict (odict Bead))
  (github_refs : gset string) (board_key parent_bead_id : string)
  (board_items : list BoardItem) :
  new_drafts_of bead_by_board board_key board_items <> []
  \/ removed_drafts_of bead_by_board board_key board_items <> [] ->
  exists changes,
    check_board bead_by_board github_refs board_key parent_bead_id board_items
    = Some changes.
Proof.
  intros H. unfold check_board.
  change (map snd
            (List.filter _
               (fold_left _ (List.filter _ board_items) [])))
    with (new_drafts_of bead_by_board board_key board_items) at 1.
  match goal with
  | |- context [(list_nonempty ?a || list_nonempty ?b || ?c)%bool] =>
      change b with (removed_drafts_of bead_by_board board_key board_items);
      assert (E : (list_nonempty a
                   || list_nonempty
                        (removed_drafts_of bead_by_board board_key board_items)
                   || c)%bool = true)
  end.
  { destruct H as [H|H]; apply list_nonempty_true in H; rewrite H;
      [reflexivity|]. now rewrite orb_true_r. }
  rewrite E. eauto.
Qed.

Section CheckBoardsDrafts.
Context (fetch_board_items : string -> string -> list BoardItem)
  (bead_by_board : odict (odict Bead)) (github_refs : gset string).

Let step := record_board fetch_board_items bead_by_board github_refs.

(** A board with a draft to report stays reported, with the same two
    lists, through the rest of the loop. *)
Lemma check_boards_keep_drafts (boards : list (string * string))
  (results0 : odict BoardChanges) (k owner project_num : string)
  (changes : BoardChanges) :
  split_on "/" k = [owner; project_num] ->
  new_drafts_of bead_by_board k (fetch_board_items owner project_num) <> []
  \/ removed_drafts_of bead_by_board k (fetch_board_items owner project_num)
     <> [] ->
  od_get k results0 = Some changes ->
  new_drafts changes
  = new_drafts_of bead_by_board k (fetch_board_items owner project_num) ->
  removed_drafts changes
  = removed_drafts_of bead_by_board k (fetch_board_items owner project_num) ->
  exists changes',
    od_get k (fold_left step boards results0) = Some changes'
    /\ new_drafts changes'
       = new_drafts_of bead_by_board k (fetch_board_items owner project_num)
    /\ removed_drafts changes'
       = removed_drafts_of bead_by_board k
           (fetch_board_items owner project_num).
Proof.
  intros Hs Hdrift. revert results0 changes.
  induction boards as [|[k' p'] boards IH]; intros results0 changes H0 Hn Hr;
    cbn [fold_left].
  - now exists changes.
  - destruct (decide (k' = k)) as [->|Hk].
    + destruct (check_board_some bead_by_board github_refs k p' _ Hdrift)
        as [c Hc].
      assert (Hstep : step results0 (k, p') = od_set k c results0).
      { unfold step, record_board. now rewrite Hs, Hc. }
      rewrite Hstep. apply check_board_lists in Hc as [Hcn Hcr].
      apply (IH _ c); [apply od_get_set_eq|exact Hcn|exact Hcr].
    + apply (IH _ changes); try assumption.
      unfold step, record_board.
      destruct (split_on "/" k') as [|o [|n [|? ?]]]; try assumption.
      destruct (check_board _ _ k' p' _); [|assumption].
      now rewrite od_get_set_ne.
Qed.

Lemma check_boards_complete_drafts (boards : list (string * string))
  (results0 : odict BoardChanges) (k parent owner project_num : string) :
  (k, parent) ∈ boards ->
  split_on "/" k = [owner; project_num] ->
  new_drafts_of bead_by_board k (fetch_board_items owner project_num) <> []
  \/ removed_drafts_of bead_by_board k (fetch_board_items owner project_num)
     <> [] ->
  exists changes,
    od_get k (fold_left step boards results0) = Some changes
    /\ new_drafts changes
       = new_drafts_of bead_by_board k (fetch_board_items owner project_num)
    /\ removed_drafts changes
       = removed_drafts_of bead_by_board k
           (fetch_board_items owner project_num).
Proof.
  intros Hin Hs Hdrift. revert results0.
  induction boards as [|[k' p'] boards IH]; intros results0;
    [now apply elem_of_nil in Hin|].
  cbn [fold_left]. apply elem_of_cons in Hin as [[= <- <-]|Hin];
    [|now apply IH].
  destruct (check_board_some bead_by_board github_refs k parent _ Hdrift)
    as [c Hc].
  assert (Hstep : step results0 (k, parent) = od_set k c results0).
  { unfold step, record_board. now rewrite Hs, Hc. }
  rewrite Hstep. apply check_board_lists in Hc as [Hcn Hcr].
  apply (check_boards_keep_drafts boards _ k owner project_num c);
    try assumption.
  apply od_get_set_eq.
Qed.

End CheckBoardsDrafts.

Lemma draft_item_ids_of_elem (board_items : list BoardItem) (k : string)
  (item : BoardItem) :
  (k, item) ∈ draft_item_ids_of board_items ->
  item ∈ board_items /\ item_type item = "DraftIssue" /\ id item = k.
Proof.
  unfold draft_item_ids_of. intros H.
  apply elem_of_draft_item_ids in H as [H|[H Hid]];
    [now apply elem_of_nil in H|].
  apply list_elem_of_In, filter_In in H as [Hin Htype].
  apply bool_decide_eq_true in Htype.
  split; [now apply list_elem_of_In|]. now split.
Qed.

Lemma draft_item_ids_of_mem (board_items : list BoardItem)
  (item : BoardItem) :
  item ∈ board_items -> item_type item = "DraftIssue" ->
  od_mem (id item) (draft_item_ids_of board_items) = true.
Proof.
  intros Hin Htype. unfold draft_item_ids_of. apply od_mem_draft_item_ids.
  apply list_elem_of_In, filter_In. split; [now apply list_elem_of_In|].
  now apply bool_decide_eq_true.
Qed.

(** X22.  A draft item of a configured board that no bead tracks is
    reported: the board is in the report, and its new drafts hold the
    item of that identifier. *)
Theorem untracked_draft_reported
  (fetch_board_items : string -> string -> list BoardItem)
  (boards : list (string * string)) (beads : list Bead)
  (board_key parent owner project_num : string) (item : BoardItem) :
  (board_key, parent) ∈ boards ->
  parse_board_key board_key = Ok (owner, project_num) ->
  item ∈ fetch_board_items owner project_num ->
  item_type item = "DraftIssue" ->
  (forall b,
      b ∈ beads ->
      parse_board_marker (get_description b) <> Some (board_key, id item)) ->
  exists changes item',
    od_get board_key (check_boards fetch_board_items boards beads)
    = Some changes
    /\ item' ∈ new_drafts changes
    /\ id item' = id item.
Proof.
  intros Hin Hkey Hitem Htype Hnone.
  assert (Hs : split_on "/" board_key = [owner; project_num]).
  { unfold parse_board_key in Hkey.
    destruct (split_on "/" board_key) as [|a [|b [|c l]]]; try discriminate.
    now injection Hkey as -> ->. }
  assert (Hfree : od_mem (id item)
                    (default []
                       (od_get board_key (index_beads_by_board beads)))
                  = false).
  { destruct (od_mem _ _) eqn:Hmem; [|reflexivity].
    apply od_mem_get in Hmem as [b Hb].
    destruct (od_get board_key (index_beads_by_board beads)) as [inner|]
      eqn:Hi; [|now apply elem_of_nil in Hb].
    destruct (index_beads_by_board_sound _ _ _ _ _ Hi Hb) as [Hbeads Hm].
    now apply Hnone in Hm. }
  destruct (od_mem_get _ _ (draft_item_ids_of_mem _ _ Hitem Htype))
    as [item' Hitem'].
  assert (Hnew : item'
                 ∈ new_drafts_of (index_beads_by_board beads) board_key
                     (fetch_board_items owner project_num)).
  { unfold new_drafts_of. apply list_elem_of_In, in_map_iff.
    exists (id item, item'). split; [reflexivity|].
    apply filter_In. split; [now apply list_elem_of_In|].
    cbn [fst]. now rewrite Hfree. }
  destruct (check_boards_complete_drafts fetch_board_items
              (index_beads_by_board beads) (collect_all_github_refs beads)
              boards [] board_key parent owner project_num Hin Hs)
    as (changes & Hget & Hn & _).
  { left. intros E. rewrite E in Hnew. now apply elem_of_nil in Hnew. }
  exists changes, item'. split; [exact Hget|]. rewrite Hn.
  split; [exact Hnew|].
  now apply draft_item_ids_of_elem in Hitem' as (_ & _ & ?).
Qed.

Lemma untracked_draft_reported_witness :
  exists changes item',
    od_get "org/5"
      (check_boards sample_fetch [("org/5", "3"); ("bad", "4")] sample_beads)
    = Some changes
    /\ item' ∈ new_drafts changes
    /\ id item' = id (board_draft "ITEM_1").
Proof.
  apply (untracked_draft_reported sample_fetch
           [("org/5", "3"); ("bad", "4")] sample_beads
           "org/5" "3" "org" "5").
  - left.
  - reflexivity.
  - apply list_elem_of_In. vm_compute. tauto.
  - reflexivity.
  - intros b Hb. apply list_elem_of_In in Hb. vm_compute in Hb.
    intuition (subst; vm_compute; discriminate).
Defined.

(** X23.  A bead that carries the marker of a configured board for an
    item that is not among the draft items of the board is reported: the
    board is in the report, and its removed drafts hold a bead with that
    marker. *)
Theorem vanished_draft_reported
  (fetch_board_items : string -> string -> list BoardItem)
  (boards : list (string * string)) (beads : list Bead)
  (board_key parent owner project_num item_id : string) (b : Bead) :
  (board_key, parent) ∈ boards ->
  parse_board_key board_key = Ok (owner, project_num) ->
  b ∈ beads ->
  parse_board_marker (get_description b) = Some (board_key, item_id) ->
  (forall item,
      item ∈ fetch_board_items owner project_num ->
      item_type item = "DraftIssue" ->
      id item <> item_id) ->
  exists changes b',
    od_get board_key (check_boards fetch_board_items boards beads)
    = Some changes
    /\ b' ∈ removed_drafts changes
    /\ parse_board_marker (get_description b') = Some (board_key, item_id).
Proof.
  intros Hin Hkey Hb Hm Hgone.
  assert (Hs : split_on "/" board_key = [owner; project_num]).
  { unfold parse_board_key in Hkey.
    destruct (split_on "/" board_key) as [|a [|c [|d l]]]; try discriminate.
    now injection Hkey as -> ->. }
  pose proof (index_beads_by_board_complete beads board_key item_id b Hb Hm)
    as Hmem.
  apply od_mem_get in Hmem as [b' Hb'].
  assert (Hfree : od_mem item_id
                    (draft_item_ids_of (fetch_board_items owner project_num))
                  = false).
  { destruct (od_mem _ _) eqn:Hmem; [|reflexivity].
    apply od_mem_get in Hmem as [item Hitem].
    apply draft_item_ids_of_elem in Hitem as (Hitem & Htype & Hid).
    now apply Hgone in Hid. }
  assert (Hold : b'
                 ∈ removed_drafts_of (index_beads_by_board beads) board_key
                     (fetch_board_items owner project_num)).
  { unfold removed_drafts_of. apply list_elem_of_In, in_map_iff.
    exists (item_id, b'). split; [reflexivity|].
    apply filter_In. split; [now apply list_elem_of_In|].
    cbn [fst]. now rewrite Hfree. }
  destruct (check_boards_complete_drafts fetch_board_items
              (index_beads_by_board beads) (collect_all_github_refs beads)
              boards [] board_key parent owner project_num Hin Hs)
    as (changes & Hget & _ & Hr).
  { right. intros E. rewrite E in Hold. now apply elem_of_nil in Hold. }
  exists changes, b'. split; [exact Hget|]. rewrite Hr.
  split; [exact Hold|].
  destruct (od_get board_key (index_beads_by_board beads)) as [inner|] eqn:Hi;
    [|now apply elem_of_nil in Hb'].
  now destruct (index_beads_by_board_sound _ _ _ _ _ Hi Hb').
Qed.

Lemma vanished_draft_reported_witness :
  exists changes b',
    od_get "org/5"
      (check_boards sample_fetch [("org/5", "3"); ("bad", "4")] sample_beads)
    = Some changes
    /\ b' ∈ removed_drafts changes
    /\ parse_board_marker (get_description b') = Some ("org/5", "ITEM_9").
Proof.
  apply (vanished_draft_reported sample_fetch
           [("org/5", "3"); ("bad", "4")] sample_beads
           "org/5" "3" "org" "5" "ITEM_9"
           (bead "3.5" "Draft. Board: org/5#ITEM_9" 1)).
  - left.
  - reflexivity.
  - apply list_elem_of_In. vm_compute. tauto.
  - reflexivity.
  - intros item Hitem Htype. apply list_elem_of_In in Hitem.
    vm_compute in Hitem.
    intuition (subst; try discriminate).
Defined.

(** ** Repository names *)

Lemma last_str_split_no_sep (sep : ascii) (s : string) :
  no_char sep (last_str (split_on sep s)).
Proof.
  unfold last_str. induction s as [|c s IH]; cbn [split_on]; [reflexivity|].
  destruct (Ascii.eqb c sep) eqn:E.
  - destruct (split_on sep s) as [|w ws] eqn:Hs;
      [now apply split_on_nonempty in Hs|exact IH].
  - destruct (split_on sep s) as [|w ws] eqn:Hs;
      [now apply split_on_nonempty in Hs|].
    destruct ws as [|w' ws']; [|exact IH].
    cbn [List.last] in *. unfold no_char in *. cbn [all_chars].
    now rewrite E.
Qed.

Lemma replace_outside_kept (keep : ascii -> bool) (by_char : ascii)
  (s : string) :
  keep by_char = true ->
  all_chars keep (replace_outside keep by_char s) = true.
Proof.
  intros Hby. induction s as [|c s IH]; cbn [replace_outside all_chars];
    [reflexivity|].
  rewrite IH. now destruct (keep c) eqn:E; rewrite ?E, ?Hby.
Qed.

Lemma replace_outside_id (keep : ascii -> bool) (by_char : ascii)
  (s : string) :
  all_chars keep s = true -> replace_outside keep by_char s = s.
Proof.
  induction s as [|c s IH]; cbn [replace_outside all_chars]; [reflexivity|].
  intros H. apply andb_true_iff in H as [Hc Hs]. now rewrite Hc, IH.
Qed.

Lemma length_replace_outside (keep : ascii -> bool) (by_char : ascii)
  (s : string) :
  String.length (replace_outside keep by_char s) = String.length s.
Proof. induction s as [|c s IH]; cbn; [reflexivity|now rewrite IH]. Qed.

Lemma name_char_no_slash (c : ascii) :
  is_name_char c = true -> negb (Ascii.eqb c "/") = true.
Proof.
  intros H. apply negb_true_iff. apply Ascii.eqb_neq. intros ->.
  discriminate H.
Qed.

(** X24.  [sanitize_repo_name] returns a name made of ASCII letters,
    digits, underscores and hyphens only, as long as the part of the
    repository after its last slash; applied to its own result it changes
    nothing. *)
Theorem sanitize_repo_name_safe (repo : string) :
  all_chars is_name_char (sanitize_repo_name repo) = true
  /\ String.length (sanitize_repo_name repo)
     = String.length (extract_repo_name repo)
  /\ sanitize_repo_name (sanitize_repo_name repo) = sanitize_repo_name repo.
Proof.
  assert (Hsafe : all_chars is_name_char (sanitize_repo_name repo) = true)
    by (apply replace_outside_kept; reflexivity).
  split; [exact Hsafe|]. split; [apply length_replace_outside|].
  unfold sanitize_repo_name at 1.
  rewrite split_on_no_sep
    by (eapply all_chars_impl; [apply name_char_no_slash|exact Hsafe]).
  cbn [last_str List.last]. now apply replace_outside_id.
Qed.

(** X25.  For a repository [org/name] whose name is made of ASCII
    letters, digits, underscores and hyphens, [extract_repo_name] and
    [sanitize_repo_name] both return the name, whatever the organisation
    part holds. *)
Theorem clean_repo_name_kept (org name : string) :
  all_chars is_name_char name = true ->
  extract_repo_name (String.append org (String "/" name)) = name
  /\ sanitize_repo_name (String.append org (String "/" name)) = name.
Proof.
  intros Hname.
  assert (Hlast : last_str (split_on "/" (String.append org (String "/" name)))
                  = name).
  { apply last_segment_app.
    eapply all_chars_impl; [apply name_char_no_slash|exact Hname]. }
  unfold extract_repo_name, sanitize_repo_name. rewrite Hlast.
  split; [reflexivity|now apply replace_outside_id].
Qed.

Lemma clean_repo_name_kept_witness :
  extract_repo_name (String.append "matsengrp" (String "/" "dasm2-experiments"))
  = "dasm2-experiments"
  /\ sanitize_repo_name
       (String.append "matsengrp" (String "/" "dasm2-experiments"))
     = "dasm2-experiments".
Proof.
  apply (clean_repo_name_kept "matsengrp" "dasm2-experiments").
  reflexivity.
Defined.

(** ** The most recent comments *)

Lemma slice_from_last {A : Type} (limit : Z) (l : list A) :
  0 < limit ->
  slice_from (- limit) l = drop (length l - Z.to_nat limit) l.
Proof.
  intros Hl. unfold slice_from.
  destruct (- limit <? 0) eqn:E; [|apply Z.ltb_ge in E; lia].
  f_equal. lia.
Qed.

(** X26.  With a positive limit, [fetch_item_comments] returns the
    summaries of the last comments of the answer, in their order: as many
    as the limit, or all of them when there are fewer. *)
Theorem fetch_item_comments_most_recent
  (gh_api_item_comments : string -> Z -> Z -> api_response ApiComment)
  (repo : string) (number limit : Z) (raw_comments : list ApiComment) :
  0 < limit ->
  gh_api_item_comments repo number limit = ApiList raw_comments ->
  exists older recent,
    raw_comments = older ++ recent
    /\ fetch_item_comments gh_api_item_comments repo number limit
       = map comment_summary recent
    /\ length recent = Nat.min (Z.to_nat limit) (length raw_comments).
Proof.
  intros Hl Hraw. unfold fetch_item_comments. rewrite Hraw.
  rewrite slice_from_last by exact Hl.
  exists (take (length raw_comments - Z.to_nat limit) raw_comments),
    (drop (length raw_comments - Z.to_nat limit) raw_comments).
  split; [now rewrite take_drop|]. split; [reflexivity|].
  rewrite length_drop. lia.
Qed.

Lemma fetch_item_comments_most_recent_witness :
  exists older recent,
    [api_comment "ann" "first"; api_comment "bob" "second";
     api_comment "cy" "third"] = older ++ recent
    /\ fetch_item_comments sample_item_comments "org/repo" 7 2
       = map comment_summary recent
    /\ length recent
       = Nat.min (Z.to_nat 2)
           (length [api_comment "ann" "first"; api_comment "bob" "second";
                    api_comment "cy" "third"]).
Proof.
  apply (fetch_item_comments_most_recent sample_item_comments "org/repo" 7 2).
  - lia.
  - reflexivity.
Defined.

(** X27.  A limit of zero does not limit: [fetch_item_comments] then
    returns the summary of every comment of the answer; and a negative
    limit drops that many of the oldest comments. *)
Theorem fetch_item_comments_without_limit
  (gh_api_item_comments : string -> Z -> Z -> api_response ApiComment)
  (repo : string) (number limit : Z) (raw_comments : list ApiComment) :
  limit <= 0 ->
  gh_api_item_comments repo number limit = ApiList raw_comments ->
  fetch_item_comments gh_api_item_comments repo number limit
  = map comment_summary (drop (Z.to_nat (- limit)) raw_comments).
Proof.
  intros Hl Hraw. unfold fetch_item_comments, slice_from. rewrite Hraw.
  destruct (- limit <? 0) eqn:E; [apply Z.ltb_lt in E; lia|].
  f_equal. destruct (decide (- limit <= Z.of_nat (length raw_comments))).
  - now rewrite Z.min_l by lia.
  - rewrite Z.min_r by lia. rewrite Nat2Z.id.
    rewrite !drop_ge; [reflexivity|lia|lia].
Qed.

Lemma fetch_item_comments_without_limit_witness :
  fetch_item_comments sample_item_comments "org/repo" 7 0
  = map comment_summary
      (drop (Z.to_nat (- 0))
         [api_comment "ann" "first"; api_comment "bob" "second";
          api_comment "cy" "third"]).
Proof.
  apply (fetch_item_comments_without_limit sample_item_comments "org/repo" 7 0).
  - lia.
  - reflexivity.
Defined.

(** ** Durations *)

Lemma split_last_app (body : string) (c : ascii) :
  split_last (String.append body (String c EmptyString)) = Some (body, c).
Proof.
  induction body as [|x body IH]; [reflexivity|].
  rewrite append_cons. cbn [split_last]. now rewrite IH.
Qed.

Lemma split_last_inv (s body : string) (c : ascii) :
  split_last s = Some (body, c) ->
  s = String.append body (String c EmptyString).
Proof.
  revert body. induction s as [|x s IH]; intros body; cbn [split_last];
    [discriminate|].
  destruct (split_last s) as [[b l]|] eqn:Hs.
  - intros [= <- <-]. rewrite append_cons. now rewrite (IH b eq_refl).
  - intros [= <- <-]. destruct s; [reflexivity|].
    cbn [split_last] in Hs. now destruct (split_last s) as [[? ?]|].
Qed.

Lemma length_append (a b : string) :
  String.length (String.append a b) = (String.length a + String.length b)%nat.
Proof.
  induction a as [|c a IH]; [reflexivity|].
  rewrite append_cons. cbn [String.length]. now rewrite IH.
Qed.

Lemma str_of_Z_nonempty (n : Z) : str_of_Z n <> EmptyString.
Proof.
  unfold str_of_Z. destruct n as [|p|p]; cbn; try discriminate.
  unfold NilZero.string_of_uint.
  pose proof (DecimalPos.Unsigned.to_uint_nonnil p) as Hnil.
  destruct (Pos.to_uint p); cbn; congruence.
Qed.

(** X28.  A number followed by d, h or w is read as that many days,
    hours or weeks, a negative number included, as long as the length
    stays within the 999999999 days of a [timedelta]. *)
Theorem parse_duration_reads (n : Z) (unit : ascii) (seconds : Z) :
  (unit, seconds) ∈ duration_units ->
  -999999999 <= n * seconds / 86400 <= 999999999 ->
  parse_duration (String.append (str_of_Z n) (String unit EmptyString))
  = Duration (n * seconds).
Proof.
  intros Hunit Hrange. unfold parse_duration.
  assert (Hlen : (String.length
                    (String.append (str_of_Z n) (String unit EmptyString))
                  <? 2)%nat = false).
  { apply Nat.ltb_ge. rewrite length_append. cbn [String.length].
    pose proof (str_of_Z_nonempty n) as Hne.
    destruct (str_of_Z n); [congruence|cbn; lia]. }
  rewrite Hlen, split_last_app, py_int_str_of_Z.
  assert (Htd : timedelta (n * seconds) = Duration (n * seconds)).
  { unfold timedelta.
    destruct (-999999999 <=? n * seconds / 86400) eqn:E1;
      [|apply Z.leb_gt in E1; lia].
    destruct (n * seconds / 86400 <=? 999999999) eqn:E2;
      [reflexivity|apply Z.leb_gt in E2; lia]. }
  unfold duration_units in Hunit.
  repeat (apply elem_of_cons in Hunit as [[= -> ->]|Hunit];
          [exact Htd|]).
  now apply elem_of_nil in Hunit.
Qed.

Lemma parse_duration_reads_witness :
  parse_duration (String.append (str_of_Z (-2)) (String "w" EmptyString))
  = Duration (-2 * 604800).
Proof.
  apply (parse_duration_reads (-2) "w" 604800).
  - right. right. left.
  - split; apply Z.leb_le; reflexivity.
Defined.

(** X29.  A text that [parse_duration] accepts is what [int] reads as a
    number, followed by one of the letters d, h, w, and the duration is
    that number of days, hours or weeks; every other text, the empty one
    and a lone letter included, is refused. *)
Theorem parse_duration_accepts (s : string) (duration : Z) :
  parse_duration s = Duration duration ->
  exists body val unit seconds,
    s = String.append body (String unit EmptyString)
    /\ body <> EmptyString
    /\ py_int body = Ok val
    /\ (unit, seconds) ∈ duration_units
    /\ duration = val * seconds
    /\ -999999999 <= duration / 86400 <= 999999999.
Proof.
  unfold parse_duration.
  destruct (String.length s <? 2)%nat eqn:Hlen; [discriminate|].
  apply Nat.ltb_ge in Hlen.
  destruct (split_last s) as [[body unit]|] eqn:Hs; [|discriminate].
  apply split_last_inv in Hs. subst s.
  destruct (py_int body) as [val|e] eqn:Hval; [|discriminate].
  assert (Hbody : body <> EmptyString).
  { intros ->. rewrite append_nil in Hlen. cbn [String.length] in Hlen. lia. }
  assert (Htd : forall seconds,
             (unit, seconds) ∈ duration_units ->
             timedelta (val * seconds) = Duration duration ->
             exists body0 val0 unit0 seconds0,
               String.append body (String unit EmptyString)
               = String.append body0 (String unit0 EmptyString)
               /\ body0 <> EmptyString
               /\ py_int body0 = Ok val0
               /\ (unit0, seconds0) ∈ duration_units
               /\ duration = val0 * seconds0
               /\ -999999999 <= duration / 86400 <= 999999999).
  { intros seconds Hin. unfold timedelta.
    destruct (-999999999 <=? val * seconds / 86400) eqn:E1; [|discriminate].
    destruct (val * seconds / 86400 <=? 999999999) eqn:E2; [|discriminate].
    intros [= <-]. apply Z.leb_le in E1, E2.
    exists body, val, unit, seconds. repeat split; assumption. }
  destruct (Ascii.eqb unit "d") eqn:Ed.
  { apply Ascii.eqb_eq in Ed as ->. apply Htd. left. }
  destruct (Ascii.eqb unit "h") eqn:Eh.
  { apply Ascii.eqb_eq in Eh as ->. apply Htd. right. left. }
  destruct (Ascii.eqb unit "w") eqn:Ew; [|discriminate].
  apply Ascii.eqb_eq in Ew as ->. apply Htd. right. right. left.
Qed.

Lemma parse_duration_accepts_witness :
  exists body val unit seconds,
    "12h" = String.append body (String unit EmptyString)
    /\ body <> EmptyString
    /\ py_int body = Ok val
    /\ (unit, seconds) ∈ duration_units
    /\ 43200 = val * seconds
    /\ -999999999 <= 43200 / 86400 <= 999999999.
Proof.
  apply (parse_duration_accepts "12h" 43200). reflexivity.
Defined.

(** ** The two patterns for a reference *)

Lemma greedy_map {R1 R2 : Type} (f : R1 -> R2) (p : ascii -> bool)
  (s : string) (k1 : string -> string -> option R1)
  (k2 : string -> string -> option R2) :
  (forall m rest, k2 m rest = option_map f (k1 m rest)) ->
  greedy p s k2 = option_map f (greedy p s k1).
Proof.
  revert k1 k2. induction s as [|c s IH]; intros k1 k2 Hk; cbn [greedy];
    [apply Hk|].
  destruct (p c); [|apply Hk].
  rewrite (IH (fun m rest => k1 (String c m) rest)
              (fun m rest => k2 (String c m) rest))
    by (intros m rest; apply Hk).
  destruct (greedy p s _); [reflexivity|apply Hk].
Qed.

(** The pattern of the board check and the pattern of the sync match the
    same texts at the same places; the group of the first is the two
    groups of the second around a [#]. *)
Lemma github_patterns_agree (s : string) :
  re_match_at GITHUB_REF_PATTERN s
  = option_map (fun mg => (fst mg, join_ref_parts (snd mg)))
      (re_match_at GITHUB_REF_PARTS_PATTERN s).
Proof.
  unfold re_match_at, GITHUB_REF_PATTERN, GITHUB_REF_PARTS_PATTERN.
  cbn [re_match].
  destruct (strip_prefix "GitHub:" s) as [s1|]; [|reflexivity].
  apply greedy_map. intros ws s2.
  destruct s2 as [|c s2]; [reflexivity|].
  destruct (not_hash_space c); [|reflexivity].
  apply greedy_map. intros repo s3.
  destruct (strip_prefix "#" s3) as [s4|]; [|reflexivity].
  destruct s4 as [|d s4]; [reflexivity|].
  destruct (is_digit d); [|reflexivity].
  apply greedy_map. intros digits s5. reflexivity.
Qed.

Lemma re_search_map (r1 r2 : regex) (h : list string -> list string) :
  (forall s,
      re_match_at r2 s
      = option_map (fun mg => (fst mg, h (snd mg))) (re_match_at r1 s)) ->
  forall s, re_search r2 s = option_map h (re_search r1 s).
Proof.
  intros Hr s. induction s as [|c s IH]; cbn [re_search]; rewrite Hr.
  - now destruct (re_match_at r1 EmptyString) as [[m g]|].
  - destruct (re_match_at r1 (String c s)) as [[m g]|]; [reflexivity|].
    exact IH.
Qed.

Lemma re_findall_from_map (r1 r2 : regex) (h : list string -> list string) :
  (forall s,
      re_match_at r2 s
      = option_map (fun mg => (fst mg, h (snd mg))) (re_match_at r1 s)) ->
  forall s skip,
    re_findall_from r2 skip s = map h (re_findall_from r1 skip s).
Proof.
  intros Hr s. induction s as [|c s IH]; intros skip;
    cbn [re_findall_from]; [reflexivity|].
  destruct skip as [|n]; [|apply IH].
  rewrite Hr. destruct (re_match_at r1 (String c s)) as [[m g]|];
    cbn [option_map fst snd map]; [|apply IH].
  now rewrite IH.
Qed.

Lemma re_search_head (r : regex) (s : string) :
  re_match_at r EmptyString = None ->
  re_search r s = head (re_findall r s).
Proof.
  intros Hempty. unfold re_findall.
  induction s as [|c s IH]; cbn [re_search re_findall_from].
  - now rewrite Hempty.
  - destruct (re_match_at r (String c s)) as [[m g]|]; [reflexivity|].
    exact IH.
Qed.

(** X30.  The sync and the board check read the same reference: the
    repository and the number of a P0 bead are those of the first
    reference that [extract_github_refs_from_description] finds in the
    description of the bead. *)
Theorem p0_bead_first_ref (bead : Bead) (p : P0Bead) :
  p0_bead_of bead = Ok (Some p) ->
  exists digits others,
    extract_github_refs_from_description (get_description bead)
    = String.append (p0_repo p) (String.append "#" digits) :: others
    /\ py_int digits = Ok (p0_issue_number p).
Proof.
  unfold p0_bead_of.
  destruct (bool_decide (priority bead ≠ Some 0)); [discriminate|].
  destruct (re_search GITHUB_REF_PARTS_PATTERN (get_description bead))
    as [[|repo [|digits [|x l]]]|] eqn:Hs; try discriminate.
  destruct (py_int digits) as [n|e] eqn:Hn; cbn; [|discriminate].
  intros [= <-]. cbn [p0_repo p0_issue_number].
  pose proof (re_search_map GITHUB_REF_PARTS_PATTERN GITHUB_REF_PATTERN
                join_ref_parts github_patterns_agree (get_description bead))
    as Hsearch.
  rewrite Hs in Hsearch. cbn [option_map join_ref_parts] in Hsearch.
  rewrite re_search_head in Hsearch by reflexivity.
  unfold extract_github_refs_from_description.
  destruct (re_findall GITHUB_REF_PATTERN (get_description bead))
    as [|g others]; [discriminate|].
  injection Hsearch as ->. cbn [flat_map app].
  exists digits, (flat_map (fun g => g) others). now split.
Qed.

Lemma p0_bead_first_ref_witness :
  exists digits others,
    extract_github_refs_from_description
      (get_description (bead "3.3" "Also. GitHub:org/repo#22 and more" 0))
    = String.append "org/repo" (String.append "#" digits) :: others
    /\ py_int digits = Ok 22.
Proof.
  apply (p0_bead_first_ref (bead "3.3" "Also. GitHub:org/repo#22 and more" 0)
           {| p0_bead_id := "3.3"; p0_title := "A bead";
              p0_repo := "org/repo"; p0_issue_number := 22 |}).
  vm_compute. reflexivity.
Defined.

(** * The verdict, the parent of a comment and the orphans, with their
      conditions *)

(** ** A corpus that can be read *)

Lemma commenter_login (c : Comment) (github_user : string) :
  commenter c <> EmptyString /\ commenter c <> github_user
  <-> exists u l,
        comment_user c = Some u /\ login u = Some l
        /\ l <> EmptyString /\ l <> github_user.
Proof.
  unfold commenter. destruct (comment_user c) as [u|].
  - destruct (login u) as [l|] eqn:Hl; cbn [default].
    + split.
      * intros [H1 H2]. now exists u, l.
      * intros (u' & l' & [= <-] & Hl' & H1 & H2).
        rewrite Hl in Hl'. injection Hl' as <-. now split.
    + split.
      * intros [H1 _]. congruence.
      * intros (u' & l' & [= <-] & Hl' & _). congruence.
  - split.
    + intros [H1 _]. congruence.
    + intros (u' & l' & Hu & _). discriminate.
Qed.

(** C1, as amended.  In a corpus every comment of which can be read (a
    parent reference that is present ends in a number), for an item with
    at least one associated comment: the comment that a stable ascending
    sort by [updated_at], by [created_at] when there is no [updated_at],
    by the empty string when there is neither, puts last exists, and
    [ball_in_my_court] returns [True], and a true value, exactly when
    that comment has a user with a login that is not empty and is not
    the acting user.  The comments are taken in whatever order the caller
    has them: when no two associated comments share a timestamp, every
    arrangement of the corpus gives the same value. *)
Theorem ball_in_my_court_last_comment
  (item : Item) (comments : list Comment) (github_user : string) :
  Forall resolves comments ->
  associated (number item) comments <> [] ->
  exists (c : Comment) (v : pyval),
    sorts_last
      (fun c => match updated_at c with
                | Some t => t
                | None => default EmptyString (created_at c)
                end)
      (associated (number item) comments) c
    /\ ball_in_my_court item comments github_user = Ok v
    /\ (v = PyBool true
        <-> exists u l,
              comment_user c = Some u /\ login u = Some l
              /\ l <> EmptyString /\ l <> github_user)
    /\ (truthy v = true
        <-> exists u l,
              comment_user c = Some u /\ login u = Some l
              /\ l <> EmptyString /\ l <> github_user)
    /\ (NoDup
          ((fun c => match updated_at c with
                     | Some t => t
                     | None => default EmptyString (created_at c)
                     end) <$> associated (number item) comments) ->
        forall comments' : list Comment,
          Permutation comments comments' ->
          ball_in_my_court item comments' github_user = Ok v).
Proof.
  intros Hres Hsome.
  destruct (sorts_last_exists sort_key _ Hsome) as [c Hc].
  pose proof (ball_in_my_court_of_last item comments github_user c Hres Hc)
    as Hv.
  pose proof (verdict_true (commenter c) github_user) as Hverdict.
  cbv zeta in Hverdict. destruct Hverdict as [Ht Htr].
  exists c. eexists. split; [exact Hc|]. split; [exact Hv|].
  split; [now rewrite <- commenter_login|].
  split; [now rewrite <- commenter_login|].
  intros Hnd comments' Hperm. rewrite <- Hv.
  now apply ball_in_my_court_perm.
Qed.

(** Scenario 6 of the test suite, the later comment supplied first. *)
Lemma ball_in_my_court_last_comment_witness :
  exists (c : Comment) (v : pyval),
    sorts_last
      (fun c => match updated_at c with
                | Some t => t
                | None => default EmptyString (created_at c)
                end)
      (associated (number (make_item 50 "contributor"))
         [make_comment 50 "contributor" "2024-01-15T14:00:00Z";
          make_comment 7 "someone" "2024-01-16T09:00:00Z";
          make_comment 50 "matsen" "2024-01-15T10:00:00Z"]) c
    /\ ball_in_my_court (make_item 50 "contributor")
         [make_comment 50 "contributor" "2024-01-15T14:00:00Z";
          make_comment 7 "someone" "2024-01-16T09:00:00Z";
          make_comment 50 "matsen" "2024-01-15T10:00:00Z"] "matsen" = Ok v
    /\ (v = PyBool true
        <-> exists u l,
              comment_user c = Some u /\ login u = Some l
              /\ l <> EmptyString /\ l <> "matsen")
    /\ (truthy v = true
        <-> exists u l,
              comment_user c = Some u /\ login u = Some l
              /\ l <> EmptyString /\ l <> "matsen")
    /\ (NoDup
          ((fun c => match updated_at c with
                     | Some t => t
                     | None => default EmptyString (created_at c)
                     end)
             <$> associated (number (make_item 50 "contributor"))
                   [make_comment 50 "contributor" "2024-01-15T14:00:00Z";
                    make_comment 7 "someone" "2024-01-16T09:00:00Z";
                    make_comment 50 "matsen" "2024-01-15T10:00:00Z"]) ->
        forall comments' : list Comment,
          Permutation
            [make_comment 50 "contributor" "2024-01-15T14:00:00Z";
             make_comment 7 "someone" "2024-01-16T09:00:00Z";
             make_comment 50 "matsen" "2024-01-15T10:00:00Z"] comments' ->
          ball_in_my_court (make_item 50 "contributor") comments' "matsen"
          = Ok v).
Proof.
  apply ball_in_my_court_last_comment.
  - repeat constructor; eapply make_comment_resolves; vm_compute; reflexivity.
  - vm_compute. discriminate.
Defined.

(** C1, the claim as stated: the item has an associated comment, written
    last by someone else, and the corpus holds one more comment whose
    reference does not end in a number.  The function raises where the
    claim has it return [True]. *)
Lemma unreadable_comment_hides_verdict :
  associated 50
    [make_comment 50 "contributor" "2024-01-15T14:00:00Z"; stray_comment]
  = [make_comment 50 "contributor" "2024-01-15T14:00:00Z"]
  /\ ball_in_my_court (make_item 50 "matsen")
       [make_comment 50 "contributor" "2024-01-15T14:00:00Z"; stray_comment]
       "matsen"
     = Raise ValueError
  /\ ball_in_my_court (make_item 50 "matsen")
       [make_comment 50 "contributor" "2024-01-15T14:00:00Z"] "matsen"
     = Ok (PyBool true).
Proof. repeat split; vm_compute; reflexivity. Qed.

(** C3, the claim as stated: no comment of the corpus resolves to the
    number of the item, whose author is not the acting user, and the one
    comment of the corpus has a reference that does not end in a number.
    The function raises where the claim has it return [True]. *)
Lemma unreadable_comment_breaks_empty_case :
  associated 9 [stray_comment] = []
  /\ user_login (make_item 9 "other_user") <> "matsen"
  /\ ball_in_my_court (make_item 9 "other_user") [stray_comment] "matsen"
     = Raise ValueError.
Proof. repeat split; try (vm_compute; reflexivity). discriminate. Qed.

(** ** The parent of a comment *)

(** C4, as amended.  [get_comment_item_number] returns [None] for the
    comments with neither [issue_url] nor [pull_request_url], and for no
    other; such a comment does not make anything raise, and
    [ball_in_my_court] gives the same outcome with it anywhere in the
    corpus as without it.  The other comments without a parent that can
    be resolved are those whose reference ([issue_url], or
    [pull_request_url] when there is no [issue_url]) does not end in
    what [int] reads: on them [get_comment_item_number] raises
    [ValueError], and so does [ball_in_my_court] on every corpus that
    holds one. *)
Theorem unattributable_comment_ignored (c : Comment) :
  (get_comment_item_number c = Ok None
   <-> issue_url c = None /\ pull_request_url c = None)
  /\ (get_comment_item_number c = Ok None ->
      forall (item : Item) (before after : list Comment)
             (github_user : string),
        ball_in_my_court item (before ++ c :: after) github_user
        = ball_in_my_court item (before ++ after) github_user)
  /\ (forall e : pyexn,
        get_comment_item_number c = Raise e ->
        e = ValueError
        /\ (exists url,
               (issue_url c = Some url
                \/ (issue_url c = None /\ pull_request_url c = Some url))
               /\ py_int (last_str (split_on "/" url)) = Raise ValueError)
        /\ forall (item : Item) (before after : list Comment)
                  (github_user : string),
             ball_in_my_court item (before ++ c :: after) github_user
             = Raise ValueError).
Proof.
  split; [apply no_parent_unresolved|]. split.
  - intros Hc item before after github_user. unfold ball_in_my_court.
    assert (E : item_comments_of (number item) (before ++ c :: after)
                = item_comments_of (number item) (before ++ after)).
    { unfold item_comments_of. rewrite !filterM_app.
      cbn [filterM]. rewrite Hc. cbn.
      destruct (filterM _ before); cbn; [|reflexivity].
      now destruct (filterM _ after). }
    now rewrite E.
  - intros e He.
    pose proof (get_comment_item_number_raises c e He) as ->.
    split; [reflexivity|]. split.
    + unfold get_comment_item_number in He.
      destruct (issue_url c) as [url|] eqn:Hi.
      * exists url. split; [now left|].
        destruct (py_int _) as [n|e] eqn:Hn; [discriminate|].
        now apply py_int_raises in Hn as ->.
      * destruct (pull_request_url c) as [url|] eqn:Hp; [|discriminate].
        exists url. split; [right; now split|].
        destruct (py_int _) as [n|e] eqn:Hn; [discriminate|].
        now apply py_int_raises in Hn as ->.
    + intros item before after github_user.
      destruct (ball_in_my_court item (before ++ c :: after) github_user)
        as [v|e] eqn:Hb.
      * exfalso. unfold ball_in_my_court in Hb.
        destruct (filterM_raise_elem
                    (fun c =>
                       r ← get_comment_item_number c;
                       Ok (bool_decide (r = Some (number item))))
                    (before ++ c :: after) c ValueError) as [e' He'].
        -- apply elem_of_app. right. left.
        -- now rewrite He.
        -- unfold item_comments_of in Hb. rewrite He' in Hb. discriminate.
      * now apply ball_in_my_court_raises in Hb as ->.
Qed.

(** A comment without parent between two comments of item 50. *)
Lemma unattributable_comment_ignored_witness :
  get_comment_item_number (orphan_comment "colleague") = Ok None
  /\ ball_in_my_court (make_item 50 "matsen")
       ([make_comment 50 "contributor" "2024-01-15T14:00:00Z"]
        ++ orphan_comment "colleague"
           :: [make_comment 50 "matsen" "2024-01-15T16:00:00Z"]) "matsen"
     = ball_in_my_court (make_item 50 "matsen")
         ([make_comment 50 "contributor" "2024-01-15T14:00:00Z"]
          ++ [make_comment 50 "matsen" "2024-01-15T16:00:00Z"]) "matsen".
Proof.
  destruct (unattributable_comment_ignored (orphan_comment "colleague"))
    as (Hnone & Hskip & _).
  assert (H : get_comment_item_number (orphan_comment "colleague") = Ok None).
  { apply Hnone. split; reflexivity. }
  split; [exact H|]. now apply Hskip.
Defined.

(** C4, the claim as stated: the parent of this comment cannot be
    resolved, and [get_comment_item_number] does not return [None] on it:
    it raises, and so does [ball_in_my_court], where leaving the comment
    out gives [False]. *)
Lemma unreadable_parent_raises :
  get_comment_item_number stray_comment = Raise ValueError
  /\ ball_in_my_court (make_item 1 "matsen") [stray_comment] "matsen"
     = Raise ValueError
  /\ ball_in_my_court (make_item 1 "matsen") [] "matsen"
     = Ok (PyBool false).
Proof. repeat split; vm_compute; reflexivity. Qed.

(** ** The orphans of a board and the references of the beads *)

Lemma described_bead (b : Bead) (pre s : string) :
  get_description b = String.append pre (String.append "GitHub:" s) ->
  description b = Some (String.append pre (String.append "GitHub:" s)).
Proof.
  unfold get_description. destruct (description b) as [d|].
  - change (default EmptyString (Some d)) with d. now intros ->.
  - destruct pre; discriminate.
Qed.

(** C6.  The references collected from the beads are those that
    [GITHUB_REF_PATTERN] finds in the description of some bead: each
    stands in a description after the word [GitHub:] and optional white
    space, and is a repository without [#] or white space, a [#] and a
    run of digits; and a bead whose description holds such a marker, not
    followed by a further digit, after text without the letter G, puts
    its reference among them.  In the report of [check_boards]: an item
    listed as an orphan is of Issue type, its status is not "done" in any
    letter case, and its reference is in no bead's description, so a done
    item is never listed whatever the beads say; and an Issue-type item
    of a listed board, not done and carrying a repository and a number,
    is listed as an orphan of its board exactly when its [repo#number] is
    not among the references collected from the beads. *)
Theorem orphan_issue_reporting
  (fetch_board_items : string -> string -> list BoardItem)
  (boards : list (string * string)) (beads : list Bead) :
  (forall ref : string,
     ref ∈ collect_all_github_refs beads
     <-> exists bead,
           bead ∈ beads
           /\ ref ∈ extract_github_refs_from_description
                      (default EmptyString (description bead)))
  /\ (forall ref : string,
        ref ∈ collect_all_github_refs beads ->
        exists bead pre ws repo digits rest,
          bead ∈ beads
          /\ description bead
             = Some (String.append pre
                       (String.append "GitHub:"
                          (String.append ws (String.append ref rest))))
          /\ ref = String.append repo (String.append "#" digits)
          /\ all_chars is_space ws = true
          /\ repo_token repo
          /\ digit_run digits)
  /\ (forall (bead : Bead) (pre ws repo digits rest : string),
        bead ∈ beads ->
        description bead
        = Some (String.append pre
                  (String.append "GitHub:"
                     (String.append ws
                        (String.append repo
                           (String.append "#"
                              (String.append digits rest)))))) ->
        no_char "G" pre ->
        all_chars is_space ws = true ->
        repo_token repo ->
        digit_run digits ->
        stops is_digit rest ->
        String.append repo (String.append "#" digits)
        ∈ collect_all_github_refs beads)
  /\ (forall (board_key : string) (changes : BoardChanges) (item : BoardItem),
        od_get board_key (check_boards fetch_board_items boards beads)
        = Some changes ->
        item ∈ orphan_issues changes ->
        item_type item = "Issue"
        /\ lower (item_status item) <> "done"
        /\ board_item_ref item ∉ collect_all_github_refs beads)
  /\ (forall (board_key parent owner project_num : string) (item : BoardItem),
        (board_key, parent) ∈ boards ->
        split_on "/" board_key = [owner; project_num] ->
        item ∈ fetch_board_items owner project_num ->
        item_type item = "Issue" ->
        lower (item_status item) <> "done" ->
        nonempty (item_repo item) = true ->
        number_true (item_number item) = true ->
        ((exists changes,
             od_get board_key (check_boards fetch_board_items boards beads)
             = Some changes
             /\ item ∈ orphan_issues changes)
         <-> board_item_ref item ∉ collect_all_github_refs beads)).
Proof.
  assert (Hsound :
    forall board_key changes item,
      od_get board_key (check_boards fetch_board_items boards beads)
      = Some changes ->
      item ∈ orphan_issues changes ->
      item_type item = "Issue"
      /\ orphan_condition (collect_all_github_refs beads) item).
  { intros k changes item Hget Hitem. unfold check_boards in Hget.
    apply check_boards_sound in Hget as [Hget|(p & o & n & _ & _ & Hc)];
      [discriminate|].
    apply check_board_orphans in Hc. rewrite Hc in Hitem.
    apply elem_of_find_orphan_issues in Hitem as [Hin Hcond].
    apply list_elem_of_In, filter_In in Hin as [_ Hty].
    apply bool_decide_eq_true in Hty. now split. }
  split; [|split; [|split; [|split]]].
  - intros ref. apply elem_of_collect_all_github_refs.
  - intros ref Href.
    apply elem_of_collect_all_github_refs in Href as (bead & Hb & Hin).
    remember (get_description bead) as desc eqn:Hdesc.
    unfold extract_github_refs_from_description in Hin.
    apply list_elem_of_In, in_flat_map in Hin as (g & Hg & Hin).
    apply list_elem_of_In, re_findall_from_sound in Hg
      as (pre & m & rest & -> & Hm).
    cbn [matches GITHUB_REF_PATTERN] in Hm.
    destruct Hm as (m1 & m2 & g1 & g2 & -> & -> & [-> ->] & Hm).
    destruct Hm as (m3 & m4 & g3 & g4 & -> & -> & [Hws ->] & Hm).
    destruct Hm as (g5 & -> & Hm).
    destruct Hm as (m5 & m6 & g6 & g7 & -> & -> & (Hne & Hrepo & ->) & Hm).
    destruct Hm as (m7 & m8 & g8 & g9 & -> & -> & [-> ->]
                    & (Hdne & Hdigits & ->)).
    cbn in Hin. destruct Hin as [<-|[]].
    exists bead, pre, m3, m5, m8, rest.
    split; [exact Hb|]. split; [|repeat split; assumption].
    apply described_bead. rewrite <- Hdesc. now rewrite !append_assoc.
  - intros bead pre ws repo digits rest Hb Hdesc Hpre Hws Hrepo Hdigits Hrest.
    apply elem_of_collect_all_github_refs. exists bead. split; [exact Hb|].
    unfold get_description. rewrite Hdesc.
    change (default EmptyString (Some ?d)) with d.
    unfold extract_github_refs_from_description.
    destruct (findall_github_ref pre ws repo digits rest
                Hpre Hws Hrepo Hdigits Hrest) as [others ->].
    left.
  - intros k changes item Hget Hitem.
    destruct (Hsound k changes item Hget Hitem) as (Hty & Hd & _ & _ & Hr).
    auto.
  - intros k parent owner project_num item Hin Hs Hitem Hty Hd Hrepo Hnum.
    split.
    + intros (changes & Hget & Horph).
      now destruct (Hsound k changes item Hget Horph) as (_ & _ & _ & _ & Hr).
    + intros Href.
      assert (Hmem : item ∈ find_orphan_issues (collect_all_github_refs beads)
                       (List.filter
                          (fun item => bool_decide (item_type item = "Issue"))
                          (fetch_board_items owner project_num))).
      { apply elem_of_find_orphan_issues. split; [|now repeat split].
        apply list_elem_of_In, filter_In. split.
        - now apply list_elem_of_In.
        - now apply bool_decide_eq_true. }
      destruct (check_boards_complete fetch_board_items
                  (index_beads_by_board beads)
                  (collect_all_github_refs beads) boards [] k parent owner
                  project_num Hin Hs) as (changes & Hget & Horph).
      * intros Hnil. rewrite Hnil in Hmem. now apply elem_of_nil in Hmem.
      * exists changes. split; [exact Hget|]. now rewrite Horph.
Qed.

(** The board of the fixtures: issue 13 is named by the first bead and is
    not reported, issue 14 is named by no bead and is reported. *)
Lemma orphan_issue_reporting_witness :
  "org/repo#13" ∈ collect_all_github_refs sample_beads
  /\ ~ (exists changes,
          od_get "org/5"
            (check_boards sample_fetch [("org/5", "3"); ("bad", "4")]
               sample_beads)
          = Some changes
          /\ board_issue "PVTI_2" "org/repo" 13 "Next"
             ∈ orphan_issues changes)
  /\ (exists changes,
         od_get "org/5"
           (check_boards sample_fetch [("org/5", "3"); ("bad", "4")]
              sample_beads)
         = Some changes
         /\ board_issue "PVTI_3" "org/repo" 14 "Active"
            ∈ orphan_issues changes).
Proof.
  destruct (orphan_issue_reporting sample_fetch
              [("org/5", "3"); ("bad", "4")] sample_beads)
    as (Hrefs & _ & Hmarker & _ & Hiff).
  assert (H13 : "org/repo#13" ∈ collect_all_github_refs sample_beads).
  { apply (Hmarker (bead "3.1" "Tracked. GitHub: org/repo#13" 0)
             "Tracked. " " " "org/repo" "13" "").
    - left.
    - reflexivity.
    - reflexivity.
    - reflexivity.
    - split; [discriminate|reflexivity].
    - split; [discriminate|reflexivity].
    - exact I. }
  split; [exact H13|]. split.
  - intros Hlisted.
    apply (Hiff "org/5" "3" "org" "5"
             (board_issue "PVTI_2" "org/repo" 13 "Next")) in Hlisted.
    + now apply Hlisted.
    + left.
    + reflexivity.
    + apply list_elem_of_In. vm_compute. tauto.
    + reflexivity.
    + vm_compute. discriminate.
    + reflexivity.
    + reflexivity.
  - apply (Hiff "org/5" "3" "org" "5"
             (board_issue "PVTI_3" "org/repo" 14 "Active")).
    + left.
    + reflexivity.
    + apply list_elem_of_In. vm_compute. tauto.
    + reflexivity.
    + vm_compute. discriminate.
    + reflexivity.
    + reflexivity.
    + intros Hin. apply Hrefs in Hin as (b & Hb & Hin).
      repeat (apply elem_of_cons in Hb as [->|Hb];
              [vm_compute in Hin;
               repeat (apply elem_of_cons in Hin as [Hin|Hin];
                       [discriminate|]);
               now apply elem_of_nil in Hin|]).
      now apply elem_of_nil in Hb.
Defined.
